(** * Playwright GIS framework: geodesy utilities and the condition poller

    A shallow embedding of

    - [GIS_CONFIG] (config/constants.ts),
    - [GISValidations] (utils/gis-validations.ts),
    - [GISCalculations] (utils/gis-calculations.ts),
    - the legacy [GISHelpers] (utils/gis-helpers.ts),
    - [GISWaitStrategies.waitForCondition] (utils/gis-wait-strategies.ts),
    - the error classes and [ErrorHandler] (utils/errors.ts),
    - [generateRandomCoordinate] (utils/gis-test-data.ts),
    - [validateMapState] and [checkPerformanceThresholds]
      (services/gis-test-service.ts),

    together with the properties stated about them.

    Numbers.  A TypeScript [number] is an IEEE-754 double.  This
    development reads the arithmetic of the geodesy code over the real
    numbers: [+], [-], [*], [/] and the comparisons are the exact ones and
    [Math.sin], [Math.cos], [Math.sqrt], [Math.asin], [Math.atan2] are the
    mathematical functions.  Rounding, [NaN] and the infinities are outside
    that reading, so a statement made in it carries the range of inputs on
    which the doubles follow the reals up to rounding.  Where the doubles
    part from the reals for good -- a haversine term that rounds above 1, a
    longitude so large that subtracting 360 leaves it unchanged -- the code
    is read a second time on doubles, in [Double].  Clock readings and
    durations, which are whole milliseconds, are integers, and so is the
    number of retries [withRetry] is given. *)

From Stdlib Require Import String.
From Stdlib Require Import Reals Lra Lia ZArith List Bool Arith.
From Stdlib Require Floats.
Import ListNotations.

Open Scope R_scope.

(** ** Numbers and comparisons *)

Definition number := R.

(** The four comparison operators of the language, as booleans. *)
Definition num_le (x y : number) : bool := if Rle_dec x y then true else false.
Definition num_lt (x y : number) : bool := if Rlt_dec x y then true else false.
Definition num_ge (x y : number) : bool := num_le y x.
Definition num_gt (x y : number) : bool := num_lt y x.

(** Strict equality [===] of two numbers. *)
Definition num_eq (x y : number) : bool := if Req_EM_T x y then true else false.

(** The built-in [Math] object, over the reals.  [sqrt] of a negative number
    and [asin] outside [-1, 1] are [NaN] in the language and are not used at
    such arguments by the properties below. *)
Module Math.
Abbreviation PI := Rtrigo1.PI.
Abbreviation sin := Rtrigo_def.sin.
Abbreviation cos := Rtrigo_def.cos.
Abbreviation sqrt := R_sqrt.sqrt.
Abbreviation asin := Ratan.asin.
Abbreviation abs := Rbasic_fun.Rabs.
Abbreviation max := Rbasic_fun.Rmax.
Abbreviation min := Rbasic_fun.Rmin.

(** [Math.atan2 y x]: the angle of the point [(x, y)], in [(-PI, PI]];
    [atan2 0 0] is [0]. *)
Definition atan2 (y x : number) : number :=
  if Rlt_dec 0 x then atan (y / x)
  else if Rlt_dec x 0 then
         if Rle_dec 0 y then atan (y / x) + PI else atan (y / x) - PI
  else if Rlt_dec 0 y then PI / 2
  else if Rlt_dec y 0 then - (PI / 2)
  else 0.

(** [Math.floor], and [Math.round], which rounds a half upwards. *)
Definition floor (x : number) : number := IZR (Int_part x).
Definition round (x : number) : number := IZR (Int_part (x + 1 / 2)).
End Math.

(** The remainder operator [x % y]: the quotient is truncated towards zero,
    so the result has the sign of [x]. *)
Definition truncate (x : number) : Z :=
  if Rle_dec 0 x then Int_part x else (- Int_part (- x))%Z.

Definition num_rem (x y : number) : number := x - y * IZR (truncate (x / y)).

(** ** Logging

    [logger.warn], [logger.debug], [console.warn] and [console.log] only
    record a line.  A template string is kept as its pieces, so that an
    interpolated value stays a value. *)

(** Values that can be thrown: the framework's [TimeoutError]; any other
    value that a template string can turn into text (named by that text);
    or a value that it cannot: for a Symbol, [`${error}`] itself throws a
    [TypeError]. *)
Inductive Thrown :=
| TimeoutError (operation : string) (timeout : Z)
| OtherError (what : string)
| ThrownSymbol (description : string).

Inductive Piece :=
| Txt (s : string)
| Num (x : number)
| Fixed (x : number) (digits : nat)
| Err (e : Thrown).

Inductive Sink := Logger | Console.
Inductive Level := Debug | Info | Warn | Error.

(** [enum LogLevel { DEBUG = 0, INFO = 1, WARN = 2, ERROR = 3 }] *)
Definition rank (level : Level) : nat :=
  match level with Debug => 0 | Info => 1 | Warn => 2 | Error => 3 end.

(** [TestLogger.log] drops a line whose level is below the level of the
    logger: [if (level < this.logLevel) return].  The logger starts at
    [LogLevel.INFO]. *)
Definition recorded (logLevel level : Level) : bool :=
  negb (rank level <? rank logLevel)%nat.

Record LogEntry := mkLog { sink : Sink; level : Level; message : list Piece }.

(** A computation that writes log lines and returns a value. *)
Definition Logged (A : Type) : Type := (A * list LogEntry)%type.

Definition ret {A} (a : A) : Logged A := (a, []).
Definition bind {A B} (m : Logged A) (k : A -> Logged B) : Logged B :=
  let (a, l1) := m in let (b, l2) := k a in (b, l1 ++ l2).
Definition tell (e : LogEntry) : Logged unit := (tt, [e]).
Definition when (b : bool) (m : Logged unit) : Logged unit :=
  if b then m else ret tt.
Definition result {A} (m : Logged A) : A := fst m.

Notation "x <- m ;; k" := (bind m (fun x => k))
  (at level 61, m at next level, right associativity).
Notation "m ;;; k" := (bind m (fun _ => k))
  (at level 61, right associativity).

(** ** config/constants.ts *)

Module GIS_CONFIG.
Module COORDINATE_LIMITS.
Definition MIN_LATITUDE : number := -90.
Definition MAX_LATITUDE : number := 90.
Definition MIN_LONGITUDE : number := -180.
Definition MAX_LONGITUDE : number := 180.
End COORDINATE_LIMITS.
Definition EARTH_RADIUS_KM : number := 6371.
Module PERFORMANCE_THRESHOLDS.
Definition MAP_LOAD_MAX_MS : Z := 15000.
Definition ZOOM_OPERATIONS_MAX_MS : Z := 30000.
Definition LAYER_SWITCH_MAX_MS : Z := 25000.
End PERFORMANCE_THRESHOLDS.
Module VALIDATION_THRESHOLDS.
Definition COORDINATE_CHANGE_MIN : number := 1 / 1000000.
Definition COORDINATE_TOLERANCE : number := 1 / 100.
Definition ZOOM_TOLERANCE : number := 0.
End VALIDATION_THRESHOLDS.
End GIS_CONFIG.

Record MapBounds := mkBounds {
  north : number; south : number; east : number; west : number
}.

Record Coordinates := mkCoord { lat : number; lng : number }.

(** A default parameter value, [f(x = fallback)]: used when the argument
    is left out. *)
Definition or_default {A} (argument : option A) (fallback : A) : A :=
  match argument with Some a => a | None => fallback end.

(** ** utils/errors.ts: the error classes

    A value of the language, as far as messages, contexts and [throw] need
    it.  [VError] is an [Error] that is not a [TestError]; [VTestError]
    carries the fields a [TestError] has.  A message is the list of the
    values its template string interpolates; [VTemplate] is a template
    string used as a value. *)

#[local] Unset Elimination Schemes.
Inductive Value :=
| VNumber (x : number)
| VText (s : string)
| VNull
| VUndefined
| VObject (fields : list (string * Value))
| VTemplate (parts : list Value)
| VError (message : list Value)
| VSymbol (description : string)
| VTestError (name : string) (message : list Value)
    (context : list (string * Value)) (code : option string) (isRetryable : bool).
#[local] Set Elimination Schemes.

(** What a call does: it returns a value or it throws one. *)
Inductive Attempt (A : Type) :=
| Return (a : A)
| Throw (error : Value).
Arguments Return {A} a.
Arguments Throw {A} error.

Module Errors.

(** [error instanceof Error] and [error instanceof TestError]. *)
Definition instanceof_Error (v : Value) : bool :=
  match v with VError _ | VTestError _ _ _ _ _ => true | _ => false end.

Definition instanceof_TestError (v : Value) : bool :=
  match v with VTestError _ _ _ _ _ => true | _ => false end.

(** [error.message] of an [Error]. *)
Definition message_of (v : Value) : list Value :=
  match v with
  | VError message | VTestError _ message _ _ _ => message
  | _ => [VUndefined]
  end.

(** [{ ...context, key: value, ... }] *)
Definition spread (context : option (list (string * Value)))
    (more : list (string * Value)) : list (string * Value) :=
  or_default context [] ++ more.

Definition InvalidCoordinatesError (lat lng : number)
    (context : option (list (string * Value))) : Value :=
  VTestError "InvalidCoordinatesError"
    [VText "Invalid coordinates: lat="; VNumber lat; VText ", lng="; VNumber lng]
    (or_default context []) (Some "INVALID_COORDINATES"%string) false.

Definition ValidationError (validation : string) (expected actual : Value)
    (context : option (list (string * Value))) : Value :=
  VTestError "ValidationError"
    [VText "Validation failed: "; VText validation; VText ". Expected: ";
     expected; VText ", Actual: "; actual]
    (spread context [("expected"%string, expected); ("actual"%string, actual)])
    (Some "VALIDATION_ERROR"%string) false.

Definition TimeoutError (operation : string) (timeout : Z)
    (context : option (list (string * Value))) : Value :=
  VTestError "TimeoutError"
    [VText "Operation timed out: "; VText operation; VText " (timeout: ";
     VNumber (IZR timeout); VText "ms)"]
    (or_default context []) (Some "TIMEOUT_ERROR"%string) true.

End Errors.

(** The value behind what [waitForCondition] throws. *)
Definition value_of_thrown (e : Thrown) : Value :=
  match e with
  | TimeoutError operation timeout => Errors.TimeoutError operation timeout None
  | OtherError what => VError [VText what]
  | ThrownSymbol description => VSymbol description
  end.

(** ** utils/gis-validations.ts *)

Module GISValidations.
Import GIS_CONFIG.COORDINATE_LIMITS.

Definition validateCoordinates (lat lng : number) : Logged bool :=
  let isValidLat := num_ge lat MIN_LATITUDE && num_le lat MAX_LATITUDE in
  let isValidLng := num_ge lng MIN_LONGITUDE && num_le lng MAX_LONGITUDE in
  when (negb isValidLat)
    (tell (mkLog Logger Warn
       [Txt "Invalid latitude: "; Num lat; Txt " (must be "; Num MIN_LATITUDE;
        Txt " to "; Num MAX_LATITUDE; Txt ")"])) ;;;
  when (negb isValidLng)
    (tell (mkLog Logger Warn
       [Txt "Invalid longitude: "; Num lng; Txt " (must be "; Num MIN_LONGITUDE;
        Txt " to "; Num MAX_LONGITUDE; Txt ")"])) ;;;
  ret (isValidLat && isValidLng).

Definition isPointInBounds (pointLat pointLng : number) (bounds : MapBounds)
  : bool :=
  num_le pointLat (north bounds) && num_ge pointLat (south bounds) &&
  num_le pointLng (east bounds) && num_ge pointLng (west bounds).

(** [&&] evaluates its right operand only when the left one is true, so the
    second corner is validated (and its warnings written) only then. *)
Definition validateBounds (bounds : MapBounds) : Logged bool :=
  let isValidStructure :=
    num_gt (north bounds) (south bounds) && num_gt (east bounds) (west bounds) in
  isValidCoordinates <-
    (ne <- validateCoordinates (north bounds) (east bounds) ;;
     if ne then validateCoordinates (south bounds) (west bounds) else ret false) ;;
  ret (isValidStructure && isValidCoordinates).

(** The rest of the class.  The functions below that read the page take
    what [page.evaluate] returned for them as their first argument
    ([None] when the map gave nothing).  A coordinate array is a list of
    records, so the [Array.isArray] and [typeof] tests are always passed. *)

Definition bounds_value (bounds : MapBounds) : Value :=
  VObject [("north"%string, VNumber (north bounds));
           ("south"%string, VNumber (south bounds));
           ("east"%string, VNumber (east bounds));
           ("west"%string, VNumber (west bounds))].

Definition coordinates_value (c : Coordinates) : Value :=
  VObject [("lat"%string, VNumber (lat c)); ("lng"%string, VNumber (lng c))].

Definition assertValidCoordinates (lat lng : number) : Logged (Attempt unit) :=
  valid <- validateCoordinates lat lng ;;
  if negb valid then ret (Throw (Errors.InvalidCoordinatesError lat lng None))
  else ret (Return tt).

Definition assertZoomLevel (currentZoom : option number) (expectedZoom : number)
    (tolerance : option number) : Logged (Attempt unit) :=
  let tolerance :=
    or_default tolerance GIS_CONFIG.VALIDATION_THRESHOLDS.ZOOM_TOLERANCE in
  match currentZoom with
  | None =>
      ret (Throw (Errors.ValidationError "Zoom level not available"
                    (VNumber expectedZoom) VUndefined None))
  | Some currentZoom =>
      let verified :=
        tell (mkLog Logger Info
                [Txt "Zoom level verified: "; Num currentZoom;
                 Txt " (expected: "; Num expectedZoom; Txt ")"]) ;;;
        ret (Return tt) in
      if num_eq tolerance 0 then
        if negb (num_eq currentZoom expectedZoom) then
          ret (Throw (Errors.ValidationError "Zoom level mismatch"
                        (VNumber expectedZoom) (VNumber currentZoom) None))
        else verified
      else
        let difference := Math.abs (currentZoom - expectedZoom) in
        if num_gt difference tolerance then
          ret (Throw (Errors.ValidationError "Zoom level outside tolerance"
                        (VTemplate [VNumber expectedZoom; VText " ± ";
                                    VNumber tolerance])
                        (VNumber currentZoom)
                        (Some [("difference"%string, VNumber difference);
                               ("tolerance"%string, VNumber tolerance)])))
        else verified
  end.

Definition assertMapCenter (center : option Coordinates)
    (expectedLat expectedLng : number) (tolerance : option number)
  : Logged (Attempt unit) :=
  let tolerance :=
    or_default tolerance GIS_CONFIG.VALIDATION_THRESHOLDS.COORDINATE_TOLERANCE in
  match center with
  | None =>
      ret (Throw (Errors.ValidationError "Map center not available"
                    (VObject [("expectedLat"%string, VNumber expectedLat);
                              ("expectedLng"%string, VNumber expectedLng)])
                    VNull None))
  | Some center =>
      let latDiff := Math.abs (lat center - expectedLat) in
      let lngDiff := Math.abs (lng center - expectedLng) in
      if num_gt latDiff tolerance || num_gt lngDiff tolerance then
        ret (Throw (Errors.ValidationError "Map center outside tolerance"
                      (VObject [("lat"%string, VNumber expectedLat);
                                ("lng"%string, VNumber expectedLng);
                                ("tolerance"%string, VNumber tolerance)])
                      (coordinates_value center)
                      (Some [("latDiff"%string, VNumber latDiff);
                             ("lngDiff"%string, VNumber lngDiff)])))
      else
        tell (mkLog Logger Info
                [Txt "Map center verified: ("; Fixed (lat center) 4; Txt ", ";
                 Fixed (lng center) 4; Txt ")"]) ;;;
        ret (Return tt)
  end.

Definition assertValidMapBounds (bounds : option MapBounds)
  : Logged (Attempt unit) :=
  match bounds with
  | None =>
      ret (Throw (Errors.ValidationError "Map bounds not available"
                    (VText "valid bounds object") VNull None))
  | Some bounds =>
      if num_le (north bounds) (south bounds) then
        ret (Throw (Errors.ValidationError "Invalid bounds: north <= south"
                      (VText "north > south") (bounds_value bounds)
                      (Some [("north"%string, VNumber (north bounds));
                             ("south"%string, VNumber (south bounds))])))
      else if num_le (east bounds) (west bounds) then
        ret (Throw (Errors.ValidationError "Invalid bounds: east <= west"
                      (VText "east > west") (bounds_value bounds)
                      (Some [("east"%string, VNumber (east bounds));
                             ("west"%string, VNumber (west bounds))])))
      else
        valid <- validateBounds bounds ;;
        if negb valid then
          ret (Throw (Errors.ValidationError
                        "Map bounds contain invalid coordinates"
                        (VText "valid coordinates") (bounds_value bounds) None))
        else
          tell (mkLog Logger Info
                  [Txt "Map bounds are valid: N:"; Fixed (north bounds) 2;
                   Txt " S:"; Fixed (south bounds) 2;
                   Txt " E:"; Fixed (east bounds) 2;
                   Txt " W:"; Fixed (west bounds) 2]) ;;;
          ret (Return tt)
  end.

Definition validateZoomLevel (zoom : number) (minZoom maxZoom : option number)
  : bool :=
  num_ge zoom (or_default minZoom 0) && num_le zoom (or_default maxZoom 20).

Definition validateCoordinateChange (oldCoord newCoord : Coordinates)
    (minThreshold : option number) : bool :=
  let minThreshold :=
    or_default minThreshold GIS_CONFIG.VALIDATION_THRESHOLDS.COORDINATE_CHANGE_MIN in
  let latDiff := Math.abs (lat newCoord - lat oldCoord) in
  let lngDiff := Math.abs (lng newCoord - lng oldCoord) in
  num_gt latDiff minThreshold || num_gt lngDiff minThreshold.

Definition validateDistance (distance : number)
    (minDistance maxDistance : option number) : bool :=
  num_ge distance (or_default minDistance 0) &&
  num_le distance (or_default maxDistance 20037).

Definition validateBearing (bearing : number) : bool :=
  num_ge bearing 0 && num_lt bearing 360.

(** [coordinates.every(coord => ... validateCoordinates(coord.lat, coord.lng))]:
    the callback is not called again once it has answered [false]. *)
Fixpoint every_valid (coordinates : list Coordinates) : Logged bool :=
  match coordinates with
  | [] => ret true
  | coord :: rest =>
      valid <- validateCoordinates (lat coord) (lng coord) ;;
      if valid then every_valid rest else ret false
  end.

Definition validateCoordinateArray (coordinates : list Coordinates)
  : Logged bool :=
  if (length coordinates =? 0)%nat then ret false
  else every_valid coordinates.
End GISValidations.

(** ** utils/gis-calculations.ts *)

Module GISCalculations.
Import GIS_CONFIG.

Definition degreesToRadians (degrees : number) : number :=
  degrees * (Math.PI / 180).

Definition radiansToDegrees (radians : number) : number :=
  radians * (180 / Math.PI).

Definition calculateDistance (lat1 lng1 lat2 lng2 : number) : number :=
  let R := EARTH_RADIUS_KM in
  let dLat := degreesToRadians (lat2 - lat1) in
  let dLng := degreesToRadians (lng2 - lng1) in
  let a :=
    Math.sin (dLat / 2) * Math.sin (dLat / 2) +
    Math.cos (degreesToRadians lat1) *
      Math.cos (degreesToRadians lat2) *
      Math.sin (dLng / 2) *
      Math.sin (dLng / 2) in
  let c := 2 * Math.atan2 (Math.sqrt a) (Math.sqrt (1 - a)) in
  let distance := R * c in
  distance.

Definition calculateBearing (lat1 lng1 lat2 lng2 : number) : number :=
  let dLng := degreesToRadians (lng2 - lng1) in
  let lat1Rad := degreesToRadians lat1 in
  let lat2Rad := degreesToRadians lat2 in
  let y := Math.sin dLng * Math.cos lat2Rad in
  let x :=
    Math.cos lat1Rad * Math.sin lat2Rad -
    Math.sin lat1Rad * Math.cos lat2Rad * Math.cos dLng in
  let bearing := Math.atan2 y x in
  num_rem ((bearing * 180) / Math.PI + 360) 360.


(** [coordinates[i]]; the loop below only reads indices below the length. *)
Definition at_index (coordinates : list Coordinates) (i : nat) : Coordinates :=
  nth i coordinates (mkCoord 0 0).

(** One turn of the [for] loop of [calculatePolygonArea]: the new value
    of [area] for index [i]. *)
Definition area_step (coordinates : list Coordinates) (area : number) (i : nat)
  : number :=
  let j := ((i + 1) mod (length coordinates))%nat in
  let lat1 := degreesToRadians (lat (at_index coordinates i)) in
  let lat2 := degreesToRadians (lat (at_index coordinates j)) in
  let lng1 := degreesToRadians (lng (at_index coordinates i)) in
  let lng2 := degreesToRadians (lng (at_index coordinates j)) in
  area + (lng2 - lng1) * (2 + Math.sin lat1 + Math.sin lat2).

Definition calculatePolygonArea (coordinates : list Coordinates) : number :=
  if (length coordinates <? 3)%nat then 0
  else
    let R := EARTH_RADIUS_KM in
    let area :=
      fold_left (area_step coordinates) (seq 0 (length coordinates)) 0 in
    (Math.abs area * R * R) / 2.

(** The two [while] loops of [normalizeLongitude].  [fuel] bounds the number
    of turns; [None] means the bound was reached with the loop still
    running.  Over the reals every turn moves the value by 360; doubles do
    so up to a magnitude of 2^53 and beyond ([Double.GISCalculations] has
    the loops on doubles, for the values that a turn no longer moves). *)
Fixpoint while_above (fuel : nat) (lng : number) : option number :=
  match fuel with
  | O => None
  | S fuel' =>
      if num_gt lng 180 then while_above fuel' (lng - 360) else Some lng
  end.

Fixpoint while_below (fuel : nat) (lng : number) : option number :=
  match fuel with
  | O => None
  | S fuel' =>
      if num_lt lng (-180) then while_below fuel' (lng + 360) else Some lng
  end.

Definition normalizeLongitude (fuel : nat) (lng : number) : option number :=
  match while_above fuel lng with
  | Some lng' => while_below fuel lng'
  | None => None
  end.

Definition normalizeLatitude (lat : number) : number :=
  Math.max (-90) (Math.min 90 lat).

Definition calculateMidpoint (lat1 lng1 lat2 lng2 : number) : Coordinates :=
  let lat1Rad := degreesToRadians lat1 in
  let lat2Rad := degreesToRadians lat2 in
  let dLng := degreesToRadians (lng2 - lng1) in
  let bx := Math.cos lat2Rad * Math.cos dLng in
  let by_ := Math.cos lat2Rad * Math.sin dLng in
  let lat3Rad :=
    Math.atan2
      (Math.sin lat1Rad + Math.sin lat2Rad)
      (Math.sqrt ((Math.cos lat1Rad + bx) * (Math.cos lat1Rad + bx) + by_ * by_)) in
  let lng3Rad :=
    degreesToRadians lng1 + Math.atan2 by_ (Math.cos lat1Rad + bx) in
  mkCoord (radiansToDegrees lat3Rad) (radiansToDegrees lng3Rad).

(** The four values [toDMS] puts into its template string. *)
Record DMS := mkDMS {
  dms_degrees : number;
  dms_minutes : number;
  dms_seconds : number;
  dms_direction : string
}.

Definition toDMS_parts (decimal : number) (isLongitude : option bool) : DMS :=
  let isLongitude := or_default isLongitude false in
  let dir :=
    if isLongitude
    then (if num_ge decimal 0 then "E" else "W")%string
    else (if num_ge decimal 0 then "N" else "S")%string in
  let abs := Math.abs decimal in
  let degrees := Math.floor abs in
  let minutes := Math.floor ((abs - degrees) * 60) in
  let seconds :=
    Math.round (((abs - degrees) * 60 - minutes) * 60 * 100) / 100 in
  mkDMS degrees minutes seconds dir.

(** The double quote that ends the seconds. *)
Definition double_quote : string := String (Ascii.ascii_of_nat 34) EmptyString.

Definition toDMS (decimal : number) (isLongitude : option bool) : list Piece :=
  let parts := toDMS_parts decimal isLongitude in
  [Num (dms_degrees parts); Txt "°"; Num (dms_minutes parts); Txt "'";
   Num (dms_seconds parts); Txt double_quote; Txt (dms_direction parts)].

Definition fromDMS (degrees minutes seconds : number) (direction : string)
  : number :=
  let decimal := degrees + minutes / 60 + seconds / 3600 in
  if (direction =? "S")%string || (direction =? "W")%string then - decimal
  else decimal.
End GISCalculations.

(** The spec's wording of the polygon sum: the vertex list is closed by
    pairing every vertex with its successor and the last vertex with the
    first, and the terms
    [(lng[j] - lng[i]) * (2 + sin lat[i] + sin lat[j])] are added up. *)
Module PolygonSpec.
Import GISCalculations.

Definition closed_pairs (coordinates : list Coordinates)
  : list (Coordinates * Coordinates) :=
  match coordinates with
  | [] => []
  | first :: rest => combine coordinates (rest ++ [first])
  end.

Definition term (p : Coordinates * Coordinates) : number :=
  (degreesToRadians (lng (snd p)) - degreesToRadians (lng (fst p))) *
  (2 + Math.sin (degreesToRadians (lat (fst p)))
     + Math.sin (degreesToRadians (lat (snd p)))).

Fixpoint total (terms : list number) : number :=
  match terms with
  | [] => 0
  | t :: rest => t + total rest
  end.

Definition closed_sum (coordinates : list Coordinates) : number :=
  total (map term (closed_pairs coordinates)).
End PolygonSpec.

(** The same terms along an open path, from the first point to the last. *)
Module PolygonPath.
End PolygonPath.

(** ** utils/gis-helpers.ts (legacy) *)

Module GISHelpers.
Definition degreesToRadians (degrees : number) : number :=
  degrees * (Math.PI / 180).

Definition validateCoordinates (lat lng : number) : Logged bool :=
  let isValidLat := num_ge lat (-90) && num_le lat 90 in
  let isValidLng := num_ge lng (-180) && num_le lng 180 in
  when (negb isValidLat)
    (tell (mkLog Console Warn
       [Txt "❌ Invalid latitude: "; Num lat; Txt " (must be -90 to 90)"])) ;;;
  when (negb isValidLng)
    (tell (mkLog Console Warn
       [Txt "❌ Invalid longitude: "; Num lng; Txt " (must be -180 to 180)"])) ;;;
  ret (isValidLat && isValidLng).

Definition calculateDistance (lat1 lng1 lat2 lng2 : number) : Logged number :=
  let R := 6371 in
  let dLat := degreesToRadians (lat2 - lat1) in
  let dLng := degreesToRadians (lng2 - lng1) in
  let a :=
    Math.sin (dLat / 2) * Math.sin (dLat / 2) +
    Math.cos (degreesToRadians lat1) *
      Math.cos (degreesToRadians lat2) *
      Math.sin (dLng / 2) *
      Math.sin (dLng / 2) in
  let c := 2 * Math.atan2 (Math.sqrt a) (Math.sqrt (1 - a)) in
  let distance := R * c in
  tell (mkLog Console Info
          [Txt "📏 Distance calculated: "; Fixed distance 2; Txt " km"]) ;;;
  ret distance.

Definition isPointInBounds (pointLat pointLng : number) (bounds : MapBounds)
  : bool :=
  num_le pointLat (north bounds) && num_ge pointLat (south bounds) &&
  num_le pointLng (east bounds) && num_ge pointLng (west bounds).

Definition calculateBearing (lat1 lng1 lat2 lng2 : number) : number :=
  let dLng := degreesToRadians (lng2 - lng1) in
  let lat1Rad := degreesToRadians lat1 in
  let lat2Rad := degreesToRadians lat2 in
  let y := Math.sin dLng * Math.cos lat2Rad in
  let x :=
    Math.cos lat1Rad * Math.sin lat2Rad -
    Math.sin lat1Rad * Math.cos lat2Rad * Math.cos dLng in
  let bearing := Math.atan2 y x in
  num_rem ((bearing * 180) / Math.PI + 360) 360.
End GISHelpers.

(** ** utils/gis-wait-strategies.ts

    [waitForCondition] runs against the outside world: the clock read by
    [Date.now()], whatever the predicate inspects, and the timer behind
    [page.waitForTimeout].  The world is a parameter [World]; every
    primitive is a function on it.  The promise of [page.waitForTimeout]
    resolves after the pause or rejects (a page that was closed); the
    logger has a level, which the call does not change. *)

Module GISWaitStrategies.

Record WaitOptions := mkOptions {
  timeout : option Z;
  interval : option Z;
  description : option string
}.

(** [options = {}] *)
Definition no_options : WaitOptions := mkOptions None None None.

(** A destructuring default, [{ field = fallback } = options]. *)
Definition default_to {A} (fallback : A) (field : option A) : A :=
  match field with Some value => value | None => fallback end.

(** How the promise returned by [condition()] settles. *)
Inductive Settled :=
| Fulfilled (value : bool)
| Rejected (error : Thrown).

(** How the promise returned by [page.waitForTimeout(interval)] settles. *)
Inductive Pause :=
| Elapsed
| Interrupted (error : Thrown).

(** What happened, in order; kept to count evaluations and to read the
    clock values the loop saw. *)
Inductive Event :=
| ClockRead (now : Z)
| Evaluated (outcome : Settled)
| LogLine (entry : LogEntry)
| Slept (ms : Z)
| PauseFailed (ms : Z) (error : Thrown).

(** How the call ends: it returns, it throws, or (in the model only) the
    bound on loop turns was reached while it was still polling. *)
Inductive Completion :=
| Returned
| Threw (error : Thrown)
| StillPolling.

(** [logger.debug(msg)]: the line is recorded when the logger's level lets
    debug lines through. *)
Definition debug (logLevel : Level) (msg : list Piece) : list Event :=
  if recorded logLevel Debug then [LogLine (mkLog Logger Debug msg)] else [].

(** [`${error}`], the conversion to text that builds the debug line of the
    [catch] block: it gives the text of the value, or throws. *)
Definition interpolated (error : Thrown) : Thrown + Piece :=
  match error with
  | ThrownSymbol _ =>
      inl (OtherError "TypeError: Cannot convert a Symbol value to a string")
  | _ => inr (Err error)
  end.

Definition is_evaluation (e : Event) : bool :=
  match e with Evaluated _ => true | _ => false end.

Definition evaluations (trace : list Event) : nat :=
  List.length (filter is_evaluation trace).

Definition clock_reads (trace : list Event) : list Z :=
  flat_map (fun e => match e with ClockRead t => [t] | _ => [] end) trace.

Definition is_log_line (e : Event) : bool :=
  match e with LogLine _ => true | _ => false end.

(** Every evaluation that threw a value with a text is followed at once by
    its debug line (when the logger records debug lines) and by the pause
    before the next turn; an evaluation that threw a value without a text
    is the last event. *)
Fixpoint exceptions_logged (logLevel : Level) (description : string)
    (interval : Z) (trace : list Event) : Prop :=
  match trace with
  | [] => True
  | Evaluated (Rejected error) :: rest =>
      match interpolated error with
      | inl _ => rest = []
      | inr text =>
          if recorded logLevel Debug then
            match rest with
            | line :: rest' =>
                line = LogLine (mkLog Logger Debug
                                  [Txt "Error checking "; Txt description;
                                   Txt ": "; text]) /\
                match rest' with
                | Slept ms :: rest'' =>
                    ms = interval /\
                    exceptions_logged logLevel description interval rest''
                | [PauseFailed ms _] => ms = interval
                | _ => False
                end
            | [] => False
            end
          else
            match rest with
            | Slept ms :: rest'' =>
                ms = interval /\
                exceptions_logged logLevel description interval rest''
            | [PauseFailed ms _] => ms = interval
            | _ => False
            end
      end
  | _ :: rest => exceptions_logged logLevel description interval rest
  end.

(** Why the call threw [error], as the last event of its trace tells: the
    clock showed that the time is used up, the pause failed, or the value
    the predicate threw has no text. *)
Definition thrown_because (startTime timeout interval : Z)
    (description : string) (last : Event) (error : Thrown) : Prop :=
  match last with
  | ClockRead now =>
      error = TimeoutError ("Waiting for " ++ description) timeout /\
      (timeout <= now - startTime)%Z
  | PauseFailed ms failure => ms = interval /\ error = failure
  | Evaluated (Rejected thrown) => interpolated thrown = inl error
  | _ => False
  end.

(** Every evaluation comes directly after a clock reading that is within
    the timeout. *)
Fixpoint each_evaluation_checked (startTime timeout : Z)
    (previous : option Event) (trace : list Event) : Prop :=
  match trace with
  | [] => True
  | e :: rest =>
      match e with
      | Evaluated _ =>
          match previous with
          | Some (ClockRead now) => (now - startTime < timeout)%Z
          | _ => False
          end
      | _ => True
      end /\
      each_evaluation_checked startTime timeout (Some e) rest
  end.

Section Poll.
Variable World : Type.
Variable Date_now : World -> Z * World.
Variable waitForTimeout : Z -> World -> Pause * World.
Variable logLevel : Level.

Definition Outcome : Type := (Completion * World * list Event)%type.

Definition after (events : list Event) (o : Outcome) : Outcome :=
  let '(c, w, trace) := o in (c, w, events ++ trace).

(** The [while] loop; [fuel] bounds the number of turns.  The pause at the
    end of a turn is outside the [try]: when it fails, the call throws what
    it failed with. *)
Fixpoint poll (condition : World -> Settled * World)
    (startTime timeout interval : Z) (description : string)
    (fuel : nat) (w : World) : Outcome :=
  match fuel with
  | O => (StillPolling, w, [])
  | S fuel' =>
      let pause (events : list Event) (w2 : World) : Outcome :=
        match waitForTimeout interval w2 with
        | (Elapsed, w3) =>
            after (events ++ [Slept interval])
              (poll condition startTime timeout interval description fuel' w3)
        | (Interrupted error, w3) =>
            (Threw error, w3, events ++ [PauseFailed interval error])
        end in
      let (now, w1) := Date_now w in
      if (now - startTime <? timeout)%Z then
        let (settled, w2) := condition w1 in
        match settled with
        | Fulfilled true =>
            (Returned, w2,
             [ClockRead now; Evaluated settled] ++
             debug logLevel [Txt description; Txt " met"])
        | Fulfilled false => pause [ClockRead now; Evaluated settled] w2
        | Rejected error =>
            match interpolated error with
            | inl raised => (Threw raised, w2, [ClockRead now; Evaluated settled])
            | inr text =>
                pause ([ClockRead now; Evaluated settled] ++
                       debug logLevel [Txt "Error checking "; Txt description;
                                       Txt ": "; text])
                      w2
            end
        end
      else
        (Threw (TimeoutError ("Waiting for " ++ description) timeout), w1,
         [ClockRead now])
  end.

Definition waitForCondition (condition : World -> Settled * World)
    (options : WaitOptions) (fuel : nat) (w : World) : Outcome :=
  let timeout := default_to 5000%Z (timeout options) in
  let interval := default_to 100%Z (interval options) in
  let description := default_to "condition"%string (description options) in
  let (startTime, w1) := Date_now w in
  after ([ClockRead startTime] ++
         debug logLevel [Txt "Waiting for "; Txt description; Txt "..."])
    (poll condition startTime timeout interval description fuel w1).
End Poll.

Definition completion {World} (o : Outcome World) : Completion := fst (fst o).
Definition final_world {World} (o : Outcome World) : World := snd (fst o).
Definition trace {World} (o : Outcome World) : list Event := snd o.

(** A predicate whose exceptions are replaced by the answer [false]. *)
Definition absorbed {World} (condition : World -> Settled * World)
  : World -> Settled * World :=
  fun w =>
    match condition w with
    | (Rejected _, w') => (Fulfilled false, w')
    | settled => settled
    end.

(** Every value the predicate throws has a text. *)
Definition throws_text {World} (condition : World -> Settled * World) : Prop :=
  forall w description, fst (condition w) <> Rejected (ThrownSymbol description).
End GISWaitStrategies.

(** A small world for running [waitForCondition]: a clock that advances only
    while the page timer runs, and a predicate that plays back a list of
    prepared outcomes (and answers [false] once the list is used up). *)
Module Scripted.
Import GISWaitStrategies.

Record World := mkWorld { clock : Z; script : list Settled }.

Definition Date_now (w : World) : Z * World := (clock w, w).

Definition waitForTimeout (ms : Z) (w : World) : Pause * World :=
  (Elapsed, mkWorld (clock w + ms) (script w)).

(** The timer of a page that has been closed. *)
Definition waitForTimeout_closed (ms : Z) (w : World) : Pause * World :=
  (Interrupted
     (OtherError
        "page.waitForTimeout: Target page, context or browser has been closed"),
   w).

Definition condition (w : World) : Settled * World :=
  match script w with
  | [] => (Fulfilled false, w)
  | outcome :: rest => (outcome, mkWorld (clock w) rest)
  end.

(** A run with the logger at its initial level. *)
Definition run (options : WaitOptions) (fuel : nat) (w : World)
  : Outcome World :=
  waitForCondition World Date_now waitForTimeout Info condition options fuel w.

(** [k] exceptions followed by [true]. *)
Definition throws_then_true (k : nat) : list Settled :=
  repeat (Rejected (OtherError "page not ready")) k ++ [Fulfilled true].

(** A predicate that throws every time. *)
Definition never_ready (w : World) : Settled * World :=
  (Rejected (OtherError "page not ready"), w).
End Scripted.

(** ** utils/gis-helpers.ts (legacy): [waitForCondition]

    The legacy loop has no [try]: what the predicate throws leaves the call.
    At the end of the time it throws a plain [Error]. *)

Module GISHelpersWait.
Import GISWaitStrategies.

Inductive Completion :=
| Returned
| Threw (error : Value)
| StillPolling.

Section Poll.
Variable World : Type.
Variable Date_now : World -> Z * World.
Variable waitForTimeout : Z -> World -> Pause * World.

Definition Outcome : Type := (Completion * World * list Event)%type.

Definition after (events : list Event) (o : Outcome) : Outcome :=
  let '(c, w, trace) := o in (c, w, events ++ trace).

(** [new Error(`Timeout waiting for ${description} after ${timeout}ms`)] *)
Definition timed_out (description : string) (timeout : Z) : Value :=
  VError [VText "Timeout waiting for "; VText description;
          VText " after "; VNumber (IZR timeout); VText "ms"].

Fixpoint poll (condition : World -> Settled * World)
    (startTime timeout interval : Z) (description : string)
    (fuel : nat) (w : World) : Outcome :=
  match fuel with
  | O => (StillPolling, w, [])
  | S fuel' =>
      let (now, w1) := Date_now w in
      if (now - startTime <? timeout)%Z then
        let (settled, w2) := condition w1 in
        match settled with
        | Fulfilled true =>
            (Returned, w2,
             [ClockRead now; Evaluated settled;
              LogLine (mkLog Console Info [Txt "✅ "; Txt description; Txt " met"])])
        | Fulfilled false =>
            match waitForTimeout interval w2 with
            | (Elapsed, w3) =>
                after [ClockRead now; Evaluated settled; Slept interval]
                  (poll condition startTime timeout interval description fuel' w3)
            | (Interrupted error, w3) =>
                (Threw (value_of_thrown error), w3,
                 [ClockRead now; Evaluated settled; PauseFailed interval error])
            end
        | Rejected error =>
            (Threw (value_of_thrown error), w2, [ClockRead now; Evaluated settled])
        end
      else (Threw (timed_out description timeout), w1, [ClockRead now])
  end.

Definition waitForCondition (condition : World -> Settled * World)
    (options : WaitOptions) (fuel : nat) (w : World) : Outcome :=
  let timeout := default_to 5000%Z (timeout options) in
  let interval := default_to 100%Z (interval options) in
  let description := default_to "condition"%string (description options) in
  let (startTime, w1) := Date_now w in
  after [ClockRead startTime]
    (poll condition startTime timeout interval description fuel w1).
End Poll.

Definition completion {World} (o : Outcome World) : Completion := fst (fst o).
Definition final_world {World} (o : Outcome World) : World := snd (fst o).
Definition trace {World} (o : Outcome World) : list Event := snd o.

(** How the end of a legacy call reads as an end of the current one: both
    return, or both throw what the pause failed with, or the legacy one
    throws its plain [Error] where the current one throws its
    [TimeoutError]. *)
Definition same_ending (description : string) (timeout : Z)
    (legacy : Completion) (current : GISWaitStrategies.Completion) : Prop :=
  match legacy, current with
  | Returned, GISWaitStrategies.Returned => True
  | StillPolling, GISWaitStrategies.StillPolling => True
  | Threw thrown, GISWaitStrategies.Threw error =>
      (thrown = timed_out description timeout /\
       error = TimeoutError ("Waiting for " ++ description) timeout) \/
      thrown = value_of_thrown error
  | _, _ => False
  end.
End GISHelpersWait.

(** ** utils/errors.ts: [ErrorHandler]

    An operation is a function on the world that returns a value or throws.
    [pause] is [await new Promise(resolve => setTimeout(resolve, delay))]. *)

Module ErrorHandler.

Definition isRetryable (error : Value) : bool :=
  match error with
  | VTestError _ _ _ _ retryable => retryable
  | _ => false
  end.

Inductive Completion (T : Type) :=
| Returned (value : T)
| Threw (error : Value)
| StillRunning.
Arguments Returned {T} value.
Arguments Threw {T} error.
Arguments StillRunning {T}.

Inductive Event (T : Type) :=
| Attempted (outcome : Attempt T)
| Paused (delay : number).
Arguments Attempted {T} outcome.
Arguments Paused {T} delay.

Definition is_attempt {T} (e : Event T) : bool :=
  match e with Attempted _ => true | Paused _ => false end.

Definition attempts {T} (trace : list (Event T)) : nat :=
  length (filter is_attempt trace).

Definition pauses {T} (trace : list (Event T)) : list number :=
  flat_map (fun e => match e with Paused d => [d] | Attempted _ => [] end) trace.

Section Handler.
Variable World : Type.
Variable T : Type.
Variable pause : number -> World -> World.

Definition Operation : Type := World -> Attempt T * World.

Definition withErrorHandling (operation : Operation) (errorContext : string)
    (context : option (list (string * Value))) : Operation :=
  fun w =>
    match operation w with
    | (Return value, w') => (Return value, w')
    | (Throw error, w') =>
        if Errors.instanceof_TestError error then (Throw error, w')
        else
          (Throw (VTestError "TestError"
                    ([VText errorContext; VText ": "] ++
                     (if Errors.instanceof_Error error
                      then Errors.message_of error else [error]))
                    (Errors.spread context [("originalError"%string, error)])
                    (Some "WRAPPED_ERROR"%string) false),
           w')
    end.

Definition Outcome : Type := (Completion T * World * list (Event T))%type.

Definition after (events : list (Event T)) (o : Outcome) : Outcome :=
  let '(c, w, trace) := o in (c, w, events ++ trace).

(** The error thrown after the loop. *)
Definition exhausted (maxRetries : Z) (lastError : option Value) : Value :=
  VTestError "TestError"
    [VText "Operation failed after "; VNumber (IZR (maxRetries + 1));
     VText " attempts"]
    [("lastError"%string, or_default lastError VUndefined);
     ("maxRetries"%string, VNumber (IZR maxRetries))]
    (Some "MAX_RETRIES_EXCEEDED"%string) false.

(** The [for] loop of [withRetry]; [fuel] bounds the number of turns. *)
Fixpoint retry_loop (operation : Operation) (maxRetries : Z)
    (backoffFactor : number) (fuel : nat) (attempt : Z) (delay : number)
    (lastError : option Value) (w : World) : Outcome :=
  match fuel with
  | O => (StillRunning, w, [])
  | S fuel' =>
      if (attempt <=? maxRetries)%Z then
        match operation w with
        | (Return value, w') => (Returned value, w', [Attempted (Return value)])
        | (Throw error, w') =>
            let lastError :=
              if Errors.instanceof_Error error then error else VError [error] in
            if Errors.instanceof_TestError error && negb (isRetryable error) then
              (Threw error, w', [Attempted (Throw error)])
            else if (attempt =? maxRetries)%Z then
              (Threw (exhausted maxRetries (Some lastError)), w',
               [Attempted (Throw error)])
            else
              after [Attempted (Throw error); Paused delay]
                (retry_loop operation maxRetries backoffFactor fuel'
                   (attempt + 1) (delay * backoffFactor) (Some lastError)
                   (pause delay w'))
        end
      else (Threw (exhausted maxRetries lastError), w, [])
  end.

Definition withRetry (operation : Operation)
    (maxRetries : option Z) (initialDelay backoffFactor : option number)
    (fuel : nat) (w : World) : Outcome :=
  let maxRetries := or_default maxRetries 3%Z in
  let initialDelay := or_default initialDelay 1000 in
  let backoffFactor := or_default backoffFactor 2 in
  retry_loop operation maxRetries backoffFactor fuel 0 initialDelay None w.
End Handler.

Definition completion {World T} (o : Outcome World T) : Completion T := fst (fst o).
Definition final_world {World T} (o : Outcome World T) : World := snd (fst o).
Definition trace {World T} (o : Outcome World T) : list (Event T) := snd o.

(** The loop of [withRetry] goes on after [e]: it is not a [TestError] that
    refuses to be retried. *)
Definition goes_on (e : Value) : Prop :=
  Errors.instanceof_TestError e && negb (isRetryable e) = false.

(** The loop ends with this outcome of the operation. *)
Definition decisive {T} (outcome : Attempt T) : Prop :=
  match outcome with
  | Return _ => True
  | Throw e => Errors.instanceof_TestError e && negb (isRetryable e) = true
  end.

Definition ending {T} (outcome : Attempt T) : Completion T :=
  match outcome with
  | Return value => Returned value
  | Throw e => Threw e
  end.
End ErrorHandler.

(** A world for running [withRetry]: the operation plays back a list of
    prepared outcomes (and returns [fallback] once the list is used up);
    the world also records the pauses it went through. *)
Module ScriptedOperation.
Section Script.
Variable T : Type.
Variable fallback : T.

Record World := mkWorld { script : list (Attempt T); slept : list number }.

Definition pause (delay : number) (w : World) : World :=
  mkWorld (script w) (slept w ++ [delay]).

Definition operation (w : World) : Attempt T * World :=
  match script w with
  | [] => (Return fallback, w)
  | outcome :: rest => (outcome, mkWorld rest (slept w))
  end.
End Script.
End ScriptedOperation.

(** ** utils/gis-test-data.ts

    [generateRandomCoordinate] calls [Math.random()] twice; the two numbers
    it got are the arguments. *)

Module GISTestData.
Definition generateRandomCoordinate (random1 random2 : number) : Coordinates :=
  mkCoord ((random1 - 1 / 2) * 180) ((random2 - 1 / 2) * 360).
End GISTestData.

(** ** services/gis-test-service.ts *)

Module GISTestService.
Import GIS_CONFIG.PERFORMANCE_THRESHOLDS.

(** [operationTimes: Record<string, number>], as the list of its
    assignments, oldest first; the latest assignment to a key is the one
    read. *)
Definition Times : Type := list (string * Z).

Definition assign (key : string) (value : Z) (times : Times) : Times :=
  times ++ [(key, value)].

Fixpoint lookup (key : string) (times : Times) : option Z :=
  match times with
  | [] => None
  | (k, v) :: rest =>
      match lookup key rest with
      | Some later => Some later
      | None => if (k =? key)%string then Some v else None
      end
  end.

(** [operationTimes.key && operationTimes.key > limit]: a missing time and a
    time of 0 are falsy. *)
Definition exceeds (time : option Z) (limit : Z) : bool :=
  match time with
  | Some t => negb (t =? 0)%Z && (limit <? t)%Z
  | None => false
  end.

Definition checkPerformanceThresholds (operationTimes : Times) : bool :=
  if exceeds (lookup "mapLoad" operationTimes) MAP_LOAD_MAX_MS then false
  else if exceeds (lookup "zoomOperations" operationTimes) ZOOM_OPERATIONS_MAX_MS
  then false
  else if exceeds (lookup "layerSwitching" operationTimes) LAYER_SWITCH_MAX_MS
  then false
  else true.

(** What the page gave (or threw) at each of the six reads of
    [validateMapState], in the order they are made. *)
Record PageReads := mkReads {
  mapExists : Attempt bool;
  currentZoom : Attempt number;
  currentCenter : Attempt Coordinates;
  currentBounds : Attempt MapBounds;
  tileCount : Attempt Z;
  isAnimating : Attempt bool
}.

Record ValidationResult := mkResult {
  isValid : bool;
  errors : list (list Value);
  warnings : list (list Value)
}.

(** The [catch] block. *)
Definition caught (error : Value) (errors warnings : list (list Value))
  : ValidationResult :=
  mkResult false
    (errors ++ [VText "Validation error: " :: Errors.message_of error]) warnings.

Definition validateMapState (page : PageReads) : Logged ValidationResult :=
  let errors := [] in
  let warnings := [] in
  match mapExists page with
  | Throw error => ret (caught error errors warnings)
  | Return false =>
      ret (mkResult false (errors ++ [[VText "Map instance not found"]]) warnings)
  | Return true =>
  match currentZoom page with
  | Throw error => ret (caught error errors warnings)
  | Return zoom =>
  let errors :=
    if negb (GISValidations.validateZoomLevel zoom None None)
    then errors ++ [[VText "Invalid zoom level: "; VNumber zoom]] else errors in
  match currentCenter page with
  | Throw error => ret (caught error errors warnings)
  | Return center =>
  centerValid <- GISValidations.validateCoordinates (lat center) (lng center) ;;
  let errors :=
    if negb centerValid
    then errors ++ [[VText "Invalid center coordinates: "; VNumber (lat center);
                     VText ", "; VNumber (lng center)]]
    else errors in
  match currentBounds page with
  | Throw error => ret (caught error errors warnings)
  | Return bounds =>
  boundsValid <- GISValidations.validateBounds bounds ;;
  let errors :=
    if negb boundsValid then errors ++ [[VText "Invalid map bounds"]] else errors in
  match tileCount page with
  | Throw error => ret (caught error errors warnings)
  | Return tiles =>
  let warnings :=
    if (tiles =? 0)%Z
    then warnings ++ [[VText "No tiles found - map may not be fully loaded"]]
    else warnings in
  match isAnimating page with
  | Throw error => ret (caught error errors warnings)
  | Return animating =>
  let warnings :=
    if animating then warnings ++ [[VText "Map is currently animating"]]
    else warnings in
  ret (mkResult (length errors =? 0)%nat errors warnings)
  end end end end end end.
End GISTestService.

(** ** utils/gis-calculations.ts, on doubles

    Where the outcome hinges on rounding the code is read a second time
    with its numbers as IEEE-754 doubles: [+], [-], [*], [/], [Math.sqrt]
    and the comparisons are the operations of the standard, as the kernel's
    primitive floats compute them.  The language leaves [Math.sin],
    [Math.cos] and [Math.atan2] to the engine, so they are a parameter of
    the functions that call them.  Only the number returned is kept. *)

Module Double.
Import PrimFloat.

Abbreviation number := float.
Abbreviation NaN := nan.

Record MathLibrary := mkMath {
  sin : number -> number;
  cos : number -> number;
  atan2 : number -> number -> number
}.

(** [Math.PI], the double nearest to the number pi. *)
Definition PI : number := 0x1.921fb54442d18p+1%float.

Module GISCalculations.

Definition degreesToRadians (degrees : number) : number :=
  (degrees * (PI / 180))%float.

Definition calculateDistance (M : MathLibrary) (lat1 lng1 lat2 lng2 : number)
  : number :=
  let R := 6371%float in
  let dLat := degreesToRadians (lat2 - lat1)%float in
  let dLng := degreesToRadians (lng2 - lng1)%float in
  let a :=
    (sin M (dLat / 2) * sin M (dLat / 2) +
     cos M (degreesToRadians lat1) *
       cos M (degreesToRadians lat2) *
       sin M (dLng / 2) *
       sin M (dLng / 2))%float in
  let c := (2 * atan2 M (PrimFloat.sqrt a) (PrimFloat.sqrt (1 - a)))%float in
  let distance := (R * c)%float in
  distance.

Fixpoint while_above (fuel : nat) (lng : number) : option number :=
  match fuel with
  | O => None
  | S fuel' =>
      if (180 <? lng)%float then while_above fuel' (lng - 360)%float else Some lng
  end.

Fixpoint while_below (fuel : nat) (lng : number) : option number :=
  match fuel with
  | O => None
  | S fuel' =>
      if (lng <? -180)%float then while_below fuel' (lng + 360)%float
      else Some lng
  end.

Definition normalizeLongitude (fuel : nat) (lng : number) : option number :=
  match while_above fuel lng with
  | Some lng' => while_below fuel lng'
  | None => None
  end.
End GISCalculations.

(** The values [Math.sin] and [Math.cos] return, in V8 and in glibc alike,
    at the arguments that [calculateDistance(12, 0, -12, 180)] and
    [calculateDistance(-12, 180, 12, 0)] pass them: the sine and the cosine
    of 12 degrees and of a quarter turn.  [Math.atan2] of a [NaN] is [NaN]
    in every engine. *)
Definition twelve_degrees : number := 0x1.acee9f37bebd6p-3%float.
Definition sin_twelve_degrees : number := 0x1.a9cd9ac4258f6p-3%float.
Definition cos_twelve_degrees : number := 0x1.f4cfc327a008p-1%float.
Definition quarter_turn : number := 0x1.921fb54442d18p+0%float.

Definition agrees_at_twelve_degrees (M : MathLibrary) : Prop :=
  sin M twelve_degrees = sin_twelve_degrees /\
  sin M (- twelve_degrees)%float = (- sin_twelve_degrees)%float /\
  cos M twelve_degrees = cos_twelve_degrees /\
  cos M (- twelve_degrees)%float = cos_twelve_degrees /\
  sin M quarter_turn = 1%float /\
  sin M (- quarter_turn)%float = (-1)%float /\
  (forall y, atan2 M y NaN = NaN).

(** A library that has these values and is not defined further: it answers
    [NaN] everywhere else. *)
Definition sampled : MathLibrary :=
  mkMath
    (fun x =>
       if (x =? twelve_degrees)%float then sin_twelve_degrees
       else if (x =? - twelve_degrees)%float then (- sin_twelve_degrees)%float
       else if (x =? quarter_turn)%float then 1%float
       else if (x =? - quarter_turn)%float then (-1)%float
       else NaN)
    (fun x =>
       if (PrimFloat.abs x =? twelve_degrees)%float then cos_twelve_degrees
       else NaN)
    (fun y x => NaN).
End Double.

(** * Properties *)

(** ** Comparisons *)

Lemma num_le_true x y : num_le x y = true <-> x <= y.
Proof. unfold num_le; destruct (Rle_dec x y); split; intros; auto; discriminate. Qed.

Lemma num_lt_true x y : num_lt x y = true <-> x < y.
Proof. unfold num_lt; destruct (Rlt_dec x y); split; intros; auto; discriminate. Qed.

Lemma num_ge_true x y : num_ge x y = true <-> y <= x.
Proof. apply num_le_true. Qed.

Lemma num_gt_true x y : num_gt x y = true <-> y < x.
Proof. apply num_lt_true. Qed.

Lemma num_lt_false x y : num_lt x y = false <-> y <= x.
Proof.
  unfold num_lt; destruct (Rlt_dec x y); split; intros; auto; try discriminate; lra.
Qed.

Lemma num_gt_false x y : num_gt x y = false <-> x <= y.
Proof. apply num_lt_false. Qed.

(** ** Coordinate and bounds validation *)

Section ValidationFacts.
Import GISValidations.

Lemma validateCoordinates_result lat lng :
  result (validateCoordinates lat lng) =
  (num_ge lat (-90) && num_le lat 90) && (num_ge lng (-180) && num_le lng 180).
Proof.
  unfold validateCoordinates, result, bind, when, ret, tell.
  unfold GIS_CONFIG.COORDINATE_LIMITS.MIN_LATITUDE,
    GIS_CONFIG.COORDINATE_LIMITS.MAX_LATITUDE,
    GIS_CONFIG.COORDINATE_LIMITS.MIN_LONGITUDE,
    GIS_CONFIG.COORDINATE_LIMITS.MAX_LONGITUDE.
  destruct (num_ge lat (-90) && num_le lat 90);
    destruct (num_ge lng (-180) && num_le lng 180); reflexivity.
Qed.

Lemma validateCoordinates_iff lat lng :
  result (validateCoordinates lat lng) = true <->
  (-90 <= lat <= 90 /\ -180 <= lng <= 180).
Proof.
  rewrite validateCoordinates_result, !andb_true_iff,
    !num_ge_true, !num_le_true.
  tauto.
Qed.

Lemma validateBounds_result bounds :
  result (validateBounds bounds) =
  (num_gt (north bounds) (south bounds) && num_gt (east bounds) (west bounds)) &&
  (result (validateCoordinates (north bounds) (east bounds)) &&
   result (validateCoordinates (south bounds) (west bounds))).
Proof.
  unfold validateBounds, result, bind, ret.
  destruct (validateCoordinates (north bounds) (east bounds)) as [ne l1].
  destruct (validateCoordinates (south bounds) (west bounds)) as [sw l2].
  destruct ne; simpl; [reflexivity | now rewrite !andb_false_r].
Qed.
End ValidationFacts.

(** C3. [validateCoordinates lat lng] is a total function (it has no failing
    outcome) whose result is [true] exactly when [-90 <= lat <= 90] and
    [-180 <= lng <= 180]; the limits themselves are accepted,
    [validateCoordinates 90 180] is [true] and
    [validateCoordinates 90.0001 0] is [false]. *)
Theorem validateCoordinates_spec :
  (forall lat lng : number,
      result (GISValidations.validateCoordinates lat lng) = true <->
      (-90 <= lat <= 90 /\ -180 <= lng <= 180)) /\
  (forall lat lng : number,
      (lat = 90 \/ lat = -90) -> (lng = 180 \/ lng = -180) ->
      result (GISValidations.validateCoordinates lat lng) = true) /\
  result (GISValidations.validateCoordinates 90 180) = true /\
  result (GISValidations.validateCoordinates (900001 / 10000) 0) = false.
Proof.
  split; [exact validateCoordinates_iff|].
  split.
  - intros lat lng Hlat Hlng. apply validateCoordinates_iff. lra.
  - split.
    + apply validateCoordinates_iff. lra.
    + apply not_true_is_false. rewrite validateCoordinates_iff. lra.
Qed.

Lemma validateCoordinates_spec_witness :
  result (GISValidations.validateCoordinates (-90) 180) = true.
Proof.
  apply (proj1 (proj2 validateCoordinates_spec) (-90) 180); [right | left];
    reflexivity.
Defined.

(** C9. [validateBounds bounds] is [true] exactly when [north > south] and
    [east > west], both strictly, and the corners [(north, east)] and
    [(south, west)] both pass [validateCoordinates]; the inverted box
    [{north: 10, south: 20, east: 10, west: 20}] is rejected. *)
Theorem validateBounds_spec :
  (forall bounds : MapBounds,
      result (GISValidations.validateBounds bounds) = true <->
      (north bounds > south bounds /\ east bounds > west bounds /\
       result (GISValidations.validateCoordinates (north bounds) (east bounds))
       = true /\
       result (GISValidations.validateCoordinates (south bounds) (west bounds))
       = true)) /\
  result (GISValidations.validateBounds (mkBounds 10 20 10 20)) = false.
Proof.
  split.
  - intros bounds.
    rewrite validateBounds_result, !andb_true_iff, !num_gt_true.
    unfold Rgt. tauto.
  - apply not_true_is_false.
    rewrite validateBounds_result, !andb_true_iff, !num_gt_true. simpl.
    lra.
Qed.

Lemma validateBounds_spec_witness :
  result (GISValidations.validateBounds (mkBounds 20 10 20 10)) = true.
Proof.
  apply (proj1 validateBounds_spec (mkBounds 20 10 20 10)). simpl.
  repeat split; try lra; apply validateCoordinates_iff; lra.
Defined.

(** C10. The legacy helpers return what the current utilities return:
    [GISHelpers.validateCoordinates] gives the same boolean as
    [GISValidations.validateCoordinates], and [GISHelpers.calculateDistance]
    the same number as [GISCalculations.calculateDistance], on every input.
    (They differ in what they log: the legacy ones write to the console.) *)
Theorem legacy_helpers_agree :
  (forall lat lng : number,
      result (GISHelpers.validateCoordinates lat lng) =
      result (GISValidations.validateCoordinates lat lng)) /\
  (forall lat1 lng1 lat2 lng2 : number,
      result (GISHelpers.calculateDistance lat1 lng1 lat2 lng2) =
      GISCalculations.calculateDistance lat1 lng1 lat2 lng2).
Proof.
  split.
  - intros lat lng. rewrite validateCoordinates_result.
    unfold GISHelpers.validateCoordinates, result, bind, when, ret, tell.
    destruct (num_ge lat (-90) && num_le lat 90);
      destruct (num_ge lng (-180) && num_le lng 180); reflexivity.
  - intros lat1 lng1 lat2 lng2.
    unfold GISHelpers.calculateDistance, GISCalculations.calculateDistance,
      GISHelpers.degreesToRadians, GISCalculations.degreesToRadians,
      GIS_CONFIG.EARTH_RADIUS_KM, result, bind, ret, tell.
    reflexivity.
Qed.

(** ** Polygon area *)

Section PolygonFacts.
Import GISCalculations PolygonSpec.

Lemma fold_area_total (g : nat -> number) (indices : list nat) (area : number) :
  fold_left (fun a i => a + g i) indices area = area + total (map g indices).
Proof.
  revert area; induction indices as [|i indices IH]; intros area; simpl.
  - lra.
  - rewrite IH. lra.
Qed.

Lemma map_nth_combine {A B C} (h : A -> B -> C) (da : A) (db : B) (l1 : list A) :
  forall l2 : list B, length l1 = length l2 ->
    map (fun i => h (nth i l1 da) (nth i l2 db)) (seq 0 (length l1)) =
    map (fun p => h (fst p) (snd p)) (combine l1 l2).
Proof.
  induction l1 as [|a l1 IH]; intros [|b l2] Hlen; simpl in *; try discriminate;
    try reflexivity.
  f_equal. rewrite <- seq_shift, map_map. apply IH. congruence.
Qed.

(** The successor index [(i + 1) % length] reads the rotated list. *)
Lemma successor_index first rest i :
  (i < length (first :: rest))%nat ->
  at_index (first :: rest) ((i + 1) mod length (first :: rest)) =
  nth i (rest ++ [first]) (mkCoord 0 0).
Proof.
  unfold at_index. simpl length. intros Hi.
  destruct (Nat.eq_dec (i + 1) (S (length rest))) as [Hlast | Hinner].
  - rewrite Hlast, Nat.Div0.mod_same. simpl.
    rewrite app_nth2 by lia.
    replace (i - length rest)%nat with 0%nat by lia. reflexivity.
  - rewrite Nat.mod_small by lia.
    replace (i + 1)%nat with (S i) by lia. simpl.
    rewrite app_nth1 by lia. reflexivity.
Qed.

Lemma loop_reads_rotation first rest indices :
  forall area,
    (forall i, In i indices -> (i < length (first :: rest))%nat) ->
    fold_left (area_step (first :: rest)) indices area =
    fold_left
      (fun a i => a + term (nth i (first :: rest) (mkCoord 0 0),
                            nth i (rest ++ [first]) (mkCoord 0 0)))
      indices area.
Proof.
  induction indices as [|i indices IH]; intros area Hin; [reflexivity|].
  cbn [fold_left]. rewrite IH by (intros; apply Hin; now right).
  f_equal. unfold area_step, term. cbn [fst snd].
  rewrite (successor_index first rest i) by (apply Hin; now left).
  reflexivity.
Qed.

Lemma loop_is_closed_sum coordinates :
  fold_left (area_step coordinates) (seq 0 (length coordinates)) 0 =
  closed_sum coordinates.
Proof.
  destruct coordinates as [|first rest]; [reflexivity|].
  unfold closed_sum, closed_pairs.
  rewrite loop_reads_rotation
    by (intros i Hi; apply in_seq in Hi; lia).
  rewrite fold_area_total, Rplus_0_l.
  rewrite (map_nth_combine (fun p q => term (p, q)) (mkCoord 0 0) (mkCoord 0 0)
             (first :: rest) (rest ++ [first])).
  - apply f_equal, map_ext. intros [p q]. reflexivity.
  - rewrite length_app. simpl. lia.
Qed.

Lemma every_index_in_range (coordinates : list Coordinates) i :
  In i (seq 0 (length coordinates)) ->
  (i < length coordinates)%nat /\
  ((i + 1) mod length coordinates < length coordinates)%nat.
Proof.
  intros Hi. apply in_seq in Hi. split; [lia|].
  apply Nat.mod_upper_bound. lia.
Qed.
End PolygonFacts.

(** C7. [calculatePolygonArea] returns 0 for every list of fewer than three
    points, the empty list and every two-point list among them; for three or
    more points it is [|S| * R * R / 2], where [S] adds the term of every
    pair of consecutive vertices and of the pair (last, first). *)
Theorem calculatePolygonArea_spec :
  (forall coordinates : list Coordinates,
      (length coordinates < 3)%nat ->
      GISCalculations.calculatePolygonArea coordinates = 0) /\
  GISCalculations.calculatePolygonArea [] = 0 /\
  (forall p q : Coordinates, GISCalculations.calculatePolygonArea [p; q] = 0) /\
  (forall coordinates : list Coordinates,
      (3 <= length coordinates)%nat ->
      GISCalculations.calculatePolygonArea coordinates =
      Rabs (PolygonSpec.closed_sum coordinates) *
      GIS_CONFIG.EARTH_RADIUS_KM * GIS_CONFIG.EARTH_RADIUS_KM / 2).
Proof.
  unfold GISCalculations.calculatePolygonArea.
  repeat split.
  - intros coordinates Hlen.
    apply Nat.ltb_lt in Hlen. now rewrite Hlen.
  - intros coordinates Hlen.
    apply Nat.ltb_ge in Hlen. rewrite Hlen.
    now rewrite loop_is_closed_sum.
Qed.

Lemma calculatePolygonArea_spec_witness :
  GISCalculations.calculatePolygonArea [mkCoord 1 2] = 0 /\
  GISCalculations.calculatePolygonArea [mkCoord 0 0; mkCoord 0 1; mkCoord 1 1] =
  Rabs (PolygonSpec.closed_sum [mkCoord 0 0; mkCoord 0 1; mkCoord 1 1]) *
  GIS_CONFIG.EARTH_RADIUS_KM * GIS_CONFIG.EARTH_RADIUS_KM / 2.
Proof.
  split.
  - apply (proj1 calculatePolygonArea_spec [mkCoord 1 2]). simpl. lia.
  - apply (proj2 (proj2 (proj2 calculatePolygonArea_spec))). simpl. lia.
Defined.

(** ** Normalisation *)

Section NormalizeFacts.
Import GISCalculations.

Lemma while_above_more_fuel fuel :
  forall lng r fuel', while_above fuel lng = Some r -> (fuel <= fuel')%nat ->
                      while_above fuel' lng = Some r.
Proof.
  induction fuel as [|fuel IH]; intros lng r fuel' Hrun Hle; [discriminate|].
  destruct fuel' as [|fuel']; [lia|]. cbn [while_above] in *.
  destruct (num_gt lng 180); [|assumption].
  apply IH; [assumption | lia].
Qed.

Lemma while_below_more_fuel fuel :
  forall lng r fuel', while_below fuel lng = Some r -> (fuel <= fuel')%nat ->
                      while_below fuel' lng = Some r.
Proof.
  induction fuel as [|fuel IH]; intros lng r fuel' Hrun Hle; [discriminate|].
  destruct fuel' as [|fuel']; [lia|]. cbn [while_below] in *.
  destruct (num_lt lng (-180)); [|assumption].
  apply IH; [assumption | lia].
Qed.

(** The first loop ends after at most [n] subtractions when
    [lng <= 180 + 360 * n]. *)
Lemma while_above_result (n : nat) :
  forall lng : number,
    lng <= 180 + 360 * INR n ->
    exists (r : number) (k : nat),
      while_above (S n) lng = Some r /\ r = lng - 360 * INR k /\
      r <= 180 /\ (180 < lng -> -180 < r) /\ (lng <= 180 -> r = lng).
Proof.
  induction n as [|n IH]; intros lng Hle.
  - simpl in Hle. cbn [while_above].
    assert (Hgt : num_gt lng 180 = false) by (apply num_gt_false; lra).
    rewrite Hgt. exists lng, 0%nat. simpl. repeat split; lra.
  - cbn [while_above]. fold (while_above (S n)).
    destruct (num_gt lng 180) eqn:Hgt.
    + apply num_gt_true in Hgt.
      rewrite S_INR in Hle.
      destruct (IH (lng - 360)) as (r & k & Hrun & Hr & Hup & Hlow & Hsame);
        [lra |].
      exists r, (S k). rewrite S_INR.
      destruct (Rle_dec (lng - 360) 180) as [Hin | Hout].
      * rewrite (Hsame Hin) in *. repeat split; try lra; assumption.
      * apply Rnot_le_lt, Hlow in Hout. repeat split; try lra; assumption.
    + apply num_gt_false in Hgt.
      exists lng, 0%nat. simpl. repeat split; lra.
Qed.

(** The second loop ends after at most [n] additions when
    [-180 - 360 * n <= lng]. *)
Lemma while_below_result (n : nat) :
  forall lng : number,
    -180 - 360 * INR n <= lng ->
    exists (r : number) (k : nat),
      while_below (S n) lng = Some r /\ r = lng + 360 * INR k /\
      -180 <= r /\ (lng < -180 -> r < 180) /\ (-180 <= lng -> r = lng).
Proof.
  induction n as [|n IH]; intros lng Hle.
  - simpl in Hle. cbn [while_below].
    assert (Hlt : num_lt lng (-180) = false) by (apply num_lt_false; lra).
    rewrite Hlt. exists lng, 0%nat. simpl. repeat split; lra.
  - cbn [while_below]. fold (while_below (S n)).
    destruct (num_lt lng (-180)) eqn:Hlt.
    + apply num_lt_true in Hlt.
      rewrite S_INR in Hle.
      destruct (IH (lng + 360)) as (r & k & Hrun & Hr & Hlow & Hup & Hsame);
        [lra |].
      exists r, (S k). rewrite S_INR.
      destruct (Rle_dec (-180) (lng + 360)) as [Hin | Hout].
      * rewrite (Hsame Hin) in *. repeat split; try lra; assumption.
      * apply Rnot_le_lt, Hup in Hout. repeat split; try lra; assumption.
    + apply num_lt_false in Hlt.
      exists lng, 0%nat. simpl. repeat split; lra.
Qed.

Lemma normalizeLatitude_clamps (lat : number) :
  -90 <= normalizeLatitude lat <= 90 /\
  (-90 <= lat <= 90 -> normalizeLatitude lat = lat) /\
  (90 < lat -> normalizeLatitude lat = 90) /\
  (lat < -90 -> normalizeLatitude lat = -90).
Proof.
  unfold normalizeLatitude, Rmax, Rmin.
  destruct (Rle_dec 90 lat); destruct (Rle_dec (-90) 90);
    try destruct (Rle_dec (-90) lat); repeat split; intros; lra.
Qed.
End NormalizeFacts.

Section DoubleNormalizeFacts.
Import PrimFloat.

(** C8, on the code's doubles.  The examples of the claim come out as it
    says: 200 is folded to -160 and -200 to 160.  But a double as large as
    1e20 is not changed by subtracting 360 (the spacing of the doubles near
    1e20 is 16384), so the first loop of [normalizeLongitude] tests the
    same value for ever and the call does not return, whatever the number
    of turns it is given; the second loop does the same on -1e20. *)
Theorem normalizeLongitude_never_returns :
  (1e20 - 360 = 1e20)%float /\
  (forall fuel : nat, Double.GISCalculations.normalizeLongitude fuel 1e20 = None) /\
  (forall fuel : nat,
      Double.GISCalculations.normalizeLongitude fuel (-1e20) = None) /\
  Double.GISCalculations.normalizeLongitude 2 200 = Some (-160)%float /\
  Double.GISCalculations.normalizeLongitude 2 (-200) = Some 160%float.
Proof.
  split; [reflexivity|].
  assert (Habove : forall fuel, Double.GISCalculations.while_above fuel 1e20 = None).
  { induction fuel as [|fuel IH]; [reflexivity|].
    cbn [Double.GISCalculations.while_above].
    change (180 <? 1e20)%float with true. cbv iota.
    change (1e20 - 360)%float with 1e20%float. exact IH. }
  assert (Hbelow : forall fuel,
             Double.GISCalculations.while_below fuel (-1e20) = None).
  { induction fuel as [|fuel IH]; [reflexivity|].
    cbn [Double.GISCalculations.while_below].
    change (-1e20 <? -180)%float with true. cbv iota.
    change (-1e20 + 360)%float with (-1e20)%float. exact IH. }
  split; [|split; [|split; reflexivity]].
  - intros fuel. unfold Double.GISCalculations.normalizeLongitude.
    now rewrite Habove.
  - intros fuel. unfold Double.GISCalculations.normalizeLongitude.
    destruct fuel as [|fuel]; [reflexivity|].
    cbn [Double.GISCalculations.while_above].
    change (180 <? -1e20)%float with false. cbv iota. apply Hbelow.
Qed.
End DoubleNormalizeFacts.

(** ** The built-in functions *)

Section MathFacts.

Lemma atan2_bound (y x : R) : - PI < Math.atan2 y x <= PI.
Proof.
  pose proof PI_RGT_0 as Hpi.
  pose proof (atan_bound (y / x)) as Hatan.
  unfold Math.atan2.
  destruct (Rlt_dec 0 x) as [Hx | Hx]; [lra|].
  destruct (Rlt_dec x 0) as [Hx' | Hx'].
  - destruct (Rle_dec 0 y) as [Hy | Hy].
    + assert (y / x <= 0).
      { unfold Rdiv. apply Rinv_lt_0_compat in Hx'. nra. }
      assert (atan (y / x) <= 0).
      { destruct (Req_dec (y / x) 0) as [-> | Hne].
        - rewrite atan_0. lra.
        - rewrite <- atan_0. apply Rlt_le, atan_increasing. lra. }
      lra.
    + assert (0 < y / x).
      { unfold Rdiv. apply Rinv_lt_0_compat in Hx'. nra. }
      assert (0 < atan (y / x)) by (rewrite <- atan_0; now apply atan_increasing).
      lra.
  - destruct (Rlt_dec 0 y); [lra|]. destruct (Rlt_dec y 0); lra.
Qed.

(** A point of the upper half plane has its angle strictly between 0 and
    [PI]. *)
Lemma atan2_upper (y x : R) : 0 < y -> 0 < Math.atan2 y x < PI.
Proof.
  intros Hy.
  pose proof PI_RGT_0 as Hpi.
  pose proof (atan_bound (y / x)) as Hatan.
  unfold Math.atan2.
  destruct (Rlt_dec 0 x) as [Hx | Hx].
  - assert (0 < y / x) by (apply Rdiv_lt_0_compat; assumption).
    assert (0 < atan (y / x)) by (rewrite <- atan_0; now apply atan_increasing).
    lra.
  - destruct (Rlt_dec x 0) as [Hx' | Hx'].
    + destruct (Rle_dec 0 y); [|lra].
      assert (y / x < 0).
      { unfold Rdiv. apply Rinv_lt_0_compat in Hx'. nra. }
      assert (atan (y / x) < 0) by (rewrite <- atan_0; now apply atan_increasing).
      lra.
    + destruct (Rlt_dec 0 y); lra.
Qed.

Lemma truncate_nonneg (x : R) : 0 <= x -> truncate x = Int_part x.
Proof. intros Hx. unfold truncate. destruct (Rle_dec 0 x); [reflexivity | lra]. Qed.

(** The remainder of a non-negative number by a positive one. *)
Lemma num_rem_range (x y : R) :
  0 <= x -> 0 < y -> 0 <= num_rem x y < y.
Proof.
  intros Hx Hy. unfold num_rem.
  assert (Hq : 0 <= x / y) by (apply Rle_mult_inv_pos; assumption).
  rewrite (truncate_nonneg _ Hq).
  destruct (base_Int_part (x / y)) as [Hlo Hhi].
  assert (Hxy : x = y * (x / y)) by (field; lra).
  split.
  - apply Rmult_le_compat_l with (r := y) in Hlo; lra.
  - assert (y * (x / y - 1) < y * IZR (Int_part (x / y)))
      by (apply Rmult_lt_compat_l; lra).
    lra.
Qed.

Lemma num_rem_small (x y : R) : 0 <= x < y -> num_rem x y = x.
Proof.
  intros [Hx Hy]. unfold num_rem.
  assert (Hq : 0 <= x / y) by (apply Rle_mult_inv_pos; lra).
  rewrite (truncate_nonneg _ Hq).
  rewrite <- (Int_part_spec (x / y) 0); [simpl; lra|].
  split; [|simpl; assumption].
  assert (x / y < 1); [|simpl; lra].
  apply Rmult_lt_reg_r with (r := y); [lra|].
  unfold Rdiv. rewrite Rmult_assoc, Rinv_l; lra.
Qed.

Lemma num_rem_once (x y : R) : y <= x < 2 * y -> 0 < y -> num_rem x y = x - y.
Proof.
  intros [Hx Hy] Hpos. unfold num_rem.
  assert (Hq : 0 <= x / y) by (apply Rle_mult_inv_pos; lra).
  rewrite (truncate_nonneg _ Hq).
  rewrite <- (Int_part_spec (x / y) 1); [simpl; lra|].
  assert (1 <= x / y).
  { apply Rmult_le_reg_r with (r := y); [lra|].
    unfold Rdiv. rewrite Rmult_assoc, Rinv_l; lra. }
  assert (x / y < 2).
  { apply Rmult_lt_reg_r with (r := y); [lra|].
    unfold Rdiv. rewrite Rmult_assoc, Rinv_l; lra. }
  simpl. lra.
Qed.
End MathFacts.

(** ** Distance and bearing *)

Section GeodesyFacts.
Import GISCalculations.

Lemma calculateDistance_same_point (lat lng : number) :
  calculateDistance lat lng lat lng = 0.
Proof.
  unfold calculateDistance, degreesToRadians.
  replace ((lat - lat) * (PI / 180) / 2) with 0 by lra.
  replace ((lng - lng) * (PI / 180) / 2) with 0 by lra.
  rewrite sin_0, !Rmult_0_r, Rplus_0_r, Rminus_0_r, sqrt_0, sqrt_1.
  unfold Math.atan2.
  destruct (Rlt_dec 0 1); [|lra].
  unfold Rdiv. rewrite Rmult_0_l, atan_0. lra.
Qed.

Lemma calculateDistance_symmetric (lat1 lng1 lat2 lng2 : number) :
  calculateDistance lat1 lng1 lat2 lng2 = calculateDistance lat2 lng2 lat1 lng1.
Proof.
  unfold calculateDistance, degreesToRadians.
  replace ((lat1 - lat2) * (PI / 180) / 2) with (- ((lat2 - lat1) * (PI / 180) / 2))
    by lra.
  replace ((lng1 - lng2) * (PI / 180) / 2) with (- ((lng2 - lng1) * (PI / 180) / 2))
    by lra.
  rewrite !sin_neg.
  set (s := sin ((lat2 - lat1) * (PI / 180) / 2)).
  set (t := sin ((lng2 - lng1) * (PI / 180) / 2)).
  set (c1 := cos (lat1 * (PI / 180))).
  set (c2 := cos (lat2 * (PI / 180))).
  replace (- s * - s + c2 * c1 * - t * - t) with (s * s + c1 * c2 * t * t) by ring.
  reflexivity.
Qed.

Lemma calculateBearing_range (lat1 lng1 lat2 lng2 : number) :
  0 <= calculateBearing lat1 lng1 lat2 lng2 < 360.
Proof.
  unfold calculateBearing.
  match goal with |- context [Math.atan2 ?y ?x] =>
    pose proof (atan2_bound y x) as Hb; set (bearing := Math.atan2 y x) in * end.
  pose proof PI_RGT_0 as Hpi.
  apply num_rem_range; [|lra].
  assert (-180 <= bearing * 180 / PI); [|lra].
  apply Rmult_le_reg_r with (r := PI); [lra|].
  unfold Rdiv. rewrite Rmult_assoc, Rinv_l; lra.
Qed.

(** San Francisco to New York. *)
Lemma calculateBearing_SF_NY :
  0 < calculateBearing (377749 / 10000) (-1224194 / 10000)
                       (407128 / 10000) (-74006 / 1000) < 360.
Proof.
  split; [|apply calculateBearing_range].
  unfold calculateBearing.
  pose proof PI_RGT_0 as Hpi.
  match goal with |- context [Math.atan2 ?y ?x] =>
    assert (Hy : 0 < y); [|pose proof (atan2_upper y x Hy) as Hb;
                            set (bearing := Math.atan2 y x) in *] end.
  { unfold degreesToRadians. apply Rmult_lt_0_compat.
    - apply sin_gt_0; lra.
    - apply cos_gt_0; lra. }
  assert (0 < bearing * 180 / PI < 180).
  { split.
    - apply Rdiv_lt_0_compat; lra.
    - apply Rmult_lt_reg_r with (r := PI); [lra|].
      unfold Rdiv. rewrite Rmult_assoc, Rinv_l; lra. }
  rewrite num_rem_once; lra.
Qed.
End GeodesyFacts.

Section DoubleDistanceFacts.
Import PrimFloat.

(** C4, on the code's doubles.  Over the reals the distance is symmetric and
    a point is at distance 0 from itself ([calculateDistance_symmetric],
    [calculateDistance_same_point]).  On doubles the haversine term of two
    antipodal points can round above 1: for (12, 0) and (-12, 180) it is
    [1 + 2^-52], the square root of [1 - a] is [NaN], and the distance is
    [NaN] in both directions, so that the two values are not within 1e-9
    of each other.  This holds with every [Math] library that has the
    usual sine and cosine of 12 degrees and of a quarter turn. *)
Theorem calculateDistance_antipodal_NaN (M : Double.MathLibrary) :
  Double.agrees_at_twelve_degrees M ->
  let there := Double.GISCalculations.calculateDistance M 12 0 (-12) 180 in
  let back := Double.GISCalculations.calculateDistance M (-12) 180 12 0 in
  there = nan /\ back = nan /\
  (abs (there - back) <=? 0x1.12e0be826d695p-30)%float = false.
Proof.
  intros (Hsin & Hsin' & Hcos & Hcos' & Hquarter & Hquarter' & Hnan). cbv zeta.
  assert (Hthere : Double.GISCalculations.calculateDistance M 12 0 (-12) 180 = nan).
  { unfold Double.GISCalculations.calculateDistance.
    change (Double.GISCalculations.degreesToRadians (-12 - 12) / 2)%float
      with (- Double.twelve_degrees)%float.
    change (Double.GISCalculations.degreesToRadians (180 - 0) / 2)%float
      with Double.quarter_turn.
    change (Double.GISCalculations.degreesToRadians 12)
      with Double.twelve_degrees.
    change (Double.GISCalculations.degreesToRadians (-12))
      with (- Double.twelve_degrees)%float.
    rewrite Hsin', Hcos, Hcos', Hquarter.
    change (sqrt (1 - (- Double.sin_twelve_degrees * - Double.sin_twelve_degrees +
                       Double.cos_twelve_degrees * Double.cos_twelve_degrees
                       * 1 * 1)))%float with nan.
    rewrite Hnan. reflexivity. }
  assert (Hback : Double.GISCalculations.calculateDistance M (-12) 180 12 0 = nan).
  { unfold Double.GISCalculations.calculateDistance.
    change (Double.GISCalculations.degreesToRadians (12 - -12) / 2)%float
      with Double.twelve_degrees.
    change (Double.GISCalculations.degreesToRadians (0 - 180) / 2)%float
      with (- Double.quarter_turn)%float.
    change (Double.GISCalculations.degreesToRadians 12)
      with Double.twelve_degrees.
    change (Double.GISCalculations.degreesToRadians (-12))
      with (- Double.twelve_degrees)%float.
    rewrite Hsin, Hcos, Hcos', Hquarter'.
    change (sqrt (1 - (Double.sin_twelve_degrees * Double.sin_twelve_degrees +
                       Double.cos_twelve_degrees * Double.cos_twelve_degrees
                       * -1 * -1)))%float with nan.
    rewrite Hnan. reflexivity. }
  rewrite Hthere, Hback. repeat split.
Qed.

Lemma calculateDistance_antipodal_NaN_witness :
  Double.GISCalculations.calculateDistance Double.sampled 12 0 (-12) 180 = nan /\
  Double.GISCalculations.calculateDistance Double.sampled (-12) 180 12 0 = nan.
Proof.
  destruct (calculateDistance_antipodal_NaN Double.sampled) as (Hthere & Hback & _).
  - repeat split.
  - split; [exact Hthere | exact Hback].
Defined.
End DoubleDistanceFacts.

(** C5. [calculateBearing] returns a value in [[0, 360)] for every pair of
    points; from (37.7749, -122.4194) to (40.7128, -74.0060) it is strictly
    between 0 and 360. *)
Theorem calculateBearing_spec :
  (forall lat1 lng1 lat2 lng2 : number,
      0 <= GISCalculations.calculateBearing lat1 lng1 lat2 lng2 < 360) /\
  0 < GISCalculations.calculateBearing (377749 / 10000) (-1224194 / 10000)
                                       (407128 / 10000) (-74006 / 1000) < 360.
Proof.
  split.
  - exact calculateBearing_range.
  - exact calculateBearing_SF_NY.
Qed.

(** ** The condition poller *)

Section TraceFacts.
Import GISWaitStrategies.

Lemma checked_app startTime timeout l1 :
  forall previous l2,
    each_evaluation_checked startTime timeout previous l1 ->
    (forall p, each_evaluation_checked startTime timeout p l2) ->
    each_evaluation_checked startTime timeout previous (l1 ++ l2).
Proof.
  induction l1 as [|e l1 IH]; intros previous l2 H1 H2; [apply H2|].
  destruct H1 as [He Hrest]. split; [exact He|]. now apply IH.
Qed.

Lemma checked_debug startTime timeout previous level msg :
  each_evaluation_checked startTime timeout previous (debug level msg).
Proof. unfold debug. destruct (recorded level Debug); cbn; tauto. Qed.

(** The events of a turn that is within the timeout, up to the pause. *)
Lemma checked_turn startTime timeout previous now settled logs :
  (now - startTime < timeout)%Z ->
  (forall p, each_evaluation_checked startTime timeout p logs) ->
  each_evaluation_checked startTime timeout previous
    ([ClockRead now; Evaluated settled] ++ logs).
Proof.
  intros Hcheck Hlogs. cbn. split; [exact I|]. split; [exact Hcheck|]. apply Hlogs.
Qed.

End TraceFacts.

Section PollFacts.
Import GISWaitStrategies.

Variable World : Type.
Variable Date_now : World -> Z * World.
Variable waitForTimeout : Z -> World -> Pause * World.
Variable logLevel : Level.

Local Abbreviation loop := (poll World Date_now waitForTimeout logLevel).

Lemma completion_after events (o : Outcome World) :
  completion (after World events o) = completion o.
Proof. destruct o as [[c w] t]. reflexivity. Qed.

Lemma final_world_after events (o : Outcome World) :
  final_world (after World events o) = final_world o.
Proof. destruct o as [[c w] t]. reflexivity. Qed.

Lemma trace_after events (o : Outcome World) :
  trace (after World events o) = events ++ trace o.
Proof. destruct o as [[c w] t]. reflexivity. Qed.

Lemma evaluations_app t1 t2 :
  evaluations (t1 ++ t2) = (evaluations t1 + evaluations t2)%nat.
Proof. unfold evaluations. now rewrite filter_app, length_app. Qed.

Lemma clock_reads_app t1 t2 :
  clock_reads (t1 ++ t2) = clock_reads t1 ++ clock_reads t2.
Proof. unfold clock_reads. apply flat_map_app. Qed.

Lemma evaluations_debug level msg : evaluations (debug level msg) = 0%nat.
Proof. unfold debug. now destruct (recorded level Debug). Qed.

Lemma clock_reads_debug level msg : clock_reads (debug level msg) = [].
Proof. unfold debug. now destruct (recorded level Debug). Qed.

(** One turn of the loop, case by case. *)
Lemma poll_turn condition startTime timeout interval description fuel w :
  loop condition startTime timeout interval description (S fuel) w =
  let pause events w2 :=
    match waitForTimeout interval w2 with
    | (Elapsed, w3) =>
        after World (events ++ [Slept interval])
          (loop condition startTime timeout interval description fuel w3)
    | (Interrupted error, w3) =>
        (Threw error, w3, events ++ [PauseFailed interval error])
    end in
  let (now, w1) := Date_now w in
  if (now - startTime <? timeout)%Z then
    let (settled, w2) := condition w1 in
    match settled with
    | Fulfilled true =>
        (Returned, w2,
         [ClockRead now; Evaluated settled] ++
         debug logLevel [Txt description; Txt " met"])
    | Fulfilled false => pause [ClockRead now; Evaluated settled] w2
    | Rejected error =>
        match interpolated error with
        | inl raised => (Threw raised, w2, [ClockRead now; Evaluated settled])
        | inr text =>
            pause ([ClockRead now; Evaluated settled] ++
                   debug logLevel [Txt "Error checking "; Txt description;
                                   Txt ": "; text])
                  w2
        end
    end
  else
    (Threw (TimeoutError ("Waiting for " ++ description) timeout), w1,
     [ClockRead now]).
Proof. reflexivity. Qed.

(** Whatever the loop throws is explained by the last event of its trace. *)
Lemma poll_threw condition startTime timeout interval description fuel :
  forall w error,
    completion (loop condition startTime timeout interval description fuel w)
    = Threw error ->
    exists earlier last,
      trace (loop condition startTime timeout interval description fuel w)
      = earlier ++ [last] /\
      thrown_because startTime timeout interval description last error.
Proof.
  induction fuel as [|fuel IH]; intros w error; [discriminate|].
  rewrite poll_turn. cbv zeta.
  destruct (Date_now w) as [now w1].
  destruct (now - startTime <? timeout)%Z eqn:Hcheck.
  - destruct (condition w1) as [[[|] | thrown] w2].
    + discriminate.
    + destruct (waitForTimeout interval w2) as [[|failure] w3].
      * rewrite completion_after, trace_after. intros Hthrew.
        destruct (IH _ _ Hthrew) as (earlier & last & Htrace & Hwhy).
        rewrite Htrace. eexists _, last.
        split; [apply app_assoc | exact Hwhy].
      * intros [= <-]. eexists [_; _], _. split; [reflexivity|]. now split.
    + destruct (interpolated thrown) as [raised|text] eqn:Htext.
      * intros [= <-]. eexists [_], _. split; [reflexivity|]. exact Htext.
      * destruct (waitForTimeout interval w2) as [[|failure] w3].
        -- rewrite completion_after, trace_after. intros Hthrew.
           destruct (IH _ _ Hthrew) as (earlier & last & Htrace & Hwhy).
           rewrite Htrace. eexists _, last.
           split; [apply app_assoc | exact Hwhy].
        -- intros [= <-]. eexists (_ ++ _), _. cbn [trace snd].
           split; [reflexivity|]. now split.
  - intros [= <-]. exists [], (ClockRead now). split; [reflexivity|].
    split; [reflexivity|]. apply Z.ltb_ge. assumption.
Qed.

(** With a pause that resolves and a predicate whose exceptions have a
    text, the loop throws nothing but its own [TimeoutError], and only
    right after a clock reading that shows the time is used up. *)
Lemma poll_threw_timeout condition startTime timeout interval description fuel :
  (forall ms w, fst (waitForTimeout ms w) = Elapsed) ->
  throws_text condition ->
  forall w error,
    completion (loop condition startTime timeout interval description fuel w)
    = Threw error ->
    error = TimeoutError ("Waiting for " ++ description) timeout /\
    exists earlier now,
      trace (loop condition startTime timeout interval description fuel w)
      = earlier ++ [ClockRead now] /\
      (timeout <= now - startTime)%Z.
Proof.
  intros Hpause Htext.
  induction fuel as [|fuel IH]; intros w error; [discriminate|].
  rewrite poll_turn. cbv zeta.
  destruct (Date_now w) as [now w1].
  destruct (now - startTime <? timeout)%Z eqn:Hcheck.
  - pose proof (Htext w1) as Hnone.
    destruct (condition w1) as [[[|] | thrown] w2]; cbn [fst] in Hnone.
    + discriminate.
    + pose proof (Hpause interval w2) as Hok.
      destruct (waitForTimeout interval w2) as [[|failure] w3];
        cbn [fst] in Hok; [|discriminate].
      rewrite completion_after, trace_after. intros Hthrew.
      destruct (IH _ _ Hthrew) as (-> & earlier & last & Htrace & Hlate).
      split; [reflexivity|].
      rewrite Htrace. eexists _, last.
      split; [apply app_assoc | assumption].
    + destruct thrown as [operation limit | what | symbol];
        [| | now destruct (Hnone symbol)]; cbn [interpolated];
        pose proof (Hpause interval w2) as Hok;
        (destruct (waitForTimeout interval w2) as [[|failure] w3];
         cbn [fst] in Hok; [|discriminate]);
        rewrite completion_after, trace_after; intros Hthrew;
        destruct (IH _ _ Hthrew) as (-> & earlier & last & Htrace & Hlate);
        (split; [reflexivity|]);
        rewrite Htrace; eexists _, last;
        (split; [apply app_assoc | assumption]).
  - intros [= <-]. split; [reflexivity|].
    exists [], now. split; [reflexivity|]. apply Z.ltb_ge. assumption.
Qed.

(** Every exception of the predicate is logged, as far as the logger
    records debug lines, and followed by the pause. *)
Lemma poll_logs_exceptions condition startTime timeout interval description fuel :
  forall w,
    exceptions_logged logLevel description interval
      (trace (loop condition startTime timeout interval description fuel w)).
Proof.
  induction fuel as [|fuel IH]; intros w; [exact I|].
  rewrite poll_turn. cbv zeta.
  destruct (Date_now w) as [now w1].
  destruct (now - startTime <? timeout)%Z; [|exact I].
  destruct (condition w1) as [[[|] | thrown] w2].
  - unfold debug. destruct (recorded logLevel Debug); exact I.
  - destruct (waitForTimeout interval w2) as [[|failure] w3];
      rewrite ?trace_after; [apply IH | exact I].
  - destruct thrown as [operation limit | what | symbol]; cbn [interpolated];
      try reflexivity;
      (destruct (waitForTimeout interval w2) as [[|failure] w3];
       rewrite ?trace_after; cbn [trace snd];
       unfold debug; cbn [app exceptions_logged interpolated];
       destruct (recorded logLevel Debug); cbn [app];
       repeat (split; try reflexivity); apply IH).
Qed.

(** An exception of the predicate that has a text leaves the loop in the
    state a [false] answer leaves it in. *)
Lemma poll_absorbs condition startTime timeout interval description fuel :
  throws_text condition ->
  forall w,
    let thrown := loop condition startTime timeout interval description fuel w in
    let quiet :=
      loop (absorbed condition) startTime timeout interval description fuel w in
    completion thrown = completion quiet /\
    final_world thrown = final_world quiet /\
    evaluations (trace thrown) = evaluations (trace quiet) /\
    clock_reads (trace thrown) = clock_reads (trace quiet).
Proof.
  intros Htext.
  induction fuel as [|fuel IH]; intros w; [now repeat split|].
  rewrite !poll_turn. cbv zeta.
  destruct (Date_now w) as [now w1].
  destruct (now - startTime <? timeout)%Z; [|now repeat split].
  pose proof (Htext w1) as Hnone.
  destruct (condition w1) as [[[|] | thrown] w2] eqn:Hcond; cbn [fst] in Hnone.
  - replace (absorbed condition w1) with (Fulfilled true, w2)
      by (unfold absorbed; now rewrite Hcond).
    now repeat split.
  - replace (absorbed condition w1) with (Fulfilled false, w2)
      by (unfold absorbed; now rewrite Hcond).
    destruct (waitForTimeout interval w2) as [[|failure] w3]; [|now repeat split].
    destruct (IH w3) as (Hc & Hw & He & Hr).
    rewrite !completion_after, !final_world_after, !trace_after,
      !evaluations_app, !clock_reads_app, Hc, Hw, He, Hr.
    now repeat split.
  - replace (absorbed condition w1) with (Fulfilled false, w2)
      by (unfold absorbed; now rewrite Hcond).
    destruct thrown as [operation limit | what | symbol];
      [| | now destruct (Hnone symbol)]; cbn [interpolated];
      (destruct (waitForTimeout interval w2) as [[|failure] w3];
       [ destruct (IH w3) as (Hc & Hw & He & Hr);
         rewrite !completion_after, !final_world_after, !trace_after,
           !evaluations_app, !clock_reads_app, ?evaluations_debug,
           ?clock_reads_debug, Hc, Hw, He, Hr;
         now repeat split
       | cbn [completion final_world trace fst snd];
         rewrite !evaluations_app, !clock_reads_app, ?evaluations_debug,
           ?clock_reads_debug;
         now repeat split ]).
Qed.

(** One turn of the loop on an exception with a text, with a pause that
    elapses: log, pause, go on. *)
Lemma poll_turn_rejected condition startTime timeout interval description fuel
      w now w1 error w2 w3 :
  Date_now w = (now, w1) -> (now - startTime < timeout)%Z ->
  condition w1 = (Rejected error, w2) ->
  interpolated error = inr (Err error) ->
  waitForTimeout interval w2 = (Elapsed, w3) ->
  loop condition startTime timeout interval description (S fuel) w =
  after World
    (([ClockRead now; Evaluated (Rejected error)] ++
      debug logLevel [Txt "Error checking "; Txt description; Txt ": "; Err error])
     ++ [Slept interval])
    (loop condition startTime timeout interval description fuel w3).
Proof.
  intros Hnow Hcheck Hcond Htext Hpause. rewrite poll_turn. cbv zeta.
  apply Z.ltb_lt in Hcheck. now rewrite Hnow, Hcheck, Hcond, Htext, Hpause.
Qed.

(** One turn of the loop on the answer [true]: log and return. *)
Lemma poll_turn_true condition startTime timeout interval description fuel
      w now w1 w2 :
  Date_now w = (now, w1) -> (now - startTime < timeout)%Z ->
  condition w1 = (Fulfilled true, w2) ->
  loop condition startTime timeout interval description (S fuel) w =
  (Returned, w2,
   [ClockRead now; Evaluated (Fulfilled true)] ++
   debug logLevel [Txt description; Txt " met"]).
Proof.
  intros Hnow Hcheck Hcond. rewrite poll_turn. cbv zeta.
  apply Z.ltb_lt in Hcheck. now rewrite Hnow, Hcheck, Hcond.
Qed.

(** A turn that is within the timeout evaluates the predicate. *)
Lemma poll_turn_evaluates condition startTime timeout interval description fuel w :
  (fst (Date_now w) - startTime < timeout)%Z ->
  (1 <= evaluations
          (trace (loop condition startTime timeout interval description
                    (S fuel) w)))%nat.
Proof.
  rewrite poll_turn. cbv zeta.
  destruct (Date_now w) as [now w1]. cbn [fst]. intros Hcheck.
  apply Z.ltb_lt in Hcheck. rewrite Hcheck.
  destruct (condition w1) as [[[|] | thrown] w2];
    [| destruct (waitForTimeout interval w2) as [[|failure] w3]
     | destruct (interpolated thrown);
       [| destruct (waitForTimeout interval w2) as [[|failure] w3]]];
    rewrite ?trace_after; cbn [trace snd];
    rewrite <- ?app_assoc; cbn [app];
    unfold evaluations; cbn [filter is_evaluation length]; lia.
Qed.

(** What the first turn of the loop does. *)
Lemma poll_first_turn condition startTime timeout interval description fuel w :
  let now := fst (Date_now w) in
  let w1 := snd (Date_now w) in
  let out := loop condition startTime timeout interval description (S fuel) w in
  ((now - startTime < timeout)%Z -> (1 <= evaluations (trace out))%nat) /\
  ((now - startTime < timeout)%Z -> fst (condition w1) = Fulfilled true ->
   completion out = Returned /\ evaluations (trace out) = 1%nat) /\
  ((timeout <= now - startTime)%Z ->
   completion out = Threw (TimeoutError ("Waiting for " ++ description) timeout) /\
   evaluations (trace out) = 0%nat).
Proof.
  cbv zeta. split; [apply poll_turn_evaluates|].
  rewrite poll_turn. cbv zeta.
  destruct (Date_now w) as [now w1]. cbn [fst snd].
  destruct (now - startTime <? timeout)%Z eqn:Hcheck.
  - apply Z.ltb_lt in Hcheck. split; [|lia].
    destruct (condition w1) as [settled w2]. cbn [fst]. intros _ ->.
    split; [reflexivity|]. cbn [trace snd].
    rewrite evaluations_app, evaluations_debug. reflexivity.
  - apply Z.ltb_ge in Hcheck. split; [lia|]. intros _. now split.
Qed.

(** The loop evaluates the predicate only directly after a clock reading
    that is within the timeout. *)
Lemma poll_checks_clock condition startTime timeout interval description fuel :
  forall w previous,
    each_evaluation_checked startTime timeout previous
      (trace (loop condition startTime timeout interval description fuel w)).
Proof.
  induction fuel as [|fuel IH]; intros w previous; [exact I|].
  rewrite poll_turn. cbv zeta.
  destruct (Date_now w) as [now w1].
  destruct (now - startTime <? timeout)%Z eqn:Hcheck; [|cbn; tauto].
  apply Z.ltb_lt in Hcheck.
  assert (Hnone : forall p, each_evaluation_checked startTime timeout p []) by (intros; exact I).
  assert (Hslept : forall p, each_evaluation_checked startTime timeout p [Slept interval])
    by (intros; cbn; tauto).
  assert (Hfailed : forall e p,
             each_evaluation_checked startTime timeout p [PauseFailed interval e])
    by (intros; cbn; tauto).
  destruct (condition w1) as [[[|] | thrown] w2].
  - apply checked_turn; [exact Hcheck|]. intros p. apply checked_debug.
  - destruct (waitForTimeout interval w2) as [[|failure] w3];
      rewrite ?trace_after; cbn [trace snd].
    + apply checked_app; [|intros p; apply IH].
      apply (checked_app _ _ [_; _]); [|exact Hslept].
      apply (checked_turn _ _ _ _ _ []); [exact Hcheck | exact Hnone].
    + apply (checked_app _ _ [_; _]); [|apply Hfailed].
      apply (checked_turn _ _ _ _ _ []); [exact Hcheck | exact Hnone].
  - destruct (interpolated thrown) as [raised|text].
    + apply (checked_turn _ _ _ _ _ []); [exact Hcheck | exact Hnone].
    + destruct (waitForTimeout interval w2) as [[|failure] w3];
        rewrite ?trace_after; cbn [trace snd].
      * apply checked_app; [|intros p; apply IH].
        apply checked_app; [|exact Hslept].
        apply checked_turn; [exact Hcheck|]. intros p. apply checked_debug.
      * apply checked_app; [|apply Hfailed].
        apply checked_turn; [exact Hcheck|]. intros p. apply checked_debug.
Qed.
End PollFacts.

Section ScriptedFacts.
Import GISWaitStrategies Scripted.

(** [k] exceptions, then [true]: the loop returns at evaluation [k + 1] as
    long as the clock reading before that evaluation is within the
    timeout. *)
Lemma scripted_poll_recovers (logLevel : Level) (k : nat) :
  forall (t startTime timeout interval : Z) (description : string) (fuel : nat),
    (0 <= interval)%Z ->
    (t + Z.of_nat k * interval - startTime < timeout)%Z ->
    (k < fuel)%nat ->
    let out :=
      poll World Date_now waitForTimeout logLevel condition
        startTime timeout interval description fuel
        (mkWorld t (throws_then_true k)) in
    completion out = Returned /\ evaluations (trace out) = S k.
Proof.
  induction k as [|k IH]; intros t startTime timeout interval description fuel
    Hinterval Hcheck Hfuel; (destruct fuel as [|fuel]; [lia|]); cbv zeta.
  - rewrite (poll_turn_true World Date_now waitForTimeout logLevel condition
               startTime timeout interval description fuel _ t
               (mkWorld t [Fulfilled true]) (mkWorld t []));
      [| reflexivity | lia | reflexivity].
    split; [reflexivity|]. cbn [trace snd].
    rewrite evaluations_app, evaluations_debug. reflexivity.
  - rewrite (poll_turn_rejected World Date_now waitForTimeout logLevel condition
               startTime timeout interval description fuel _ t
               (mkWorld t (throws_then_true (S k)))
               (OtherError "page not ready") (mkWorld t (throws_then_true k))
               (mkWorld (t + interval) (throws_then_true k)));
      [| reflexivity | lia | reflexivity | reflexivity | reflexivity].
    rewrite completion_after, trace_after.
    destruct (IH (t + interval)%Z startTime timeout interval description fuel)
      as [Hdone Hcount]; [lia | lia | lia |].
    split; [exact Hdone|].
    rewrite !evaluations_app, evaluations_debug.
    cbv zeta in Hcount. rewrite Hcount. reflexivity.
Qed.
End ScriptedFacts.

(** C1 fails as stated: with [timeout: 0] and a predicate that would answer
    [true], the loop test is false at once, the predicate is never called and
    the call throws [TimeoutError]. *)
Lemma waitForCondition_zero_timeout_counterexample :
  let out :=
    Scripted.run (GISWaitStrategies.mkOptions (Some 0%Z) None None) 1
      (Scripted.mkWorld 1000 [GISWaitStrategies.Fulfilled true]) in
  GISWaitStrategies.completion out =
    GISWaitStrategies.Threw (TimeoutError "Waiting for condition" 0) /\
  GISWaitStrategies.evaluations (GISWaitStrategies.trace out) = 0%nat.
Proof. split; reflexivity. Qed.

(** C1, as the code has it.  [waitForCondition] reads the clock before every
    evaluation and evaluates the predicate only while the elapsed time is
    below the timeout: in the trace of every run each evaluation comes
    directly after a clock reading that is less than [timeout] past the
    first one.  If the first reading of the loop is within the timeout the
    predicate is evaluated at least once, and a predicate that answers
    [true] on that attempt makes the call return after exactly one
    evaluation.  If that reading is not within the timeout -- which is so
    whenever the timeout is 0 and the clock has not run backwards -- the
    predicate is not evaluated and the call throws [TimeoutError]. *)
Theorem waitForCondition_checks_clock_first :
  forall (World : Type) (Date_now : World -> Z * World)
         (waitForTimeout : Z -> World -> GISWaitStrategies.Pause * World)
         (logLevel : Level)
         (condition : World -> GISWaitStrategies.Settled * World)
         (options : GISWaitStrategies.WaitOptions) (fuel : nat) (w : World),
    let timeout :=
      GISWaitStrategies.default_to 5000%Z (GISWaitStrategies.timeout options) in
    let description :=
      GISWaitStrategies.default_to "condition"%string
        (GISWaitStrategies.description options) in
    let startTime := fst (Date_now w) in
    let now := fst (Date_now (snd (Date_now w))) in
    let firstEvaluation := fst (condition (snd (Date_now (snd (Date_now w))))) in
    let out :=
      GISWaitStrategies.waitForCondition World Date_now waitForTimeout logLevel
        condition options (S fuel) w in
    let timedOut :=
      GISWaitStrategies.completion out =
        GISWaitStrategies.Threw
          (TimeoutError ("Waiting for " ++ description) timeout) /\
      GISWaitStrategies.evaluations (GISWaitStrategies.trace out) = 0%nat in
    (forall turns : nat,
        GISWaitStrategies.each_evaluation_checked startTime timeout None
          (GISWaitStrategies.trace
             (GISWaitStrategies.waitForCondition World Date_now waitForTimeout
                logLevel condition options turns w))) /\
    ((now - startTime < timeout)%Z ->
     (1 <= GISWaitStrategies.evaluations (GISWaitStrategies.trace out))%nat) /\
    ((now - startTime < timeout)%Z ->
     firstEvaluation = GISWaitStrategies.Fulfilled true ->
     GISWaitStrategies.completion out = GISWaitStrategies.Returned /\
     GISWaitStrategies.evaluations (GISWaitStrategies.trace out) = 1%nat) /\
    ((timeout <= now - startTime)%Z -> timedOut) /\
    (timeout = 0%Z -> (startTime <= now)%Z -> timedOut).
Proof.
  intros World Date_now waitForTimeout logLevel condition options fuel w. cbv zeta.
  unfold GISWaitStrategies.waitForCondition.
  destruct (Date_now w) as [startTime w1]. cbn [fst snd].
  split.
  { intros turns. rewrite trace_after.
    apply checked_app;
      [|intros p; apply (poll_checks_clock World Date_now waitForTimeout logLevel)].
    apply (checked_app _ _ [_]); [cbn; tauto|]. intros p. apply checked_debug. }
  rewrite completion_after, trace_after.
  pose proof (poll_first_turn World Date_now waitForTimeout logLevel condition
                startTime
                (GISWaitStrategies.default_to 5000%Z
                   (GISWaitStrategies.timeout options))
                (GISWaitStrategies.default_to 100%Z
                   (GISWaitStrategies.interval options))
                (GISWaitStrategies.default_to "condition"%string
                   (GISWaitStrategies.description options))
                fuel w1) as Hturn.
  cbv zeta in Hturn. destruct Hturn as (Hone & Htrue & Hlate).
  rewrite !evaluations_app, evaluations_debug.
  change (GISWaitStrategies.evaluations [GISWaitStrategies.ClockRead startTime])
    with 0%nat.
  cbn [Nat.add].
  repeat split; intros; try (apply Hone; assumption); try (apply Htrue; assumption);
    try (apply Hlate; lia).
Qed.

Lemma waitForCondition_checks_clock_first_witness :
  let out :=
    Scripted.run GISWaitStrategies.no_options 1
      (Scripted.mkWorld 1000 [GISWaitStrategies.Fulfilled true]) in
  GISWaitStrategies.completion out = GISWaitStrategies.Returned /\
  GISWaitStrategies.evaluations (GISWaitStrategies.trace out) = 1%nat.
Proof.
  apply (proj1 (proj2 (proj2 (waitForCondition_checks_clock_first
                         Scripted.World Scripted.Date_now Scripted.waitForTimeout
                         Info Scripted.condition GISWaitStrategies.no_options 0
                         (Scripted.mkWorld 1000 [GISWaitStrategies.Fulfilled true]))))).
  - reflexivity.
  - reflexivity.
Defined.

(** C2 fails as stated.  The pause at the end of a turn is awaited outside
    the [try]: on a page that has been closed the predicate answers [false]
    once, the pause fails, and the call throws what the pause failed with,
    not a [TimeoutError], with none of its 5000 ms used.  And with the
    logger at its initial level an exception of the predicate is caught but
    not logged: the call returns and its trace holds no log line. *)
Lemma waitForCondition_failed_pause_counterexample :
  let closed :=
    GISWaitStrategies.waitForCondition Scripted.World Scripted.Date_now
      Scripted.waitForTimeout_closed Info Scripted.condition
      GISWaitStrategies.no_options 2
      (Scripted.mkWorld 0
         [GISWaitStrategies.Fulfilled false; GISWaitStrategies.Fulfilled true]) in
  let silent :=
    Scripted.run GISWaitStrategies.no_options 2
      (Scripted.mkWorld 0 (Scripted.throws_then_true 1)) in
  GISWaitStrategies.completion closed =
    GISWaitStrategies.Threw
      (OtherError
         "page.waitForTimeout: Target page, context or browser has been closed") /\
  GISWaitStrategies.clock_reads (GISWaitStrategies.trace closed) = [0%Z; 0%Z] /\
  GISWaitStrategies.evaluations (GISWaitStrategies.trace closed) = 1%nat /\
  GISWaitStrategies.completion silent = GISWaitStrategies.Returned /\
  GISWaitStrategies.evaluations (GISWaitStrategies.trace silent) = 2%nat /\
  filter GISWaitStrategies.is_log_line (GISWaitStrategies.trace silent) = [].
Proof. repeat split. Qed.

(** C2, as the code has it.  Whatever [waitForCondition] throws is one of
    three things: its [TimeoutError], thrown right after a clock reading
    that is at least [timeout] past the start; what [page.waitForTimeout]
    failed with; or what the conversion to text threw for a value the
    predicate threw.  So with a pause that resolves and a predicate whose
    exceptions have a text the call throws nothing but its [TimeoutError],
    and only when the time is used up.  An exception of the predicate that
    has a text is caught and handed to [logger.debug], which records it
    only when the logger's level is [DEBUG], and the loop goes on as after
    the answer [false]: every such evaluation is followed by the pause, and
    the call ends the same way, in the same world, after the same
    evaluations and clock readings, as with the predicate whose exceptions
    are replaced by [false].  A predicate that throws [k] times and then
    answers [true] makes the call return at evaluation [k + 1], provided
    the pauses resolve and that evaluation is reached within the timeout. *)
Theorem waitForCondition_absorbs_predicate_errors :
  (forall (World : Type) (Date_now : World -> Z * World)
          (waitForTimeout : Z -> World -> GISWaitStrategies.Pause * World)
          (logLevel : Level)
          (condition : World -> GISWaitStrategies.Settled * World)
          (options : GISWaitStrategies.WaitOptions) (fuel : nat) (w : World)
          (error : Thrown),
      let out :=
        GISWaitStrategies.waitForCondition World Date_now waitForTimeout
          logLevel condition options fuel w in
      GISWaitStrategies.completion out = GISWaitStrategies.Threw error ->
      exists (startTime : Z) (polled : list GISWaitStrategies.Event)
             (last : GISWaitStrategies.Event),
        GISWaitStrategies.trace out =
          GISWaitStrategies.ClockRead startTime :: polled ++ [last] /\
        GISWaitStrategies.thrown_because startTime
          (GISWaitStrategies.default_to 5000%Z (GISWaitStrategies.timeout options))
          (GISWaitStrategies.default_to 100%Z (GISWaitStrategies.interval options))
          (GISWaitStrategies.default_to "condition"%string
             (GISWaitStrategies.description options))
          last error) /\
  (forall (World : Type) (Date_now : World -> Z * World)
          (waitForTimeout : Z -> World -> GISWaitStrategies.Pause * World)
          (logLevel : Level)
          (condition : World -> GISWaitStrategies.Settled * World)
          (options : GISWaitStrategies.WaitOptions) (fuel : nat) (w : World)
          (error : Thrown),
      let out :=
        GISWaitStrategies.waitForCondition World Date_now waitForTimeout
          logLevel condition options fuel w in
      let timeout :=
        GISWaitStrategies.default_to 5000%Z (GISWaitStrategies.timeout options) in
      (forall ms w, fst (waitForTimeout ms w) = GISWaitStrategies.Elapsed) ->
      GISWaitStrategies.throws_text condition ->
      GISWaitStrategies.completion out = GISWaitStrategies.Threw error ->
      error =
        TimeoutError
          ("Waiting for " ++
           GISWaitStrategies.default_to "condition"%string
             (GISWaitStrategies.description options))
          timeout /\
      exists (startTime : Z) (polled : list GISWaitStrategies.Event) (now : Z),
        GISWaitStrategies.trace out =
          GISWaitStrategies.ClockRead startTime ::
          polled ++ [GISWaitStrategies.ClockRead now] /\
        (timeout <= now - startTime)%Z) /\
  (forall (World : Type) (Date_now : World -> Z * World)
          (waitForTimeout : Z -> World -> GISWaitStrategies.Pause * World)
          (logLevel : Level)
          (condition : World -> GISWaitStrategies.Settled * World)
          (options : GISWaitStrategies.WaitOptions) (fuel : nat) (w : World),
      GISWaitStrategies.exceptions_logged logLevel
        (GISWaitStrategies.default_to "condition"%string
           (GISWaitStrategies.description options))
        (GISWaitStrategies.default_to 100%Z (GISWaitStrategies.interval options))
        (GISWaitStrategies.trace
           (GISWaitStrategies.waitForCondition World Date_now waitForTimeout
              logLevel condition options fuel w))) /\
  (forall (World : Type) (Date_now : World -> Z * World)
          (waitForTimeout : Z -> World -> GISWaitStrategies.Pause * World)
          (logLevel : Level)
          (condition : World -> GISWaitStrategies.Settled * World)
          (options : GISWaitStrategies.WaitOptions) (fuel : nat) (w : World),
      let thrown :=
        GISWaitStrategies.waitForCondition World Date_now waitForTimeout
          logLevel condition options fuel w in
      let quiet :=
        GISWaitStrategies.waitForCondition World Date_now waitForTimeout
          logLevel (GISWaitStrategies.absorbed condition) options fuel w in
      GISWaitStrategies.throws_text condition ->
      GISWaitStrategies.completion thrown = GISWaitStrategies.completion quiet /\
      GISWaitStrategies.final_world thrown = GISWaitStrategies.final_world quiet /\
      GISWaitStrategies.evaluations (GISWaitStrategies.trace thrown) =
        GISWaitStrategies.evaluations (GISWaitStrategies.trace quiet) /\
      GISWaitStrategies.clock_reads (GISWaitStrategies.trace thrown) =
        GISWaitStrategies.clock_reads (GISWaitStrategies.trace quiet)) /\
  (forall (logLevel : Level) (k : nat) (options : GISWaitStrategies.WaitOptions)
          (fuel : nat) (t : Z),
      let timeout :=
        GISWaitStrategies.default_to 5000%Z (GISWaitStrategies.timeout options) in
      let interval :=
        GISWaitStrategies.default_to 100%Z (GISWaitStrategies.interval options) in
      let out :=
        GISWaitStrategies.waitForCondition Scripted.World Scripted.Date_now
          Scripted.waitForTimeout logLevel Scripted.condition options fuel
          (Scripted.mkWorld t (Scripted.throws_then_true k)) in
      (0 <= interval)%Z -> (Z.of_nat k * interval < timeout)%Z -> (k < fuel)%nat ->
      GISWaitStrategies.completion out = GISWaitStrategies.Returned /\
      GISWaitStrategies.evaluations (GISWaitStrategies.trace out) = S k).
Proof.
  split; [|split; [|split; [|split]]].
  - intros World Date_now waitForTimeout logLevel condition options fuel w error.
    cbv zeta. unfold GISWaitStrategies.waitForCondition.
    destruct (Date_now w) as [startTime w1].
    rewrite completion_after, trace_after. intros Hthrew.
    apply poll_threw in Hthrew. destruct Hthrew as (earlier & last & -> & Hwhy).
    eexists startTime, (_ ++ earlier), last.
    split; [|exact Hwhy]. cbn [app]. now rewrite <- app_assoc.
  - intros World Date_now waitForTimeout logLevel condition options fuel w error.
    cbv zeta. unfold GISWaitStrategies.waitForCondition.
    destruct (Date_now w) as [startTime w1].
    rewrite completion_after, trace_after. intros Hpause Htext Hthrew.
    apply poll_threw_timeout in Hthrew; [|assumption|assumption].
    destruct Hthrew as (-> & earlier & now & -> & Hlate).
    split; [reflexivity|].
    eexists startTime, (_ ++ earlier), now.
    split; [|exact Hlate]. cbn [app]. now rewrite <- app_assoc.
  - intros World Date_now waitForTimeout logLevel condition options fuel w.
    unfold GISWaitStrategies.waitForCondition.
    destruct (Date_now w) as [startTime w1].
    rewrite trace_after. unfold GISWaitStrategies.debug at 1.
    destruct (recorded logLevel Debug);
      cbn [app GISWaitStrategies.exceptions_logged];
      apply poll_logs_exceptions.
  - intros World Date_now waitForTimeout logLevel condition options fuel w.
    cbv zeta. intros Htext.
    unfold GISWaitStrategies.waitForCondition.
    destruct (Date_now w) as [startTime w1].
    rewrite !completion_after, !final_world_after, !trace_after,
      !evaluations_app, !clock_reads_app.
    match goal with
    | |- context [GISWaitStrategies.poll _ _ _ _ condition ?s ?t ?i ?d ?f ?x] =>
        pose proof (poll_absorbs World Date_now waitForTimeout logLevel condition
                      s t i d f Htext x) as Habs
    end.
    cbv zeta in Habs. destruct Habs as (-> & -> & -> & ->). now repeat split.
  - intros logLevel k options fuel t. cbv zeta. intros Hinterval Hcheck Hfuel.
    unfold GISWaitStrategies.waitForCondition.
    cbn [Scripted.Date_now Scripted.clock].
    rewrite completion_after, trace_after, !evaluations_app, evaluations_debug.
    apply scripted_poll_recovers; [assumption | lia | assumption].
Qed.

Lemma waitForCondition_absorbs_predicate_errors_witness :
  let out :=
    GISWaitStrategies.waitForCondition Scripted.World Scripted.Date_now
      Scripted.waitForTimeout Debug Scripted.condition
      GISWaitStrategies.no_options 3
      (Scripted.mkWorld 0 (Scripted.throws_then_true 2)) in
  let late :=
    GISWaitStrategies.waitForCondition Scripted.World Scripted.Date_now
      Scripted.waitForTimeout Debug Scripted.never_ready
      (GISWaitStrategies.mkOptions (Some 150%Z) None None) 3
      (Scripted.mkWorld 0 []) in
  (GISWaitStrategies.completion out = GISWaitStrategies.Returned /\
   GISWaitStrategies.evaluations (GISWaitStrategies.trace out) = 3%nat) /\
  (forall error,
      GISWaitStrategies.completion late = GISWaitStrategies.Threw error ->
      error = TimeoutError "Waiting for condition" 150).
Proof.
  split.
  - apply (proj2 (proj2 (proj2 (proj2 waitForCondition_absorbs_predicate_errors)))
             Debug 2%nat GISWaitStrategies.no_options 3%nat 0%Z).
    + vm_compute. discriminate.
    + vm_compute. reflexivity.
    + lia.
  - intros error Hthrew.
    apply (proj1 (proj2 waitForCondition_absorbs_predicate_errors)
             Scripted.World Scripted.Date_now Scripted.waitForTimeout Debug
             Scripted.never_ready
             (GISWaitStrategies.mkOptions (Some 150%Z) None None) 3%nat
             (Scripted.mkWorld 0 []) error).
    + intros ms w. reflexivity.
    + intros w description. discriminate.
    + exact Hthrew.
Defined.

(** ** The angle function, in polar form *)

Section AngleFacts.




(** [atan2] recovers the angle of a point given in polar form. *)
Lemma atan2_polar (k t : R) :
  0 < k -> - PI < t <= PI -> Math.atan2 (k * sin t) (k * cos t) = t.
Proof.
  intros Hk [Hlo Hhi].
  pose proof PI_RGT_0 as Hpi.
  assert (Htan : cos t <> 0 -> k * sin t / (k * cos t) = tan t)
    by (intros Hc; unfold tan; field; lra).
  unfold Math.atan2.
  destruct (Rtotal_order t (- (PI / 2))) as [Hq3 | [Hm | Hgt]].
  - (* third quadrant: shift by +PI *)
    assert (Hc : cos t < 0).
    { rewrite <- (cos_period t 1). simpl INR. apply cos_lt_0; lra. }
    assert (Hs : sin t < 0).
    { rewrite <- (sin_period t 1). simpl INR. apply sin_lt_0; lra. }
    destruct (Rlt_dec 0 (k * cos t)); [nra|].
    destruct (Rlt_dec (k * cos t) 0); [|nra].
    destruct (Rle_dec 0 (k * sin t)); [nra|].
    rewrite Htan by lra.
    replace (tan t) with (tan (t + PI)).
    + rewrite atan_tan by lra. lra.
    + unfold tan. rewrite neg_sin, neg_cos. field. lra.
  - subst t. rewrite cos_neg, sin_neg, cos_PI2, sin_PI2.
    destruct (Rlt_dec 0 (k * 0)); [lra|].
    destruct (Rlt_dec (k * 0) 0); [lra|].
    destruct (Rlt_dec 0 (k * - (1))); [lra|].
    destruct (Rlt_dec (k * - (1)) 0); lra.
  - destruct (Rtotal_order t (PI / 2)) as [Hq14 | [Hm | Hq2]].
    + (* right half plane *)
      assert (Hc : 0 < cos t) by (apply cos_gt_0; lra).
      destruct (Rlt_dec 0 (k * cos t)); [|nra].
      rewrite Htan by lra. apply atan_tan. lra.
    + subst t. rewrite cos_PI2, sin_PI2.
      destruct (Rlt_dec 0 (k * 0)); [lra|].
      destruct (Rlt_dec (k * 0) 0); [lra|].
      destruct (Rlt_dec 0 (k * 1)); lra.
    + (* second quadrant: shift by -PI *)
      assert (Hc : cos t < 0) by (apply cos_lt_0; lra).
      assert (Hs : 0 <= sin t) by (apply sin_ge_0; lra).
      destruct (Rlt_dec 0 (k * cos t)); [nra|].
      destruct (Rlt_dec (k * cos t) 0); [|nra].
      destruct (Rle_dec 0 (k * sin t)); [|nra].
      rewrite Htan by lra.
      replace (tan t) with (tan (t - PI)).
      * rewrite atan_tan by lra. lra.
      * unfold tan.
        replace t with ((t - PI) + PI) at 3 4 by lra.
        rewrite neg_sin, neg_cos. field.
        intros Hz. replace t with ((t - PI) + PI) in Hc by lra.
        rewrite neg_cos in Hc. lra.
Qed.
End AngleFacts.

(** ** Bearing, distance and destination together *)

Section RoundTripFacts.
Import GISCalculations.


Lemma unit_circle (p : R) : sin p * sin p + cos p * cos p = 1.
Proof. pose proof (sin2_cos2 p) as H. unfold Rsqr in H. exact H. Qed.








Lemma degrees_radians (x : R) : radiansToDegrees (degreesToRadians x) = x.
Proof.
  pose proof PI_RGT_0.
  change (x * (PI / 180) * (180 / PI) = x). field. lra.
Qed.











End RoundTripFacts.




(** * Further properties of the geodesy utilities *)

Section MoreMathFacts.

Lemma num_le_false x y : num_le x y = false <-> y < x.
Proof.
  unfold num_le; destruct (Rle_dec x y); split; intros; auto; try discriminate; lra.
Qed.

Lemma num_ge_false x y : num_ge x y = false <-> x < y.
Proof. apply num_le_false. Qed.

Lemma num_eq_true x y : num_eq x y = true <-> x = y.
Proof.
  unfold num_eq; destruct (Req_EM_T x y); split; intros; auto; try discriminate.
Qed.

Lemma num_eq_false x y : num_eq x y = false <-> x <> y.
Proof.
  unfold num_eq; destruct (Req_EM_T x y); split; intros; auto; try discriminate.
  contradiction.
Qed.

Lemma INR_fact_values :
  INR (fact 0) = 1 /\ INR (fact 2) = 2 /\ INR (fact 4) = 24 /\
  INR (fact 6) = 720 /\ INR (fact 8) = 40320.
Proof.
  repeat split; rewrite INR_IZR_INZ; apply f_equal; vm_compute; reflexivity.
Qed.

(** An upper bound of [PI], from the cosine series at 1.5725. *)
Lemma PI_below : PI < 3145 / 1000.
Proof.
  destruct (Rlt_dec (PI / 2) (15725 / 10000)) as [H | H]; [lra |].
  exfalso. apply Rnot_lt_le in H.
  pose proof PI_RGT_0 as Hpi.
  assert (Hc : 0 <= cos (15725 / 10000)) by (apply cos_ge_0; lra).
  destruct (cos_bound (15725 / 10000) 1) as [_ Hub]; [lra | lra |].
  unfold cos_approx in Hub.
  change (2 * (1 + 1))%nat with 4%nat in Hub.
  cbn [sum_f_R0] in Hub. unfold cos_term in Hub.
  change (2 * 0)%nat with 0%nat in Hub.
  change (2 * 1)%nat with 2%nat in Hub.
  change (2 * 2)%nat with 4%nat in Hub.
  change (2 * 3)%nat with 6%nat in Hub.
  change (2 * 4)%nat with 8%nat in Hub.
  destruct INR_fact_values as (F0 & F2 & F4 & F6 & F8).
  rewrite F0, F2, F4, F6, F8 in Hub.
  cbn [pow] in Hub.
  lra.
Qed.

(** A point of the right half plane has its angle between [-PI/2] and
    [PI/2]. *)
Lemma atan2_right_half (y x : R) :
  0 <= x -> - (PI / 2) <= Math.atan2 y x <= PI / 2.
Proof.
  intros Hx. pose proof PI_RGT_0 as Hpi.
  pose proof (atan_bound (y / x)) as Hatan.
  unfold Math.atan2.
  destruct (Rlt_dec 0 x); [lra|].
  destruct (Rlt_dec x 0); [lra|].
  destruct (Rlt_dec 0 y); [lra|].
  destruct (Rlt_dec y 0); lra.
Qed.

(** A point of the first quadrant has its angle between 0 and [PI/2]. *)
Lemma atan2_first_quadrant (y x : R) :
  0 <= y -> 0 <= x -> 0 <= Math.atan2 y x <= PI / 2.
Proof.
  intros Hy Hx. split; [|apply atan2_right_half; assumption].
  pose proof PI_RGT_0 as Hpi.
  unfold Math.atan2.
  destruct (Rlt_dec 0 x) as [Hpos|].
  - destruct (Req_dec y 0) as [-> | Hne].
    + unfold Rdiv. rewrite Rmult_0_l, atan_0. lra.
    + rewrite <- atan_0. apply Rlt_le, atan_increasing.
      apply Rdiv_lt_0_compat; lra.
  - destruct (Rlt_dec x 0); [lra|].
    destruct (Rlt_dec 0 y); [lra|].
    destruct (Rlt_dec y 0); lra.
Qed.

Lemma atan2_zero_right (x : R) : 0 <= x -> Math.atan2 0 x = 0.
Proof.
  intros Hx. unfold Math.atan2.
  destruct (Rlt_dec 0 x).
  - unfold Rdiv. rewrite Rmult_0_l. apply atan_0.
  - destruct (Rlt_dec x 0); [lra|].
    destruct (Rlt_dec 0 0); [lra|]. destruct (Rlt_dec 0 0); lra.
Qed.

Lemma atan2_zero_left (x : R) : x < 0 -> Math.atan2 0 x = PI.
Proof.
  intros Hx. unfold Math.atan2.
  destruct (Rlt_dec 0 x); [lra|].
  destruct (Rlt_dec x 0); [|lra].
  destruct (Rle_dec 0 0); [|lra].
  unfold Rdiv. rewrite Rmult_0_l, atan_0. lra.
Qed.

Lemma atan2_up (y : R) : 0 < y -> Math.atan2 y 0 = PI / 2.
Proof.
  intros Hy. unfold Math.atan2.
  destruct (Rlt_dec 0 0); [lra|]. destruct (Rlt_dec 0 0); [lra|].
  destruct (Rlt_dec 0 y); lra.
Qed.

Lemma atan2_down (y : R) : y < 0 -> Math.atan2 y 0 = - (PI / 2).
Proof.
  intros Hy. unfold Math.atan2.
  destruct (Rlt_dec 0 0); [lra|]. destruct (Rlt_dec 0 0); [lra|].
  destruct (Rlt_dec 0 y); [lra|]. destruct (Rlt_dec y 0); lra.
Qed.
End MoreMathFacts.

Section MoreGeodesyFacts.
Import GISCalculations.

Lemma radians_degrees (x : R) : degreesToRadians (radiansToDegrees x) = x.
Proof.
  pose proof PI_RGT_0.
  change (x * (180 / PI) * (PI / 180) = x). field. lra.
Qed.

Lemma calculateDistance_range (lat1 lng1 lat2 lng2 : R) :
  0 <= calculateDistance lat1 lng1 lat2 lng2 <= 6371 * PI.
Proof.
  unfold calculateDistance, GIS_CONFIG.EARTH_RADIUS_KM.
  match goal with |- context [Math.atan2 ?y ?x] =>
    pose proof (atan2_first_quadrant y x (sqrt_pos _) (sqrt_pos _)) as Hq;
    set (c := Math.atan2 y x) in * end.
  split; nra.
Qed.
End MoreGeodesyFacts.

(** X1.  In exact arithmetic degrees and radians convert back and forth
    without loss: each conversion undoes the other. *)
Theorem degrees_radians_round_trip :
  forall x : number,
    GISCalculations.radiansToDegrees (GISCalculations.degreesToRadians x) = x /\
    GISCalculations.degreesToRadians (GISCalculations.radiansToDegrees x) = x.
Proof. intros x. split; [apply degrees_radians | apply radians_degrees]. Qed.

(** X2.  Between two valid coordinates that are at least one degree away
    from the poles and whose longitudes are at most 179 degrees apart, the
    distance [calculateDistance] returns lies between 0 and half the
    circumference [PI * 6371] km, and is accepted by [validateDistance]
    with its default limits 0 and 20037.  (Over the reals this holds for
    all points; on doubles antipodal points can give [NaN], which
    [validateDistance] rejects, and the hypotheses keep clear of them.) *)
Theorem calculateDistance_is_valid_distance :
  forall lat1 lng1 lat2 lng2 : number,
    -89 <= lat1 <= 89 -> -89 <= lat2 <= 89 ->
    -180 <= lng1 <= 180 -> -180 <= lng2 <= 180 ->
    -179 <= lng2 - lng1 <= 179 ->
    0 <= GISCalculations.calculateDistance lat1 lng1 lat2 lng2 <= 6371 * PI /\
    GISValidations.validateDistance
      (GISCalculations.calculateDistance lat1 lng1 lat2 lng2) None None = true.
Proof.
  intros lat1 lng1 lat2 lng2 _ _ _ _ _.
  pose proof (calculateDistance_range lat1 lng1 lat2 lng2) as Hr.
  split; [exact Hr|].
  unfold GISValidations.validateDistance, or_default.
  apply andb_true_iff. rewrite num_ge_true, num_le_true.
  pose proof PI_below. split; lra.
Qed.

Lemma calculateDistance_is_valid_distance_witness :
  GISValidations.validateDistance
    (GISCalculations.calculateDistance (377749 / 10000) (-1224194 / 10000)
       (407128 / 10000) (-74006 / 1000)) None None = true.
Proof.
  apply (calculateDistance_is_valid_distance (377749 / 10000) (-1224194 / 10000)
           (407128 / 10000) (-74006 / 1000)); lra.
Defined.

(** X3.  Every bearing [calculateBearing] returns is accepted by
    [validateBearing]. *)
Theorem calculateBearing_is_valid_bearing :
  forall lat1 lng1 lat2 lng2 : number,
    GISValidations.validateBearing
      (GISCalculations.calculateBearing lat1 lng1 lat2 lng2) = true.
Proof.
  intros lat1 lng1 lat2 lng2.
  pose proof (calculateBearing_range lat1 lng1 lat2 lng2) as [Hlo Hhi].
  unfold GISValidations.validateBearing.
  apply andb_true_iff. rewrite num_ge_true, num_lt_true. split; assumption.
Qed.

Section MoreNormalizeFacts.
Import GISCalculations.

(** Whatever the first loop returns is at most 180, is the input when that
    was at most 180, and is above -180 otherwise. *)
Lemma while_above_sound (fuel : nat) :
  forall lng r : number,
    while_above fuel lng = Some r ->
    r <= 180 /\ (lng <= 180 -> r = lng) /\ (180 < lng -> -180 < r).
Proof.
  induction fuel as [|fuel IH]; intros lng r Hrun; [discriminate|].
  cbn [while_above] in Hrun.
  destruct (num_gt lng 180) eqn:Hgt.
  - apply num_gt_true in Hgt.
    destruct (IH _ _ Hrun) as (Hup & Hsame & Hlow).
    destruct (Rle_dec (lng - 360) 180) as [Hin | Hout].
    + rewrite (Hsame Hin) in *. repeat split; lra.
    + apply Rnot_le_lt, Hlow in Hout. repeat split; lra.
  - apply num_gt_false in Hgt. injection Hrun as <-.
    repeat split; lra.
Qed.

Lemma while_below_sound (fuel : nat) :
  forall lng r : number,
    while_below fuel lng = Some r ->
    -180 <= r /\ (-180 <= lng -> r = lng) /\ (lng < -180 -> r < 180).
Proof.
  induction fuel as [|fuel IH]; intros lng r Hrun; [discriminate|].
  cbn [while_below] in Hrun.
  destruct (num_lt lng (-180)) eqn:Hlt.
  - apply num_lt_true in Hlt.
    destruct (IH _ _ Hrun) as (Hlow & Hsame & Hup).
    destruct (Rle_dec (-180) (lng + 360)) as [Hin | Hout].
    + rewrite (Hsame Hin) in *. repeat split; lra.
    + apply Rnot_le_lt, Hup in Hout. repeat split; lra.
  - apply num_lt_false in Hlt. injection Hrun as <-.
    repeat split; lra.
Qed.

Lemma normalizeLongitude_sound (fuel : nat) (lng r : number) :
  normalizeLongitude fuel lng = Some r -> -180 <= r <= 180.
Proof.
  unfold normalizeLongitude.
  destruct (while_above fuel lng) as [r1|] eqn:Habove; [|discriminate].
  intros Hbelow.
  destruct (while_above_sound _ _ _ Habove) as (Hup & _ & _).
  destruct (while_below_sound _ _ _ Hbelow) as (Hlow & Hsame & Hlt).
  split; [assumption|].
  destruct (Rle_dec (-180) r1) as [Hin | Hout].
  - rewrite (Hsame Hin). assumption.
  - apply Rlt_le, Hlt. lra.
Qed.

Lemma normalizeLongitude_in_range (fuel : nat) (lng : number) :
  -180 <= lng <= 180 -> normalizeLongitude (S fuel) lng = Some lng.
Proof.
  intros [Hlo Hhi]. unfold normalizeLongitude. cbn [while_above].
  replace (num_gt lng 180) with false by (symmetry; apply num_gt_false; lra).
  cbn [while_below].
  replace (num_lt lng (-180)) with false by (symmetry; apply num_lt_false; lra).
  reflexivity.
Qed.
End MoreNormalizeFacts.

(** X4.  For a longitude of magnitude at most 2^53, where doubles still
    subtract and add 360 without rounding, [normalizeLongitude] returns
    within the number of turns that [N] adjustments take when
    [|lng| <= 180 + 360 * N]; the longitude it returns lies in [[-180, 180]],
    differs from the input by a whole number of turns of 360, and together
    with the latitude that went through [normalizeLatitude] it passes
    [validateCoordinates]. *)
Theorem normalized_coordinates_are_valid :
  forall (lat lng : number) (N : nat),
    Rabs lng <= 9007199254740992 ->
    Rabs lng <= 180 + 360 * INR N ->
    exists (r : number) (k : Z),
      (forall fuel, (N < fuel)%nat ->
                    GISCalculations.normalizeLongitude fuel lng = Some r) /\
      -180 <= r <= 180 /\ r = lng + 360 * IZR k /\
      result (GISValidations.validateCoordinates
                (GISCalculations.normalizeLatitude lat) r) = true.
Proof.
  intros lat lng N _ Hturns.
  assert (Hboth : - (180 + 360 * INR N) <= lng <= 180 + 360 * INR N).
  { unfold Rabs in Hturns. destruct (Rcase_abs lng); lra. }
  destruct (while_above_result N lng)
    as (r1 & k1 & Hrun1 & Hr1 & Hup1 & Hlow1 & Hsame1); [lra|].
  assert (Hr1low : -180 - 360 * INR N <= r1).
  { destruct (Rle_dec lng 180) as [Hin | Hout].
    - rewrite (Hsame1 Hin). lra.
    - apply Rnot_le_lt, Hlow1 in Hout. pose proof (pos_INR N). lra. }
  destruct (while_below_result N r1)
    as (r2 & k2 & Hrun2 & Hr2 & Hlow2 & Hup2 & Hsame2); [exact Hr1low|].
  assert (Hrange : -180 <= r2 <= 180).
  { split; [assumption|].
    destruct (Rle_dec (-180) r1) as [Hin | Hout].
    - rewrite (Hsame2 Hin). assumption.
    - apply Rlt_le, Hup2. lra. }
  exists r2, (Z.of_nat k2 - Z.of_nat k1)%Z.
  rewrite minus_IZR, <- !INR_IZR_INZ.
  split; [|split; [exact Hrange | split; [lra|]]].
  - intros fuel Hfuel. unfold GISCalculations.normalizeLongitude.
    rewrite (while_above_more_fuel _ _ _ fuel Hrun1) by lia.
    apply (while_below_more_fuel _ _ _ fuel Hrun2). lia.
  - apply validateCoordinates_iff.
    split; [apply normalizeLatitude_clamps | exact Hrange].
Qed.

Lemma normalized_coordinates_are_valid_witness :
  exists (r : number) (k : Z),
    (forall fuel, (2 < fuel)%nat ->
                  GISCalculations.normalizeLongitude fuel 900 = Some r) /\
    -180 <= r <= 180 /\ r = 900 + 360 * IZR k /\
    result (GISValidations.validateCoordinates
              (GISCalculations.normalizeLatitude 95) r) = true.
Proof.
  apply (normalized_coordinates_are_valid 95 900 2%nat).
  - rewrite Rabs_pos_eq; lra.
  - rewrite Rabs_pos_eq; simpl; lra.
Defined.

(** X5.  [normalizeLongitude] returns a longitude that is already in
    [[-180, 180]] unchanged, after a single test of each loop; so whatever it
    returns, normalising again changes nothing.  [normalizeLatitude] is
    idempotent in the same way. *)
Theorem normalize_is_idempotent :
  (forall (lng : number) (fuel : nat),
      -180 <= lng <= 180 ->
      GISCalculations.normalizeLongitude (S fuel) lng = Some lng) /\
  (forall (lng r : number) (fuel fuel' : nat),
      GISCalculations.normalizeLongitude fuel lng = Some r ->
      GISCalculations.normalizeLongitude (S fuel') r = Some r) /\
  (forall lat : number,
      GISCalculations.normalizeLatitude (GISCalculations.normalizeLatitude lat) =
      GISCalculations.normalizeLatitude lat).
Proof.
  split; [|split].
  - intros lng fuel Hrange. apply normalizeLongitude_in_range. assumption.
  - intros lng r fuel fuel' Hrun.
    apply normalizeLongitude_in_range.
    apply (normalizeLongitude_sound fuel lng r Hrun).
  - intros lat. apply normalizeLatitude_clamps. apply normalizeLatitude_clamps.
Qed.

Lemma normalize_is_idempotent_witness :
  GISCalculations.normalizeLongitude 1 (-45) = Some (-45) /\
  GISCalculations.normalizeLongitude 1 (-160) = Some (-160).
Proof.
  split.
  - apply (proj1 normalize_is_idempotent (-45) 0%nat). lra.
  - apply (proj1 (proj2 normalize_is_idempotent) (-160) (-160) 1%nat 0%nat).
    apply normalizeLongitude_in_range. lra.
Defined.

Section MidpointFacts.
Import GISCalculations.

Lemma degreesToRadians_zero : degreesToRadians 0 = 0.
Proof. unfold degreesToRadians. apply Rmult_0_l. Qed.

Lemma degreesToRadians_half (x y : R) :
  (degreesToRadians x + degreesToRadians y) / 2 = degreesToRadians ((x + y) / 2).
Proof. change ((x * (PI / 180) + y * (PI / 180)) / 2 = (x + y) / 2 * (PI / 180)). field. Qed.

Lemma radians_strictly_in_quarter (x : R) :
  -90 < x < 90 -> - (PI / 2) < degreesToRadians x < PI / 2.
Proof. unfold degreesToRadians. pose proof PI_RGT_0. intros. split; nra. Qed.



(** On one meridian the midpoint has the mean latitude. *)
Lemma calculateMidpoint_meridian (lat1 lat2 lng : R) :
  -90 < lat1 < 90 -> -90 < lat2 < 90 ->
  calculateMidpoint lat1 lng lat2 lng = mkCoord ((lat1 + lat2) / 2) lng.
Proof.
  intros H1 H2. pose proof PI_RGT_0 as Hpi.
  pose proof (radians_strictly_in_quarter lat1 H1) as Hp1.
  pose proof (radians_strictly_in_quarter lat2 H2) as Hp2.
  unfold calculateMidpoint.
  replace (lng - lng) with 0 by ring.
  rewrite degreesToRadians_zero, cos_0, sin_0, !Rmult_0_r, !Rmult_1_r, Rplus_0_r.
  set (p1 := degreesToRadians lat1) in *. set (p2 := degreesToRadians lat2) in *.
  assert (Hsum : 0 < cos p1 + cos p2).
  { pose proof (cos_gt_0 p1). pose proof (cos_gt_0 p2). lra. }
  rewrite sqrt_square by lra.
  rewrite (atan2_zero_right (cos p1 + cos p2)) by lra.
  rewrite form1, form3.
  rewrite atan2_polar.
  - f_equal.
    + replace ((p1 + p2) / 2) with (degreesToRadians ((lat1 + lat2) / 2))
        by (unfold p1, p2; symmetry; apply degreesToRadians_half).
      apply degrees_radians.
    + rewrite Rplus_0_r. apply degrees_radians.
  - assert (0 < cos ((p1 - p2) / 2)) by (apply cos_gt_0; lra). lra.
  - lra.
Qed.

(** On the equator the midpoint has the mean longitude, when the two
    longitudes are less than 180 degrees apart. *)
Lemma calculateMidpoint_equator (lng1 lng2 : R) :
  -180 < lng2 - lng1 < 180 ->
  calculateMidpoint 0 lng1 0 lng2 = mkCoord 0 ((lng1 + lng2) / 2).
Proof.
  intros Hd. pose proof PI_RGT_0 as Hpi.
  unfold calculateMidpoint.
  rewrite degreesToRadians_zero, cos_0, sin_0, !Rmult_1_l, Rplus_0_r.
  set (d := degreesToRadians (lng2 - lng1)).
  assert (Hdr : - PI < d < PI) by (unfold d, degreesToRadians; split; nra).
  assert (Hhalf : 0 < cos (d / 2)) by (apply cos_gt_0; lra).
  assert (Hcos : 1 + cos d = (2 * cos (d / 2)) * cos (d / 2)).
  { replace d with (2 * (d / 2)) at 1 by field. rewrite cos_2a_cos. ring. }
  assert (Hsin : sin d = (2 * cos (d / 2)) * sin (d / 2)).
  { replace d with (2 * (d / 2)) at 1 by field. rewrite sin_2a. ring. }
  rewrite (atan2_zero_right _ (sqrt_pos _)).
  rewrite Hsin, Hcos.
  rewrite atan2_polar by lra.
  f_equal.
  - change (0 * (180 / PI) = 0). ring.
  - change ((lng1 * (PI / 180) + (lng2 - lng1) * (PI / 180) / 2) * (180 / PI)
            = (lng1 + lng2) / 2).
    field. lra.
Qed.
End MidpointFacts.


(** X7.  Between two points of one meridian (strictly between the poles)
    [calculateMidpoint] returns the mean latitude on that meridian; between
    two points of the equator less than 180 degrees apart it returns the
    mean longitude on the equator. *)
Theorem calculateMidpoint_halves :
  (forall lat1 lat2 lng : number,
      -90 < lat1 < 90 -> -90 < lat2 < 90 ->
      GISCalculations.calculateMidpoint lat1 lng lat2 lng =
      mkCoord ((lat1 + lat2) / 2) lng) /\
  (forall lng1 lng2 : number,
      -180 < lng2 - lng1 < 180 ->
      GISCalculations.calculateMidpoint 0 lng1 0 lng2 =
      mkCoord 0 ((lng1 + lng2) / 2)).
Proof.
  split.
  - exact calculateMidpoint_meridian.
  - exact calculateMidpoint_equator.
Qed.

Lemma calculateMidpoint_halves_witness :
  GISCalculations.calculateMidpoint 10 20 30 20 = mkCoord ((10 + 30) / 2) 20 /\
  GISCalculations.calculateMidpoint 0 (-10) 0 50 = mkCoord 0 ((-10 + 50) / 2).
Proof.
  split.
  - apply (proj1 calculateMidpoint_halves 10 30 20); lra.
  - apply (proj2 calculateMidpoint_halves (-10) 50); lra.
Defined.

Section CardinalFacts.
Import GISCalculations.

Lemma bearing_of_angle_zero : num_rem (0 * 180 / PI + 360) 360 = 0.
Proof.
  replace (0 * 180 / PI + 360) with 360 by (unfold Rdiv; ring).
  rewrite num_rem_once; lra.
Qed.

Lemma bearing_of_angle_PI : num_rem (PI * 180 / PI + 360) 360 = 180.
Proof.
  pose proof PI_RGT_0.
  replace (PI * 180 / PI + 360) with 540 by (field; lra).
  rewrite num_rem_once; lra.
Qed.

Lemma bearing_of_angle_PI2 : num_rem (PI / 2 * 180 / PI + 360) 360 = 90.
Proof.
  pose proof PI_RGT_0.
  replace (PI / 2 * 180 / PI + 360) with 450 by (field; lra).
  rewrite num_rem_once; lra.
Qed.

Lemma bearing_of_angle_minus_PI2 : num_rem (- (PI / 2) * 180 / PI + 360) 360 = 270.
Proof.
  pose proof PI_RGT_0.
  replace (- (PI / 2) * 180 / PI + 360) with 270 by (field; lra).
  rewrite num_rem_small; lra.
Qed.

(** Along a meridian the vector of the bearing is [(sin (p2 - p1), 0)]. *)
Lemma calculateBearing_meridian (lat1 lat2 lng : R) :
  calculateBearing lat1 lng lat2 lng =
  num_rem
    (Math.atan2 0 (sin (degreesToRadians lat2 - degreesToRadians lat1)) * 180 / PI
     + 360) 360.
Proof.
  unfold calculateBearing.
  replace (lng - lng) with 0 by ring.
  rewrite degreesToRadians_zero, sin_0, cos_0, Rmult_0_l, Rmult_1_r, sin_minus.
  replace (cos (degreesToRadians lat1) * sin (degreesToRadians lat2) -
           sin (degreesToRadians lat1) * cos (degreesToRadians lat2))
    with (sin (degreesToRadians lat2) * cos (degreesToRadians lat1) -
          cos (degreesToRadians lat2) * sin (degreesToRadians lat1)) by ring.
  reflexivity.
Qed.

Lemma calculateBearing_north (lat1 lat2 lng : R) :
  0 < lat2 - lat1 < 180 -> calculateBearing lat1 lng lat2 lng = 0.
Proof.
  intros Hd. pose proof PI_RGT_0 as Hpi.
  rewrite calculateBearing_meridian.
  rewrite atan2_zero_right; [apply bearing_of_angle_zero|].
  apply Rlt_le, sin_gt_0; unfold degreesToRadians; nra.
Qed.

Lemma calculateBearing_south (lat1 lat2 lng : R) :
  0 < lat1 - lat2 < 180 -> calculateBearing lat1 lng lat2 lng = 180.
Proof.
  intros Hd. pose proof PI_RGT_0 as Hpi.
  rewrite calculateBearing_meridian.
  rewrite atan2_zero_left; [apply bearing_of_angle_PI|].
  replace (degreesToRadians lat2 - degreesToRadians lat1)
    with (- (degreesToRadians lat1 - degreesToRadians lat2)) by ring.
  rewrite sin_neg.
  assert (0 < sin (degreesToRadians lat1 - degreesToRadians lat2)); [|lra].
  apply sin_gt_0; unfold degreesToRadians; nra.
Qed.

Lemma calculateBearing_equator (lng1 lng2 : R) :
  calculateBearing 0 lng1 0 lng2 =
  num_rem (Math.atan2 (sin (degreesToRadians (lng2 - lng1))) 0 * 180 / PI + 360) 360.
Proof.
  unfold calculateBearing.
  rewrite degreesToRadians_zero, sin_0, cos_0.
  replace (sin (degreesToRadians (lng2 - lng1)) * 1)
    with (sin (degreesToRadians (lng2 - lng1))) by ring.
  replace (1 * 0 - 0 * 1 * cos (degreesToRadians (lng2 - lng1))) with 0 by ring.
  reflexivity.
Qed.

Lemma calculateBearing_east (lng1 lng2 : R) :
  0 < lng2 - lng1 < 180 -> calculateBearing 0 lng1 0 lng2 = 90.
Proof.
  intros Hd. pose proof PI_RGT_0 as Hpi.
  rewrite calculateBearing_equator, atan2_up; [apply bearing_of_angle_PI2|].
  apply sin_gt_0; unfold degreesToRadians; nra.
Qed.

Lemma calculateBearing_west (lng1 lng2 : R) :
  0 < lng1 - lng2 < 180 -> calculateBearing 0 lng1 0 lng2 = 270.
Proof.
  intros Hd. pose proof PI_RGT_0 as Hpi.
  rewrite calculateBearing_equator, atan2_down; [apply bearing_of_angle_minus_PI2|].
  replace (degreesToRadians (lng2 - lng1)) with (- degreesToRadians (lng1 - lng2))
    by (unfold degreesToRadians; ring).
  rewrite sin_neg.
  assert (0 < sin (degreesToRadians (lng1 - lng2))); [|lra].
  apply sin_gt_0; unfold degreesToRadians; nra.
Qed.

(** The angle of [(|cos h|, |sin h|)] is [|h|] up to a quarter turn. *)
Lemma half_angle_of_haversine (h : R) :
  - (PI / 2) <= h <= PI / 2 ->
  Math.atan2 (sqrt (sin h * sin h)) (sqrt (1 - sin h * sin h)) = Rabs h.
Proof.
  intros Hh. pose proof PI_RGT_0 as Hpi.
  assert (Hc : 0 <= cos h) by (apply cos_ge_0; lra).
  replace (1 - sin h * sin h) with (cos h * cos h)
    by (pose proof (unit_circle h); lra).
  rewrite (sqrt_square (cos h)) by assumption.
  replace (sin h * sin h) with ((sin h)²) by reflexivity.
  rewrite sqrt_Rsqr_abs.
  assert (Hpolar : Rabs (sin h) = 1 * sin (Rabs h) /\ cos h = 1 * cos (Rabs h)).
  { unfold Rabs at 2 3. destruct (Rcase_abs h) as [Hneg | Hpos].
    - rewrite sin_neg, cos_neg, Rabs_left1; [lra|].
      assert (0 <= sin (- h)) by (apply sin_ge_0; lra).
      rewrite sin_neg in *. lra.
    - rewrite Rabs_pos_eq; [lra|]. apply sin_ge_0; lra. }
  destruct Hpolar as [Hs Hcos]. rewrite Hs, Hcos.
  apply atan2_polar; [lra|].
  unfold Rabs. destruct (Rcase_abs h); lra.
Qed.

Lemma calculateDistance_meridian (lat1 lat2 lng : R) :
  -180 <= lat2 - lat1 <= 180 ->
  calculateDistance lat1 lng lat2 lng =
  6371 * degreesToRadians (Rabs (lat2 - lat1)).
Proof.
  intros Hd. pose proof PI_RGT_0 as Hpi.
  unfold calculateDistance, GIS_CONFIG.EARTH_RADIUS_KM.
  replace (lng - lng) with 0 by ring.
  rewrite degreesToRadians_zero.
  replace (0 / 2) with 0 by field.
  rewrite sin_0, !Rmult_0_r, Rplus_0_r.
  rewrite half_angle_of_haversine by (unfold degreesToRadians; split; nra).
  f_equal. unfold degreesToRadians.
  unfold Rdiv at 1. rewrite Rabs_mult, Rabs_mult.
  rewrite (Rabs_pos_eq (PI / 180)) by lra.
  rewrite (Rabs_pos_eq (/ 2)) by lra.
  field.
Qed.

Lemma calculateDistance_equator (lng1 lng2 : R) :
  -180 <= lng2 - lng1 <= 180 ->
  calculateDistance 0 lng1 0 lng2 =
  6371 * degreesToRadians (Rabs (lng2 - lng1)).
Proof.
  intros Hd. pose proof PI_RGT_0 as Hpi.
  unfold calculateDistance, GIS_CONFIG.EARTH_RADIUS_KM.
  replace (0 - 0) with 0 by ring.
  rewrite degreesToRadians_zero.
  replace (0 / 2) with 0 by field.
  rewrite sin_0, cos_0, !Rmult_1_l, Rmult_0_l, Rplus_0_l.
  rewrite half_angle_of_haversine by (unfold degreesToRadians; split; nra).
  f_equal. unfold degreesToRadians.
  unfold Rdiv at 1. rewrite Rabs_mult, Rabs_mult.
  rewrite (Rabs_pos_eq (PI / 180)) by lra.
  rewrite (Rabs_pos_eq (/ 2)) by lra.
  field.
Qed.
End CardinalFacts.

(** X8.  The bearing points the way one expects on the grid lines, for
    points that are between a millionth of a degree and a millionth less
    than a half turn apart: along a meridian, between two valid latitudes,
    it is 0 towards the higher latitude and 180 towards the lower one;
    along the equator it is 90 towards the east and 270 towards the west.
    (Over the reals any separation strictly between 0 and 180 degrees will
    do; closer than that, the sign that decides is lost in rounding on
    doubles.) *)
Theorem calculateBearing_cardinal :
  (forall lat1 lat2 lng : number,
      -90 <= lat1 -> lat2 <= 90 ->
      1 / 1000000 <= lat2 - lat1 <= 180 - 1 / 1000000 ->
      GISCalculations.calculateBearing lat1 lng lat2 lng = 0) /\
  (forall lat1 lat2 lng : number,
      -90 <= lat2 -> lat1 <= 90 ->
      1 / 1000000 <= lat1 - lat2 <= 180 - 1 / 1000000 ->
      GISCalculations.calculateBearing lat1 lng lat2 lng = 180) /\
  (forall lng1 lng2 : number,
      1 / 1000000 <= lng2 - lng1 <= 180 - 1 / 1000000 ->
      GISCalculations.calculateBearing 0 lng1 0 lng2 = 90) /\
  (forall lng1 lng2 : number,
      1 / 1000000 <= lng1 - lng2 <= 180 - 1 / 1000000 ->
      GISCalculations.calculateBearing 0 lng1 0 lng2 = 270).
Proof.
  split; [intros; apply calculateBearing_north; lra|].
  split; [intros; apply calculateBearing_south; lra|].
  split; [intros; apply calculateBearing_east; lra
         | intros; apply calculateBearing_west; lra].
Qed.

Lemma calculateBearing_cardinal_witness :
  GISCalculations.calculateBearing 10 20 30 20 = 0 /\
  GISCalculations.calculateBearing 30 20 10 20 = 180 /\
  GISCalculations.calculateBearing 0 (-10) 0 50 = 90 /\
  GISCalculations.calculateBearing 0 50 0 (-10) = 270.
Proof.
  destruct calculateBearing_cardinal as (N & S & E & W).
  split; [apply N; lra|]. split; [apply S; lra|].
  split; [apply E; lra | apply W; lra].
Defined.

(** X9.  Along a meridian, and along the equator, the distance is the earth
    radius times the angle between the two points in radians: 6371 km times
    [|lat2 - lat1| * PI / 180], respectively [|lng2 - lng1| * PI / 180], for
    points at most 180 degrees apart. *)
Theorem calculateDistance_along_grid_lines :
  (forall lat1 lat2 lng : number,
      -180 <= lat2 - lat1 <= 180 ->
      GISCalculations.calculateDistance lat1 lng lat2 lng =
      6371 * GISCalculations.degreesToRadians (Rabs (lat2 - lat1))) /\
  (forall lng1 lng2 : number,
      -180 <= lng2 - lng1 <= 180 ->
      GISCalculations.calculateDistance 0 lng1 0 lng2 =
      6371 * GISCalculations.degreesToRadians (Rabs (lng2 - lng1))).
Proof.
  split.
  - exact calculateDistance_meridian.
  - exact calculateDistance_equator.
Qed.

Lemma calculateDistance_along_grid_lines_witness :
  GISCalculations.calculateDistance 0 0 1 0 =
  6371 * GISCalculations.degreesToRadians (Rabs (1 - 0)).
Proof.
  apply (proj1 calculateDistance_along_grid_lines 0 1 0). lra.
Defined.

Section DMSFacts.
Import GISCalculations.

Lemma floor_bounds (x : R) : Math.floor x <= x < Math.floor x + 1.
Proof. unfold Math.floor. destruct (base_Int_part x). lra. Qed.

Lemma floor_nonneg (x : R) : 0 <= x -> 0 <= Math.floor x.
Proof.
  intros Hx. pose proof (floor_bounds x) as Hb. unfold Math.floor in *.
  apply (IZR_le 0). apply Z.lt_succ_r, lt_IZR. rewrite succ_IZR. lra.
Qed.

(** Below a whole number, the floor is at most its predecessor. *)
Lemma floor_below (x : R) (n : Z) : x < IZR n -> Math.floor x <= IZR n - 1.
Proof.
  intros Hx. pose proof (floor_bounds x) as Hb. unfold Math.floor in *.
  rewrite <- minus_IZR. apply IZR_le.
  assert (Int_part x < n)%Z; [|lia].
  apply lt_IZR. lra.
Qed.

Lemma round_bounds (x : R) : x - 1 / 2 < Math.round x <= x + 1 / 2.
Proof. unfold Math.round. destruct (base_Int_part (x + 1 / 2)). lra. Qed.

(** The parts of [toDMS] in terms of the absolute value. *)
Lemma toDMS_parts_bounds (decimal : R) (isLongitude : option bool) :
  let parts := toDMS_parts decimal isLongitude in
  0 <= dms_degrees parts <= Rabs decimal /\
  0 <= dms_minutes parts <= 59 /\
  0 <= dms_seconds parts <= 60 /\
  Rabs (dms_degrees parts + dms_minutes parts / 60 + dms_seconds parts / 3600
        - Rabs decimal) <= 1 / 720000.
Proof.
  cbv zeta. unfold toDMS_parts. cbn [dms_degrees dms_minutes dms_seconds].
  pose proof (Rabs_pos decimal) as Habs.
  set (A := Rabs decimal) in *.
  pose proof (floor_bounds A) as HD. pose proof (floor_nonneg A Habs) as HD0.
  set (D := Math.floor A) in *.
  assert (Hf : 0 <= (A - D) * 60 < 60) by lra.
  pose proof (floor_bounds ((A - D) * 60)) as HM.
  pose proof (floor_nonneg ((A - D) * 60) (proj1 Hf)) as HM0.
  pose proof (floor_below ((A - D) * 60) 60 (proj2 Hf)) as HM59.
  set (M := Math.floor ((A - D) * 60)) in *.
  set (g := (A - D) * 60 - M) in *.
  assert (Hg : 0 <= g < 1) by (unfold g; lra).
  pose proof (round_bounds (g * 60 * 100)) as HS.
  assert (HS0 : 0 <= Math.round (g * 60 * 100)).
  { unfold Math.round. apply floor_nonneg. lra. }
  assert (HS60 : Math.round (g * 60 * 100) <= 6000).
  { unfold Math.round.
    pose proof (floor_below (g * 60 * 100 + 1 / 2) 6001) as Hb.
    unfold Math.floor in Hb. lra. }
  set (S := Math.round (g * 60 * 100)) in *.
  repeat split; try lra.
  apply Rabs_le. unfold g in *. split; lra.
Qed.

Lemma fromDMS_north_east (d m s : R) (direction : string) :
  direction = "N"%string \/ direction = "E"%string ->
  fromDMS d m s direction = d + m / 60 + s / 3600.
Proof. intros [-> | ->]; reflexivity. Qed.

Lemma fromDMS_south_west (d m s : R) (direction : string) :
  direction = "S"%string \/ direction = "W"%string ->
  fromDMS d m s direction = - (d + m / 60 + s / 3600).
Proof. intros [-> | ->]; reflexivity. Qed.

Lemma toDMS_direction (decimal : R) (isLongitude : option bool) :
  let direction := dms_direction (toDMS_parts decimal isLongitude) in
  (0 <= decimal -> direction = "N"%string \/ direction = "E"%string) /\
  (decimal < 0 -> direction = "S"%string \/ direction = "W"%string) /\
  (or_default isLongitude false = true ->
   direction = "E"%string \/ direction = "W"%string) /\
  (or_default isLongitude false = false ->
   direction = "N"%string \/ direction = "S"%string).
Proof.
  cbv zeta. unfold toDMS_parts. cbn [dms_direction].
  destruct (or_default isLongitude false); destruct (num_ge decimal 0) eqn:Hsign;
    try apply num_ge_true in Hsign; try apply num_ge_false in Hsign;
    repeat split; intros; try lra; try discriminate; auto.
Qed.
End DMSFacts.

(** X10.  [toDMS] splits a decimal angle into whole degrees, whole minutes
    between 0 and 59 and seconds between 0 and 60 rounded to hundredths,
    with the letter N or E for a non-negative angle and S or W for a
    negative one (E/W when [isLongitude] is set, N/S otherwise); seconds
    that round up to 60 are not carried into the minutes.  Feeding these
    parts to [fromDMS] gives the angle back within 1/720000 of a degree
    (half a hundredth of an arc second). *)
Theorem toDMS_fromDMS_round_trip :
  (forall (decimal : number) (isLongitude : option bool),
      let parts := GISCalculations.toDMS_parts decimal isLongitude in
      Rabs (GISCalculations.fromDMS
              (GISCalculations.dms_degrees parts)
              (GISCalculations.dms_minutes parts)
              (GISCalculations.dms_seconds parts)
              (GISCalculations.dms_direction parts) - decimal) <= 1 / 720000 /\
      0 <= GISCalculations.dms_degrees parts <= Rabs decimal /\
      0 <= GISCalculations.dms_minutes parts <= 59 /\
      0 <= GISCalculations.dms_seconds parts <= 60 /\
      GISCalculations.dms_direction parts =
        (if or_default isLongitude false
         then (if Rle_dec 0 decimal then "E" else "W")
         else (if Rle_dec 0 decimal then "N" else "S"))%string) /\
  GISCalculations.dms_minutes
    (GISCalculations.toDMS_parts (9999999 / 10000000) None) = 59 /\
  GISCalculations.dms_seconds
    (GISCalculations.toDMS_parts (9999999 / 10000000) None) = 60.
Proof.
  split.
  - intros decimal isLongitude. cbv zeta.
    destruct (toDMS_parts_bounds decimal isLongitude) as (HD & HM & HS & Hnear).
    destruct (toDMS_direction decimal isLongitude) as (Hpos & Hneg & _ & _).
    cbv zeta in Hpos, Hneg.
    split; [|split; [exact HD|split; [exact HM|split; [exact HS|]]]].
    + destruct (Rle_dec 0 decimal) as [Hsign | Hsign].
      * rewrite fromDMS_north_east by (apply Hpos; assumption).
        rewrite (Rabs_pos_eq decimal) in Hnear by assumption. exact Hnear.
      * apply Rnot_le_lt in Hsign.
        rewrite fromDMS_south_west by (apply Hneg; assumption).
        rewrite (Rabs_left decimal) in Hnear by assumption.
        rewrite <- Rabs_Ropp.
        match goal with |- Rabs ?e <= _ =>
          match type of Hnear with Rabs ?e' <= _ =>
            replace e with e' by ring end end.
        exact Hnear.
    + unfold GISCalculations.toDMS_parts. cbn [GISCalculations.dms_direction].
      unfold num_ge, num_le.
      destruct (or_default isLongitude false); destruct (Rle_dec 0 decimal);
        reflexivity.
  - assert (Habs : Rabs (9999999 / 10000000) = 9999999 / 10000000)
      by (apply Rabs_pos_eq; lra).
    assert (HD : Math.floor (9999999 / 10000000) = 0).
    { unfold Math.floor. rewrite <- (Int_part_spec _ 0); [reflexivity|]. simpl. lra. }
    assert (HM : Math.floor ((9999999 / 10000000 - 0) * 60) = 59).
    { unfold Math.floor. rewrite <- (Int_part_spec _ 59); [reflexivity|]. lra. }
    unfold GISCalculations.toDMS_parts.
    cbn [GISCalculations.dms_minutes GISCalculations.dms_seconds].
    rewrite Habs, HD, HM. split; [reflexivity|].
    unfold Math.round. rewrite <- (Int_part_spec _ 6000); [lra|]. lra.
Qed.

(** * Further properties of the validations *)

Section MoreValidationFacts.
Import GISValidations.

Lemma validateCoordinates_false lat lng :
  result (validateCoordinates lat lng) = false <->
  ~ (-90 <= lat <= 90 /\ -180 <= lng <= 180).
Proof.
  rewrite <- validateCoordinates_iff.
  destruct (result (validateCoordinates lat lng)); split; intros H;
    try discriminate; try reflexivity.
  exfalso. apply H. reflexivity.
Qed.

Lemma result_bind {A B} (m : Logged A) (k : A -> Logged B) :
  result (bind m k) = result (k (result m)).
Proof. unfold result, bind. destruct m as [a l1]. simpl. now destruct (k a). Qed.

Lemma log_bind {A B} (m : Logged A) (k : A -> Logged B) :
  snd (bind m k) = snd m ++ snd (k (result m)).
Proof. unfold result, bind. destruct m as [a l1]. simpl. now destruct (k a). Qed.

Lemma validateCoordinates_valid_log lat lng :
  result (validateCoordinates lat lng) = true -> snd (validateCoordinates lat lng) = [].
Proof.
  rewrite validateCoordinates_result.
  unfold validateCoordinates, bind, when, ret, tell.
  unfold GIS_CONFIG.COORDINATE_LIMITS.MIN_LATITUDE,
    GIS_CONFIG.COORDINATE_LIMITS.MAX_LATITUDE,
    GIS_CONFIG.COORDINATE_LIMITS.MIN_LONGITUDE,
    GIS_CONFIG.COORDINATE_LIMITS.MAX_LONGITUDE.
  destruct (num_ge lat (-90) && num_le lat 90);
    destruct (num_ge lng (-180) && num_le lng 180); simpl; intros; try discriminate.
  reflexivity.
Qed.

Lemma isPointInBounds_iff pointLat pointLng bounds :
  isPointInBounds pointLat pointLng bounds = true <->
  south bounds <= pointLat <= north bounds /\
  west bounds <= pointLng <= east bounds.
Proof.
  unfold isPointInBounds.
  rewrite !andb_true_iff, !num_le_true, !num_ge_true. tauto.
Qed.

Lemma validateBounds_iff bounds :
  result (validateBounds bounds) = true <->
  -90 <= south bounds /\ south bounds < north bounds /\ north bounds <= 90 /\
  -180 <= west bounds /\ west bounds < east bounds /\ east bounds <= 180.
Proof.
  rewrite validateBounds_result, !andb_true_iff, !num_gt_true,
    !validateCoordinates_iff.
  split; intros; repeat split; lra.
Qed.
End MoreValidationFacts.

(** X11.  A box that passes [validateBounds] contains its four corners and
    its centre, and every point [isPointInBounds] finds inside it passes
    [validateCoordinates]. *)
Theorem valid_bounds_hold_valid_points :
  forall bounds : MapBounds,
    result (GISValidations.validateBounds bounds) = true ->
    GISValidations.isPointInBounds (north bounds) (east bounds) bounds = true /\
    GISValidations.isPointInBounds (north bounds) (west bounds) bounds = true /\
    GISValidations.isPointInBounds (south bounds) (east bounds) bounds = true /\
    GISValidations.isPointInBounds (south bounds) (west bounds) bounds = true /\
    GISValidations.isPointInBounds
      ((north bounds + south bounds) / 2) ((east bounds + west bounds) / 2) bounds
    = true /\
    (forall pointLat pointLng : number,
        GISValidations.isPointInBounds pointLat pointLng bounds = true ->
        result (GISValidations.validateCoordinates pointLat pointLng) = true).
Proof.
  intros bounds Hvalid. apply validateBounds_iff in Hvalid.
  repeat split; try (apply isPointInBounds_iff; lra).
  intros pointLat pointLng Hin. apply isPointInBounds_iff in Hin.
  apply validateCoordinates_iff. lra.
Qed.

Lemma valid_bounds_hold_valid_points_witness :
  result (GISValidations.validateCoordinates 15 12) = true.
Proof.
  assert (Hvalid : result (GISValidations.validateBounds (mkBounds 20 10 20 10)) = true).
  { apply validateBounds_iff. simpl. lra. }
  apply (proj2 (proj2 (proj2 (proj2 (proj2
           (valid_bounds_hold_valid_points (mkBounds 20 10 20 10) Hvalid))))) 15 12).
  apply isPointInBounds_iff. simpl. lra.
Defined.

(** X12.  [assertValidCoordinates] returns exactly when the coordinates
    are in range; otherwise it throws the [InvalidCoordinatesError] of these
    coordinates, which is a [TestError] that is not retryable. *)
Theorem assertValidCoordinates_spec :
  forall lat lng : number,
    (-90 <= lat <= 90 /\ -180 <= lng <= 180 ->
     GISValidations.assertValidCoordinates lat lng = (Return tt, [])) /\
    (~ (-90 <= lat <= 90 /\ -180 <= lng <= 180) ->
     result (GISValidations.assertValidCoordinates lat lng) =
       Throw (VTestError "InvalidCoordinatesError"
                [VText "Invalid coordinates: lat="; VNumber lat;
                 VText ", lng="; VNumber lng]
                [] (Some "INVALID_COORDINATES"%string) false) /\
     snd (GISValidations.assertValidCoordinates lat lng) =
       snd (GISValidations.validateCoordinates lat lng)).
Proof.
  intros lat lng. unfold GISValidations.assertValidCoordinates. split.
  - intros Hin. apply validateCoordinates_iff in Hin.
    pose proof (validateCoordinates_valid_log lat lng Hin) as Hlog.
    destruct (GISValidations.validateCoordinates lat lng) as [valid l].
    unfold result in Hin. simpl in Hin, Hlog. subst. reflexivity.
  - intros Hout. apply validateCoordinates_false in Hout.
    rewrite result_bind, log_bind, Hout. simpl.
    split; [reflexivity | apply app_nil_r].
Qed.

Lemma assertValidCoordinates_spec_witness :
  GISValidations.assertValidCoordinates 45 90 = (Return tt, []) /\
  result (GISValidations.assertValidCoordinates 91 0) =
    Throw (Errors.InvalidCoordinatesError 91 0 None).
Proof.
  split.
  - apply (proj1 (assertValidCoordinates_spec 45 90)). lra.
  - apply (proj2 (assertValidCoordinates_spec 91 0)). lra.
Defined.

Section ArrayFacts.
Import GISValidations.

Lemma every_valid_all (coordinates : list Coordinates) :
  Forall (fun c => result (validateCoordinates (lat c) (lng c)) = true) coordinates ->
  every_valid coordinates = (true, []).
Proof.
  induction 1 as [|c rest Hc _ IH]; [reflexivity|].
  cbn [every_valid].
  pose proof (validateCoordinates_valid_log _ _ Hc) as Hlog.
  destruct (validateCoordinates (lat c) (lng c)) as [valid l].
  unfold result in Hc. simpl in Hc, Hlog. subst.
  unfold bind. rewrite IH. reflexivity.
Qed.

Lemma every_valid_first_invalid (good rest : list Coordinates) (bad : Coordinates) :
  Forall (fun c => result (validateCoordinates (lat c) (lng c)) = true) good ->
  result (validateCoordinates (lat bad) (lng bad)) = false ->
  every_valid (good ++ bad :: rest) =
  (false, snd (validateCoordinates (lat bad) (lng bad))).
Proof.
  intros Hgood Hbad.
  induction Hgood as [|c good Hc _ IH].
  - cbn [app every_valid].
    destruct (validateCoordinates (lat bad) (lng bad)) as [valid l].
    unfold result in Hbad. simpl in Hbad. subst.
    unfold bind, ret. simpl. now rewrite app_nil_r.
  - cbn [app every_valid].
    pose proof (validateCoordinates_valid_log _ _ Hc) as Hlog.
    destruct (validateCoordinates (lat c) (lng c)) as [valid l].
    unfold result in Hc. simpl in Hc, Hlog. subst.
    unfold bind. rewrite IH. reflexivity.
Qed.

Lemma every_valid_result (coordinates : list Coordinates) :
  result (every_valid coordinates) = true <->
  Forall (fun c => result (validateCoordinates (lat c) (lng c)) = true) coordinates.
Proof.
  split.
  - induction coordinates as [|c rest IH]; intros Hall; [constructor|].
    cbn [every_valid] in Hall. rewrite result_bind in Hall.
    destruct (result (validateCoordinates (lat c) (lng c))) eqn:Hc.
    + constructor; [assumption | apply IH; assumption].
    + discriminate.
  - intros Hall. now rewrite every_valid_all.
Qed.
End ArrayFacts.

(** X13.  [validateCoordinateArray] rejects the empty array; a non-empty
    array passes exactly when every element passes [validateCoordinates].
    It stops at the first element that fails: the warnings written are those
    of that element alone, and later elements are not looked at. *)
Theorem validateCoordinateArray_spec :
  GISValidations.validateCoordinateArray [] = (false, []) /\
  (forall coordinates : list Coordinates,
      result (GISValidations.validateCoordinateArray coordinates) = true <->
      coordinates <> [] /\
      Forall (fun c => -90 <= lat c <= 90 /\ -180 <= lng c <= 180) coordinates) /\
  (forall (good rest : list Coordinates) (bad : Coordinates),
      Forall (fun c => -90 <= lat c <= 90 /\ -180 <= lng c <= 180) good ->
      ~ (-90 <= lat bad <= 90 /\ -180 <= lng bad <= 180) ->
      GISValidations.validateCoordinateArray (good ++ bad :: rest) =
      (false, snd (GISValidations.validateCoordinates (lat bad) (lng bad)))).
Proof.
  assert (Hsame : forall l,
             Forall (fun c => -90 <= lat c <= 90 /\ -180 <= lng c <= 180) l <->
             Forall (fun c => result (GISValidations.validateCoordinates
                                        (lat c) (lng c)) = true) l).
  { intros l. split; apply Forall_impl; intros c; apply validateCoordinates_iff. }
  split; [reflexivity|]. split.
  - intros [|c rest]; unfold GISValidations.validateCoordinateArray; cbn [length Nat.eqb].
    + split; [discriminate | intros [Hne _]; now elim Hne].
    + rewrite every_valid_result, <- Hsame. split; [intros H; split; [discriminate | exact H] | tauto].
  - intros good rest bad Hgood Hbad.
    unfold GISValidations.validateCoordinateArray.
    replace (length (good ++ bad :: rest) =? 0)%nat with false
      by (symmetry; apply Nat.eqb_neq; rewrite length_app; simpl; lia).
    apply every_valid_first_invalid.
    + apply Hsame. assumption.
    + apply validateCoordinates_false. assumption.
Qed.

Lemma validateCoordinateArray_spec_witness :
  GISValidations.validateCoordinateArray
    [mkCoord 1 2; mkCoord 95 0; mkCoord 0 500] =
  (false, snd (GISValidations.validateCoordinates 95 0)).
Proof.
  apply (proj2 (proj2 validateCoordinateArray_spec)
           [mkCoord 1 2] [mkCoord 0 500] (mkCoord 95 0)).
  - constructor; [simpl; lra | constructor].
  - simpl. lra.
Defined.

Section AssertFacts.
Import GISValidations.

Lemma assertZoomLevel_returns (current expected : R) (tolerance : option number) :
  result (assertZoomLevel (Some current) expected tolerance) = Return tt <->
  Rabs (current - expected) <= or_default tolerance 0.
Proof.
  unfold assertZoomLevel, GIS_CONFIG.VALIDATION_THRESHOLDS.ZOOM_TOLERANCE.
  set (tol := or_default tolerance 0).
  destruct (num_eq tol 0) eqn:Hzero.
  - apply num_eq_true in Hzero. rewrite Hzero.
    destruct (num_eq current expected) eqn:Hsame; cbn [negb].
    + apply num_eq_true in Hsame. subst.
      rewrite result_bind. split; [intros _ | reflexivity].
      unfold Rminus. rewrite Rplus_opp_r, Rabs_R0. lra.
    + apply num_eq_false in Hsame. split; [discriminate|].
      intros Hle. exfalso. apply Hsame.
      pose proof (Rabs_pos (current - expected)).
      assert (Rabs (current - expected) = 0) by lra.
      destruct (Req_dec (current - expected) 0) as [Hz | Hnz]; [lra|].
      apply Rabs_no_R0 in Hnz. contradiction.
  - destruct (num_gt (Math.abs (current - expected)) tol) eqn:Hgt.
    + apply num_gt_true in Hgt. split; [discriminate | lra].
    + apply num_gt_false in Hgt. rewrite result_bind.
      split; [intros _; exact Hgt | reflexivity].
Qed.

Lemma assertMapCenter_returns (center : Coordinates) (expectedLat expectedLng : R)
      (tolerance : option number) :
  result (assertMapCenter (Some center) expectedLat expectedLng tolerance)
  = Return tt <->
  Rabs (lat center - expectedLat) <= or_default tolerance (1 / 100) /\
  Rabs (lng center - expectedLng) <= or_default tolerance (1 / 100).
Proof.
  unfold assertMapCenter, GIS_CONFIG.VALIDATION_THRESHOLDS.COORDINATE_TOLERANCE.
  set (tol := or_default tolerance (1 / 100)).
  destruct (num_gt (Math.abs (lat center - expectedLat)) tol) eqn:Hlat;
    destruct (num_gt (Math.abs (lng center - expectedLng)) tol) eqn:Hlng;
    cbn [orb];
    try apply num_gt_true in Hlat; try apply num_gt_false in Hlat;
    try apply num_gt_true in Hlng; try apply num_gt_false in Hlng;
    try (split; [discriminate | lra]).
  rewrite result_bind. split; [intros _; split; assumption | reflexivity].
Qed.
End AssertFacts.

(** X14.  [assertZoomLevel] with a tolerance of 0 (the default) returns
    exactly when the zoom level the page gave equals the expected one.  With
    a positive tolerance [assertZoomLevel] and [assertMapCenter] (whose
    default is 0.01) return when the difference, for the centre both
    differences, is at most half the tolerance, and throw when a difference
    is at least twice the tolerance; a negative tolerance makes both throw
    always; and [assertZoomLevel] gives the same verdict when the current
    and the expected level are swapped.  Without a value from the page both
    throw their 'not available' [ValidationError].  (Over the reals the
    line between returning and throwing is the tolerance itself; on doubles
    the rounded difference is compared, which moves the line by a
    rounding.) *)
Theorem assert_within_tolerance :
  (forall current expected : number,
      result (GISValidations.assertZoomLevel (Some current) expected None)
      = Return tt <-> current = expected) /\
  (forall current expected tolerance : number,
      0 < tolerance ->
      (Rabs (current - expected) <= tolerance / 2 ->
       result (GISValidations.assertZoomLevel (Some current) expected
                 (Some tolerance)) = Return tt) /\
      (2 * tolerance <= Rabs (current - expected) ->
       result (GISValidations.assertZoomLevel (Some current) expected
                 (Some tolerance)) <> Return tt)) /\
  (forall (center : Coordinates) (expectedLat expectedLng : number)
          (tolerance : option number),
      0 < or_default tolerance (1 / 100) ->
      (Rabs (lat center - expectedLat) <= or_default tolerance (1 / 100) / 2 ->
       Rabs (lng center - expectedLng) <= or_default tolerance (1 / 100) / 2 ->
       result (GISValidations.assertMapCenter (Some center) expectedLat
                 expectedLng tolerance) = Return tt) /\
      (2 * or_default tolerance (1 / 100) <= Rabs (lat center - expectedLat) \/
       2 * or_default tolerance (1 / 100) <= Rabs (lng center - expectedLng) ->
       result (GISValidations.assertMapCenter (Some center) expectedLat
                 expectedLng tolerance) <> Return tt)) /\
  (forall (current expected tolerance : number) (center : Coordinates),
      tolerance < 0 ->
      result (GISValidations.assertZoomLevel (Some current) expected
                (Some tolerance)) <> Return tt /\
      result (GISValidations.assertMapCenter (Some center) current expected
                (Some tolerance)) <> Return tt) /\
  (forall (current expected : number) (tolerance : option number),
      result (GISValidations.assertZoomLevel (Some current) expected tolerance)
      = Return tt <->
      result (GISValidations.assertZoomLevel (Some expected) current tolerance)
      = Return tt) /\
  (forall (expected : number) (tolerance : option number),
      GISValidations.assertZoomLevel None expected tolerance =
      (Throw (Errors.ValidationError "Zoom level not available"
                (VNumber expected) VUndefined None), [])) /\
  (forall (expectedLat expectedLng : number) (tolerance : option number),
      exists expected,
        GISValidations.assertMapCenter None expectedLat expectedLng tolerance =
        (Throw (Errors.ValidationError "Map center not available"
                  expected VNull None), [])).
Proof.
  split; [|split; [|split; [|split; [|split; [|split]]]]].
  - intros current expected. rewrite assertZoomLevel_returns. cbn [or_default].
    split.
    + intros Hle. pose proof (Rabs_pos (current - expected)).
      destruct (Req_dec (current - expected) 0) as [Hz | Hnz]; [lra|].
      apply Rabs_no_R0 in Hnz. lra.
    + intros ->. unfold Rminus. rewrite Rplus_opp_r, Rabs_R0. lra.
  - intros current expected tolerance Hpos. split.
    + intros Hnear. apply assertZoomLevel_returns. cbn [or_default]. lra.
    + intros Hfar Hret. apply assertZoomLevel_returns in Hret.
      cbn [or_default] in Hret. lra.
  - intros center expectedLat expectedLng tolerance Hpos. split.
    + intros Hlat Hlng. apply assertMapCenter_returns. lra.
    + intros Hfar Hret. apply assertMapCenter_returns in Hret. lra.
  - intros current expected tolerance center Hneg. split.
    + intros Hret. apply assertZoomLevel_returns in Hret. cbn [or_default] in Hret.
      pose proof (Rabs_pos (current - expected)). lra.
    + intros Hret. apply assertMapCenter_returns in Hret. cbn [or_default] in Hret.
      pose proof (Rabs_pos (lat center - current)). lra.
  - intros current expected tolerance.
    now rewrite !assertZoomLevel_returns, Rabs_minus_sym.
  - reflexivity.
  - intros. eexists. reflexivity.
Qed.

Lemma assert_within_tolerance_witness :
  result (GISValidations.assertZoomLevel (Some 10) 12 (Some (1 / 2))) <> Return tt /\
  result (GISValidations.assertMapCenter (Some (mkCoord 1 2)) 1 (2001 / 1000) None)
  = Return tt.
Proof.
  split.
  - apply (proj1 (proj2 assert_within_tolerance) 10 12 (1 / 2)); [lra|].
    replace (10 - 12) with (- (2)) by ring.
    rewrite Rabs_Ropp, Rabs_pos_eq; lra.
  - apply (proj1 (proj2 (proj2 assert_within_tolerance)) (mkCoord 1 2) 1
             (2001 / 1000) None); cbn [or_default lat lng]; [lra | |].
    + replace (1 - 1) with 0 by ring. rewrite Rabs_R0. lra.
    + replace (2 - 2001 / 1000) with (- (1 / 1000)) by field.
      rewrite Rabs_Ropp, Rabs_pos_eq; lra.
Defined.

Section MapBoundsFacts.
Import GISValidations.

Lemma assertValidMapBounds_returns (bounds : MapBounds) :
  result (assertValidMapBounds (Some bounds)) = Return tt <->
  result (validateBounds bounds) = true.
Proof.
  unfold assertValidMapBounds.
  destruct (num_le (north bounds) (south bounds)) eqn:Hns.
  - apply num_le_true in Hns. split; [discriminate|].
    intros Hvalid. apply validateBounds_iff in Hvalid. lra.
  - destruct (num_le (east bounds) (west bounds)) eqn:Hew.
    + apply num_le_true in Hew. split; [discriminate|].
      intros Hvalid. apply validateBounds_iff in Hvalid. lra.
    + rewrite result_bind.
      destruct (result (validateBounds bounds)); cbn [negb].
      * rewrite result_bind. split; reflexivity.
      * split; discriminate.
Qed.

Lemma assertValidMapBounds_inverted (bounds : MapBounds) :
  north bounds <= south bounds ->
  exists context,
    assertValidMapBounds (Some bounds) =
    (Throw (Errors.ValidationError "Invalid bounds: north <= south"
              (VText "north > south") (bounds_value bounds) context), []).
Proof.
  intros Hns. unfold assertValidMapBounds.
  apply num_le_true in Hns. rewrite Hns. eexists. reflexivity.
Qed.

Lemma assertValidMapBounds_out_of_range (bounds : MapBounds) :
  south bounds < north bounds -> west bounds < east bounds ->
  result (validateBounds bounds) = false ->
  result (assertValidMapBounds (Some bounds)) =
  Throw (Errors.ValidationError "Map bounds contain invalid coordinates"
           (VText "valid coordinates") (bounds_value bounds) None).
Proof.
  intros Hns Hew Hinvalid. unfold assertValidMapBounds.
  apply num_le_false in Hns. apply num_le_false in Hew.
  rewrite Hns, Hew, result_bind, Hinvalid. reflexivity.
Qed.
End MapBoundsFacts.

(** X15.  [assertValidMapBounds] returns exactly when the page gave bounds
    that pass [validateBounds]: its own tests [north <= south] and
    [east <= west] reject nothing that [validateBounds] accepts.  Which
    error it throws is decided in this order: 'not available' without
    bounds; 'north <= south' for an inverted box, before its coordinates
    are looked at (no range warning is written); 'east <= west' for a box
    with [north > south] and [east <= west]; and 'contain invalid
    coordinates' exactly for a box with [north > south] and [east > west]
    that [validateBounds] rejects. *)
Theorem assertValidMapBounds_spec :
  (forall bounds : MapBounds,
      result (GISValidations.assertValidMapBounds (Some bounds)) = Return tt <->
      result (GISValidations.validateBounds bounds) = true) /\
  (exists expected,
      GISValidations.assertValidMapBounds None =
      (Throw (Errors.ValidationError "Map bounds not available" expected VNull None),
       [])) /\
  (forall bounds : MapBounds,
      north bounds <= south bounds ->
      exists context,
        GISValidations.assertValidMapBounds (Some bounds) =
        (Throw (Errors.ValidationError "Invalid bounds: north <= south"
                  (VText "north > south") (GISValidations.bounds_value bounds)
                  context), [])) /\
  (forall bounds : MapBounds,
      south bounds < north bounds -> east bounds <= west bounds ->
      exists context,
        GISValidations.assertValidMapBounds (Some bounds) =
        (Throw (Errors.ValidationError "Invalid bounds: east <= west"
                  (VText "east > west") (GISValidations.bounds_value bounds)
                  context), [])) /\
  (forall bounds : MapBounds,
      (south bounds < north bounds /\ west bounds < east bounds /\
       result (GISValidations.validateBounds bounds) = false) <->
      result (GISValidations.assertValidMapBounds (Some bounds)) =
      Throw (Errors.ValidationError "Map bounds contain invalid coordinates"
               (VText "valid coordinates") (GISValidations.bounds_value bounds)
               None)).
Proof.
  split; [exact assertValidMapBounds_returns|].
  split; [eexists; reflexivity|].
  split; [exact assertValidMapBounds_inverted|].
  split.
  - intros bounds Hns Hew. unfold GISValidations.assertValidMapBounds.
    apply num_le_false in Hns. apply num_le_true in Hew. rewrite Hns, Hew.
    eexists. reflexivity.
  - intros bounds. split.
    + intros (Hns & Hew & Hinvalid).
      now apply assertValidMapBounds_out_of_range.
    + unfold GISValidations.assertValidMapBounds.
      destruct (num_le (north bounds) (south bounds)) eqn:Hns;
        [cbn; unfold Errors.ValidationError; discriminate|].
      destruct (num_le (east bounds) (west bounds)) eqn:Hew;
        [cbn; unfold Errors.ValidationError; discriminate|].
      apply num_le_false in Hns. apply num_le_false in Hew.
      rewrite result_bind.
      destruct (result (GISValidations.validateBounds bounds)); cbn [negb].
      * rewrite result_bind. discriminate.
      * intros _. now repeat split.
Qed.

Lemma assertValidMapBounds_spec_witness :
  (exists context,
      GISValidations.assertValidMapBounds (Some (mkBounds 10 20 500 (-500))) =
      (Throw (Errors.ValidationError "Invalid bounds: north <= south"
                (VText "north > south")
                (GISValidations.bounds_value (mkBounds 10 20 500 (-500)))
                context), [])) /\
  (exists context,
      GISValidations.assertValidMapBounds (Some (mkBounds 20 10 10 20)) =
      (Throw (Errors.ValidationError "Invalid bounds: east <= west"
                (VText "east > west")
                (GISValidations.bounds_value (mkBounds 20 10 10 20))
                context), [])) /\
  result (GISValidations.assertValidMapBounds (Some (mkBounds 20 10 500 10))) =
  Throw (Errors.ValidationError "Map bounds contain invalid coordinates"
           (VText "valid coordinates")
           (GISValidations.bounds_value (mkBounds 20 10 500 10)) None).
Proof.
  destruct assertValidMapBounds_spec as (_ & _ & Hinv & Heast & Hout).
  split; [|split].
  - apply Hinv. simpl. lra.
  - apply Heast; simpl; lra.
  - apply Hout. simpl. split; [lra|]. split; [lra|].
    apply not_true_is_false. rewrite validateBounds_iff. simpl. lra.
Defined.

(** X16.  [validateCoordinateChange] does not depend on which of the two
    coordinates is the old one and never reports a change between a
    coordinate and itself (for a threshold that is not negative, such as
    the default 0.000001).  For a positive threshold it reports a change
    when the latitude or the longitude moved by at least twice the
    threshold, and none when both moved by at most half of it.  (Over the
    reals the line between the two answers is the threshold itself; on
    doubles the rounded difference is compared, which moves the line by a
    rounding.) *)
Theorem validateCoordinateChange_spec :
  (forall (a b : Coordinates) (minThreshold : option number),
      GISValidations.validateCoordinateChange a b minThreshold =
      GISValidations.validateCoordinateChange b a minThreshold) /\
  (forall (a : Coordinates) (minThreshold : option number),
      0 <= or_default minThreshold (1 / 1000000) ->
      GISValidations.validateCoordinateChange a a minThreshold = false) /\
  (forall (a b : Coordinates) (minThreshold : option number),
      0 < or_default minThreshold (1 / 1000000) ->
      (2 * or_default minThreshold (1 / 1000000) <= Rabs (lat b - lat a) \/
       2 * or_default minThreshold (1 / 1000000) <= Rabs (lng b - lng a) ->
       GISValidations.validateCoordinateChange a b minThreshold = true) /\
      (Rabs (lat b - lat a) <= or_default minThreshold (1 / 1000000) / 2 ->
       Rabs (lng b - lng a) <= or_default minThreshold (1 / 1000000) / 2 ->
       GISValidations.validateCoordinateChange a b minThreshold = false)).
Proof.
  unfold GISValidations.validateCoordinateChange,
    GIS_CONFIG.VALIDATION_THRESHOLDS.COORDINATE_CHANGE_MIN.
  split; [|split].
  - intros a b t.
    now rewrite (Rabs_minus_sym (lat b)), (Rabs_minus_sym (lng b)).
  - intros a t Ht. apply orb_false_iff.
    unfold Rminus. rewrite !Rplus_opp_r, Rabs_R0, !num_gt_false. lra.
  - intros a b t Ht. split.
    + intros Hfar. apply orb_true_iff. rewrite !num_gt_true.
      destruct Hfar; [left | right]; lra.
    + intros Hlat Hlng. apply orb_false_iff. rewrite !num_gt_false. lra.
Qed.

Lemma validateCoordinateChange_spec_witness :
  GISValidations.validateCoordinateChange (mkCoord 1 2) (mkCoord 1 2) None = false /\
  GISValidations.validateCoordinateChange (mkCoord 1 2) (mkCoord 1 3) None = true.
Proof.
  split.
  - apply (proj1 (proj2 validateCoordinateChange_spec) (mkCoord 1 2) None).
    simpl. lra.
  - apply (proj2 (proj2 validateCoordinateChange_spec) (mkCoord 1 2) (mkCoord 1 3)
             None); cbn [or_default lat lng]; [lra|].
    right. replace (3 - 2) with 1 by ring. rewrite Rabs_R1. lra.
Defined.

(** * Further properties of the condition poller *)

Section PollTermination.
Import GISWaitStrategies.

Variable World : Type.
Variable Date_now : World -> Z * World.
Variable waitForTimeout : Z -> World -> Pause * World.
Variable logLevel : Level.
Variable condition : World -> Settled * World.

(** The time the clock shows in a world. *)
Let time (w : World) : Z := fst (Date_now w).

(** The clock does not run backwards, and a pause that elapses lasts at
    least as long as asked. *)
Hypothesis reading_keeps_time : forall w, (time w <= time (snd (Date_now w)))%Z.
Hypothesis evaluating_keeps_time : forall w, (time w <= time (snd (condition w)))%Z.
Hypothesis pausing_takes_time :
  forall ms w,
    fst (waitForTimeout ms w) = Elapsed ->
    (time w + ms <= time (snd (waitForTimeout ms w)))%Z.

Lemma poll_ends startTime timeout interval description (n : nat) :
  (0 <= interval)%Z ->
  forall (fuel : nat) (w : World),
    (timeout - (time w - startTime) <= Z.of_nat n * interval)%Z ->
    (n < fuel)%nat ->
    let out :=
      poll World Date_now waitForTimeout logLevel condition startTime timeout
        interval description fuel w in
    completion out <> StillPolling /\ (evaluations (trace out) <= n)%nat.
Proof.
  intros Hinterval.
  induction n as [|n IH]; intros fuel w Hleft Hfuel;
    (destruct fuel as [|fuel]; [lia|]); cbv zeta; rewrite poll_turn; cbv zeta.
  - unfold time in Hleft. destruct (Date_now w) as [now w1]. cbn [fst] in Hleft.
    replace (now - startTime <? timeout)%Z with false
      by (symmetry; apply Z.ltb_ge; lia).
    split; [discriminate | cbn; lia].
  - pose proof (reading_keeps_time w) as Hread.
    unfold time in Hleft, Hread at 1.
    destruct (Date_now w) as [now w1]. cbn [fst snd] in Hleft, Hread.
    destruct (now - startTime <? timeout)%Z; [|split; [discriminate | cbn; lia]].
    pose proof (evaluating_keeps_time w1) as Heval.
    assert (Hpause :
              forall events w2,
                (time w1 <= time w2)%Z ->
                (evaluations events <= 1)%nat ->
                let paused :=
                  match waitForTimeout interval w2 with
                  | (Elapsed, w3) =>
                      after World (events ++ [Slept interval])
                        (poll World Date_now waitForTimeout logLevel condition
                           startTime timeout interval description fuel w3)
                  | (Interrupted error, w3) =>
                      (Threw error, w3, events ++ [PauseFailed interval error])
                  end in
                completion paused <> StillPolling /\
                (evaluations (trace paused) <= S n)%nat).
    { intros events w2 Hlater Hone. cbv zeta.
      pose proof (pausing_takes_time interval w2) as Htakes.
      destruct (waitForTimeout interval w2) as [[|failure] w3]; cbn [fst snd] in Htakes.
      - destruct (IH fuel w3) as [Hend Hcount]; [specialize (Htakes eq_refl); lia | lia |].
        rewrite completion_after, trace_after, !evaluations_app.
        split; [exact Hend|].
        change (evaluations [Slept interval]) with 0%nat. lia.
      - cbn [completion trace fst snd]. rewrite evaluations_app.
        split; [discriminate|].
        change (evaluations [PauseFailed interval failure]) with 0%nat. lia. }
    destruct (condition w1) as [[[|] | thrown] w2]; cbn [snd] in Heval.
    + split; [discriminate|]. cbn [trace snd].
      rewrite evaluations_app, evaluations_debug. cbn. lia.
    + apply Hpause; [exact Heval | cbn; lia].
    + destruct (interpolated thrown) as [raised|text].
      * split; [discriminate | cbn; lia].
      * apply Hpause; [exact Heval|].
        rewrite evaluations_app, evaluations_debug. cbn. lia.
Qed.
End PollTermination.

(** X17.  With a clock that does not run backwards and a pause that, when it
    elapses, lasts at least as long as asked, [waitForCondition] always
    ends: as soon as [n * interval] covers the timeout it returns or throws
    within [n + 1] turns of the loop, and it evaluates the predicate at most
    [n] times.  When moreover the pause never fails and the exceptions of
    the predicate have a text, what it throws is its [TimeoutError]. *)
Theorem waitForCondition_ends :
  forall (World : Type) (Date_now : World -> Z * World)
         (waitForTimeout : Z -> World -> GISWaitStrategies.Pause * World)
         (logLevel : Level)
         (condition : World -> GISWaitStrategies.Settled * World)
         (options : GISWaitStrategies.WaitOptions) (n fuel : nat) (w : World),
    let timeout :=
      GISWaitStrategies.default_to 5000%Z (GISWaitStrategies.timeout options) in
    let interval :=
      GISWaitStrategies.default_to 100%Z (GISWaitStrategies.interval options) in
    let description :=
      GISWaitStrategies.default_to "condition"%string
        (GISWaitStrategies.description options) in
    let out :=
      GISWaitStrategies.waitForCondition World Date_now waitForTimeout logLevel
        condition options fuel w in
    (forall w, (fst (Date_now w) <= fst (Date_now (snd (Date_now w))))%Z) ->
    (forall w, (fst (Date_now w) <= fst (Date_now (snd (condition w))))%Z) ->
    (forall ms w,
        fst (waitForTimeout ms w) = GISWaitStrategies.Elapsed ->
        (fst (Date_now w) + ms <= fst (Date_now (snd (waitForTimeout ms w))))%Z) ->
    (0 <= interval)%Z -> (timeout <= Z.of_nat n * interval)%Z -> (n < fuel)%nat ->
    GISWaitStrategies.completion out <> GISWaitStrategies.StillPolling /\
    (GISWaitStrategies.evaluations (GISWaitStrategies.trace out) <= n)%nat /\
    ((forall ms w, fst (waitForTimeout ms w) = GISWaitStrategies.Elapsed) ->
     GISWaitStrategies.throws_text condition ->
     GISWaitStrategies.completion out = GISWaitStrategies.Returned \/
     GISWaitStrategies.completion out =
       GISWaitStrategies.Threw (TimeoutError ("Waiting for " ++ description) timeout)).
Proof.
  intros World Date_now waitForTimeout logLevel condition options n fuel w. cbv zeta.
  intros Hread Heval Hpause Hinterval Hcover Hfuel.
  unfold GISWaitStrategies.waitForCondition.
  pose proof (Hread w) as Hstart.
  destruct (Date_now w) as [startTime w1]. cbn [fst snd] in Hstart.
  rewrite completion_after, trace_after, !evaluations_app, evaluations_debug.
  match goal with
  | |- context [GISWaitStrategies.poll _ _ _ _ _ ?s ?t ?i ?d ?f ?x] =>
      destruct (poll_ends World Date_now waitForTimeout logLevel condition
                  Hread Heval Hpause s t i d n Hinterval f x)
        as [Hend Hcount]; [lia | exact Hfuel |];
      pose proof (poll_threw_timeout World Date_now waitForTimeout logLevel
                    condition s t i d f) as Hthrew
  end.
  split; [exact Hend|]. split.
  - change (GISWaitStrategies.evaluations [GISWaitStrategies.ClockRead startTime])
      with 0%nat.
    cbn [Nat.add]. exact Hcount.
  - intros Hresolves Htext.
    destruct (GISWaitStrategies.completion _) as [| error |] eqn:Hc.
    + left. reflexivity.
    + right. destruct (Hthrew Hresolves Htext w1 error Hc) as [-> _]. reflexivity.
    + contradiction.
Qed.

Lemma waitForCondition_ends_witness :
  let out :=
    Scripted.run (GISWaitStrategies.mkOptions (Some 200%Z) (Some 50%Z) None) 5
      (Scripted.mkWorld 0 []) in
  GISWaitStrategies.completion out <> GISWaitStrategies.StillPolling /\
  (GISWaitStrategies.evaluations (GISWaitStrategies.trace out) <= 4)%nat.
Proof.
  destruct (waitForCondition_ends Scripted.World Scripted.Date_now
              Scripted.waitForTimeout Info Scripted.condition
              (GISWaitStrategies.mkOptions (Some 200%Z) (Some 50%Z) None) 4 5
              (Scripted.mkWorld 0 [])) as (Hend & Hcount & _).
  - intros w. simpl. lia.
  - intros w. unfold Scripted.condition. destruct (Scripted.script w); simpl; lia.
  - intros ms w _. simpl. lia.
  - simpl. lia.
  - simpl. lia.
  - lia.
  - split; [exact Hend | exact Hcount].
Defined.

Section LegacyPollFacts.
Import GISWaitStrategies.

Variable World : Type.
Variable Date_now : World -> Z * World.
Variable waitForTimeout : Z -> World -> Pause * World.

Lemma legacy_completion_after events (o : GISHelpersWait.Outcome World) :
  GISHelpersWait.completion (GISHelpersWait.after World events o) =
  GISHelpersWait.completion o.
Proof. destruct o as [[c w] t]. reflexivity. Qed.

Lemma legacy_final_world_after events (o : GISHelpersWait.Outcome World) :
  GISHelpersWait.final_world (GISHelpersWait.after World events o) =
  GISHelpersWait.final_world o.
Proof. destruct o as [[c w] t]. reflexivity. Qed.

Lemma legacy_trace_after events (o : GISHelpersWait.Outcome World) :
  GISHelpersWait.trace (GISHelpersWait.after World events o) =
  events ++ GISHelpersWait.trace o.
Proof. destruct o as [[c w] t]. reflexivity. Qed.

(** On a predicate that does not throw the two loops take the same turns. *)
Lemma legacy_poll_agrees logLevel condition startTime timeout interval
      description fuel :
  (forall w, exists answer, fst (condition w) = Fulfilled answer) ->
  forall w,
    let legacy :=
      GISHelpersWait.poll World Date_now waitForTimeout condition startTime
        timeout interval description fuel w in
    let current :=
      poll World Date_now waitForTimeout logLevel condition startTime timeout
        interval description fuel w in
    GISHelpersWait.same_ending description timeout
      (GISHelpersWait.completion legacy) (completion current) /\
    GISHelpersWait.final_world legacy = final_world current /\
    evaluations (GISHelpersWait.trace legacy) = evaluations (trace current) /\
    clock_reads (GISHelpersWait.trace legacy) = clock_reads (trace current).
Proof.
  intros Hquiet.
  induction fuel as [|fuel IH]; intros w; cbv zeta; [now repeat split|].
  rewrite poll_turn. cbn [GISHelpersWait.poll]. cbv zeta.
  destruct (Date_now w) as [now w1].
  destruct (now - startTime <? timeout)%Z.
  2:{ split; [left; now split | now repeat split]. }
  destruct (Hquiet w1) as [answer Hanswer].
  destruct (condition w1) as [settled w2]. cbn [fst] in Hanswer. subst settled.
  destruct answer.
  { cbn [GISHelpersWait.completion GISHelpersWait.final_world GISHelpersWait.trace
         completion final_world trace fst snd GISHelpersWait.same_ending].
    rewrite evaluations_app, clock_reads_app, evaluations_debug, clock_reads_debug.
    now repeat split. }
  destruct (waitForTimeout interval w2) as [[|failure] w3].
  - destruct (IH w3) as (Hc & Hw & He & Hr).
    rewrite legacy_completion_after, legacy_final_world_after, legacy_trace_after,
      completion_after, final_world_after, trace_after,
      !evaluations_app, !clock_reads_app, Hw, He, Hr.
    now repeat split.
  - split; [right; reflexivity | now repeat split].
Qed.

(** A predicate that throws ends the legacy loop at once. *)
Lemma legacy_poll_rethrows condition startTime timeout interval description fuel
      w now w1 error w2 :
  Date_now w = (now, w1) -> (now - startTime < timeout)%Z ->
  condition w1 = (Rejected error, w2) ->
  GISHelpersWait.poll World Date_now waitForTimeout condition startTime timeout
    interval description (S fuel) w =
  (GISHelpersWait.Threw (value_of_thrown error), w2,
   [ClockRead now; Evaluated (Rejected error)]).
Proof.
  intros Hnow Hcheck Hcond. cbn [GISHelpersWait.poll].
  apply Z.ltb_lt in Hcheck. now rewrite Hnow, Hcheck, Hcond.
Qed.

(** Where an event sits in a list that starts with another kind of event. *)
Lemma later_in_list {A} (x y : A) (l earlier later : list A) :
  x :: l = earlier ++ y :: later -> x <> y ->
  exists earlier', earlier = x :: earlier' /\ l = earlier' ++ y :: later.
Proof.
  destruct earlier as [|e earlier]; cbn [app]; intros [= -> ->] Hother.
  - now destruct Hother.
  - now exists earlier.
Qed.

(** In a legacy run an evaluation that threw is the last event, and the
    call throws what the predicate threw. *)
Lemma legacy_poll_stops condition startTime timeout interval description fuel :
  forall w earlier error later,
    GISHelpersWait.trace
      (GISHelpersWait.poll World Date_now waitForTimeout condition startTime
         timeout interval description fuel w)
    = earlier ++ Evaluated (Rejected error) :: later ->
    later = [] /\
    GISHelpersWait.completion
      (GISHelpersWait.poll World Date_now waitForTimeout condition startTime
         timeout interval description fuel w)
    = GISHelpersWait.Threw (value_of_thrown error).
Proof.
  induction fuel as [|fuel IH]; intros w earlier error later.
  { cbn. intros H. now destruct (app_cons_not_nil _ _ _ H). }
  cbn [GISHelpersWait.poll].
  destruct (Date_now w) as [now w1].
  destruct (now - startTime <? timeout)%Z.
  2:{ cbn [GISHelpersWait.trace snd]. intros H.
      apply later_in_list in H; [|discriminate].
      destruct H as (e1 & _ & H). now destruct (app_cons_not_nil _ _ _ H). }
  destruct (condition w1) as [[[|] | thrown] w2].
  - cbn [GISHelpersWait.trace snd]. intros H.
    apply later_in_list in H; [|discriminate]. destruct H as (e1 & _ & H).
    apply later_in_list in H; [|discriminate]. destruct H as (e2 & _ & H).
    apply later_in_list in H; [|discriminate]. destruct H as (e3 & _ & H).
    now destruct (app_cons_not_nil _ _ _ H).
  - destruct (waitForTimeout interval w2) as [[|failure] w3].
    + rewrite legacy_trace_after, legacy_completion_after. cbn [app]. intros H.
      apply later_in_list in H; [|discriminate]. destruct H as (e1 & _ & H).
      apply later_in_list in H; [|discriminate]. destruct H as (e2 & _ & H).
      apply later_in_list in H; [|discriminate]. destruct H as (e3 & _ & H).
      exact (IH _ _ _ _ H).
    + cbn [GISHelpersWait.trace snd]. intros H.
      apply later_in_list in H; [|discriminate]. destruct H as (e1 & _ & H).
      apply later_in_list in H; [|discriminate]. destruct H as (e2 & _ & H).
      apply later_in_list in H; [|discriminate]. destruct H as (e3 & _ & H).
      now destruct (app_cons_not_nil _ _ _ H).
  - cbn [GISHelpersWait.trace GISHelpersWait.completion fst snd]. intros H.
    apply later_in_list in H; [|discriminate]. destruct H as (e1 & _ & H).
    destruct e1 as [|e e1]; cbn [app] in H.
    + injection H as <- <-. now split.
    + injection H as _ H. now destruct (app_cons_not_nil _ _ _ H).
Qed.
End LegacyPollFacts.

(** X18.  The legacy [GISHelpers.waitForCondition] and the current one take
    the same turns on a predicate that never throws: they end alike (both
    return, or both throw what the pause failed with, or both throw at the
    end of the time, the legacy one a plain [Error] and the current one a
    [TimeoutError]), in the same world, after the same evaluations and
    clock readings.  On a predicate that throws they part: the legacy call
    lets every exception out at once.  In each of its runs an evaluation
    that threw is the last event, with no pause and no further evaluation
    after it, and the call throws the very value the predicate threw; an
    exception at the first evaluation within the timeout ends the call
    after that one evaluation. *)
Theorem legacy_waitForCondition_spec :
  (forall (World : Type) (Date_now : World -> Z * World)
          (waitForTimeout : Z -> World -> GISWaitStrategies.Pause * World)
          (logLevel : Level)
          (condition : World -> GISWaitStrategies.Settled * World)
          (options : GISWaitStrategies.WaitOptions) (fuel : nat) (w : World),
      (forall w, exists answer,
            fst (condition w) = GISWaitStrategies.Fulfilled answer) ->
      let legacy :=
        GISHelpersWait.waitForCondition World Date_now waitForTimeout condition
          options fuel w in
      let current :=
        GISWaitStrategies.waitForCondition World Date_now waitForTimeout logLevel
          condition options fuel w in
      GISHelpersWait.same_ending
        (GISWaitStrategies.default_to "condition"%string
           (GISWaitStrategies.description options))
        (GISWaitStrategies.default_to 5000%Z (GISWaitStrategies.timeout options))
        (GISHelpersWait.completion legacy)
        (GISWaitStrategies.completion current) /\
      GISHelpersWait.final_world legacy = GISWaitStrategies.final_world current /\
      GISWaitStrategies.evaluations (GISHelpersWait.trace legacy) =
        GISWaitStrategies.evaluations (GISWaitStrategies.trace current) /\
      GISWaitStrategies.clock_reads (GISHelpersWait.trace legacy) =
        GISWaitStrategies.clock_reads (GISWaitStrategies.trace current)) /\
  (forall (World : Type) (Date_now : World -> Z * World)
          (waitForTimeout : Z -> World -> GISWaitStrategies.Pause * World)
          (condition : World -> GISWaitStrategies.Settled * World)
          (options : GISWaitStrategies.WaitOptions) (fuel : nat) (w : World)
          (earlier later : list GISWaitStrategies.Event) (error : Thrown),
      let legacy :=
        GISHelpersWait.waitForCondition World Date_now waitForTimeout condition
          options fuel w in
      GISHelpersWait.trace legacy =
        earlier ++
        GISWaitStrategies.Evaluated (GISWaitStrategies.Rejected error) :: later ->
      later = [] /\
      GISHelpersWait.completion legacy =
        GISHelpersWait.Threw (value_of_thrown error)) /\
  (forall (World : Type) (Date_now : World -> Z * World)
          (waitForTimeout : Z -> World -> GISWaitStrategies.Pause * World)
          (condition : World -> GISWaitStrategies.Settled * World)
          (options : GISWaitStrategies.WaitOptions) (fuel : nat) (w : World)
          (error : Thrown),
      let startTime := fst (Date_now w) in
      let now := fst (Date_now (snd (Date_now w))) in
      let firstEvaluation := fst (condition (snd (Date_now (snd (Date_now w))))) in
      let legacy :=
        GISHelpersWait.waitForCondition World Date_now waitForTimeout condition
          options (S fuel) w in
      (now - startTime <
       GISWaitStrategies.default_to 5000 (GISWaitStrategies.timeout options))%Z ->
      firstEvaluation = GISWaitStrategies.Rejected error ->
      GISHelpersWait.completion legacy =
        GISHelpersWait.Threw (value_of_thrown error) /\
      GISWaitStrategies.evaluations (GISHelpersWait.trace legacy) = 1%nat).
Proof.
  split; [|split].
  - intros World Date_now waitForTimeout logLevel condition options fuel w Hquiet.
    cbv zeta.
    unfold GISHelpersWait.waitForCondition, GISWaitStrategies.waitForCondition.
    destruct (Date_now w) as [startTime w1].
    rewrite legacy_completion_after, legacy_final_world_after, legacy_trace_after,
      completion_after, final_world_after, trace_after,
      !evaluations_app, !clock_reads_app, evaluations_debug, clock_reads_debug.
    match goal with
    | |- context [GISWaitStrategies.poll _ _ _ _ _ ?s ?t ?i ?d ?f ?x] =>
        destruct (legacy_poll_agrees World Date_now waitForTimeout logLevel
                    condition s t i d f Hquiet x) as (Hc & Hw & He & Hr)
    end.
    rewrite Hw, He, Hr, app_nil_r. now repeat split.
  - intros World Date_now waitForTimeout condition options fuel w earlier later
      error. cbv zeta.
    unfold GISHelpersWait.waitForCondition.
    destruct (Date_now w) as [startTime w1].
    rewrite legacy_completion_after, legacy_trace_after. cbn [app]. intros H.
    apply later_in_list in H; [|discriminate]. destruct H as (e1 & _ & H).
    exact (legacy_poll_stops World Date_now waitForTimeout condition _ _ _ _ _
             _ _ _ _ H).
  - intros World Date_now waitForTimeout condition options fuel w error. cbv zeta.
    unfold GISHelpersWait.waitForCondition.
    destruct (Date_now w) as [startTime w1]. cbn [fst snd].
    destruct (Date_now w1) as [now w2] eqn:Hnow. cbn [fst snd].
    destruct (condition w2) as [settled w3] eqn:Hcond. cbn [fst].
    intros Hcheck ->.
    rewrite (legacy_poll_rethrows World Date_now waitForTimeout condition startTime
               _ _ _ fuel w1 now w2 error w3 Hnow Hcheck Hcond).
    split; reflexivity.
Qed.

Lemma legacy_waitForCondition_spec_witness :
  let legacy :=
    GISHelpersWait.waitForCondition Scripted.World Scripted.Date_now
      Scripted.waitForTimeout Scripted.condition GISWaitStrategies.no_options 3%nat
      (Scripted.mkWorld 0%Z
         [GISWaitStrategies.Fulfilled false;
          GISWaitStrategies.Rejected (OtherError "page not ready");
          GISWaitStrategies.Fulfilled true]) in
  GISHelpersWait.completion legacy =
    GISHelpersWait.Threw (VError [VText "page not ready"]) /\
  GISWaitStrategies.evaluations (GISHelpersWait.trace legacy) = 2%nat.
Proof.
  split; [|reflexivity].
  apply (proj1 (proj2 legacy_waitForCondition_spec) Scripted.World
           Scripted.Date_now Scripted.waitForTimeout Scripted.condition
           GISWaitStrategies.no_options 3%nat
           (Scripted.mkWorld 0%Z
              [GISWaitStrategies.Fulfilled false;
               GISWaitStrategies.Rejected (OtherError "page not ready");
               GISWaitStrategies.Fulfilled true])
           [GISWaitStrategies.ClockRead 0; GISWaitStrategies.ClockRead 0;
            GISWaitStrategies.Evaluated (GISWaitStrategies.Fulfilled false);
            GISWaitStrategies.Slept 100; GISWaitStrategies.ClockRead 100]
           [] (OtherError "page not ready")).
  reflexivity.
Defined.

(** X19.  The other legacy helpers that were rewritten agree with their
    replacements on every input: [GISHelpers.isPointInBounds] with
    [GISValidations.isPointInBounds] and [GISHelpers.calculateBearing] with
    [GISCalculations.calculateBearing]. *)
Theorem legacy_bounds_and_bearing_agree :
  (forall (pointLat pointLng : number) (bounds : MapBounds),
      GISHelpers.isPointInBounds pointLat pointLng bounds =
      GISValidations.isPointInBounds pointLat pointLng bounds) /\
  (forall lat1 lng1 lat2 lng2 : number,
      GISHelpers.calculateBearing lat1 lng1 lat2 lng2 =
      GISCalculations.calculateBearing lat1 lng1 lat2 lng2).
Proof. split; intros; reflexivity. Qed.

Section RetryFacts.
Import ErrorHandler.

Variable World : Type.
Variable T : Type.
Variable pause : number -> World -> World.

Lemma retry_completion_after events (o : Outcome World T) :
  completion (after World T events o) = completion o.
Proof. destruct o as [[c w] t]. reflexivity. Qed.

Lemma retry_final_world_after events (o : Outcome World T) :
  final_world (after World T events o) = final_world o.
Proof. destruct o as [[c w] t]. reflexivity. Qed.

Lemma retry_trace_after events (o : Outcome World T) :
  trace (after World T events o) = events ++ trace o.
Proof. destruct o as [[c w] t]. reflexivity. Qed.

Lemma attempts_app (t1 t2 : list (Event T)) :
  attempts (t1 ++ t2) = (attempts t1 + attempts t2)%nat.
Proof. unfold attempts. now rewrite filter_app, length_app. Qed.

Lemma pauses_app (t1 t2 : list (Event T)) :
  pauses (t1 ++ t2) = pauses t1 ++ pauses t2.
Proof. unfold pauses. apply flat_map_app. Qed.

Lemma exhausted_is_final maxRetries lastError :
  Errors.instanceof_TestError (exhausted maxRetries lastError) = true /\
  isRetryable (exhausted maxRetries lastError) = false.
Proof. split; reflexivity. Qed.

Lemma backoff_shift (delay backoffFactor : R) n :
  map (fun k => delay * backoffFactor * backoffFactor ^ k) (seq 0 n) =
  map (fun k => delay * backoffFactor ^ k) (seq 1 n).
Proof.
  rewrite <- seq_shift, map_map. apply map_ext. intros k. simpl. ring.
Qed.

Variable operation : Operation World T.
Variable maxRetries : Z.
Variable backoffFactor : number.

Local Abbreviation loop := (retry_loop World T pause operation maxRetries backoffFactor).

(** With fuel for the attempts that are left the loop ends, after at most
    that many attempts, having paused between two attempts for a time that
    grows by [backoffFactor]; what it throws is a [TestError] that is not
    retryable. *)
Lemma retry_loop_spec fuel :
  forall attempt delay lastError w,
    (0 < fuel)%nat -> (Z.to_nat (maxRetries + 1 - attempt) <= fuel)%nat ->
    let o := loop fuel attempt delay lastError w in
    completion o <> StillRunning /\
    (attempts (trace o) <= Z.to_nat (maxRetries + 1 - attempt))%nat /\
    ((attempt <= maxRetries)%Z -> (1 <= attempts (trace o))%nat) /\
    pauses (trace o) =
      map (fun k => delay * backoffFactor ^ k) (seq 0 (attempts (trace o) - 1)) /\
    (forall e, completion o = Threw e ->
               Errors.instanceof_TestError e = true /\ isRetryable e = false).
Proof.
  induction fuel as [|fuel IH]; intros attempt delay lastError w Hpos Hfuel; [lia|].
  cbv zeta. cbn [retry_loop].
  destruct (attempt <=? maxRetries)%Z eqn:Hturn.
  2:{ apply Z.leb_gt in Hturn. cbn.
      split; [discriminate|]. split; [lia|]. split; [lia|]. split; [reflexivity|].
      intros e He. injection He as <-. split; reflexivity. }
  apply Z.leb_le in Hturn.
  destruct (operation w) as [[value|error] w'].
  { cbn. split; [discriminate|]. split; [lia|]. split; [lia|]. split; [reflexivity|].
    discriminate. }
  destruct (Errors.instanceof_TestError error && negb (isRetryable error)) eqn:Hfinal.
  { cbn. apply andb_true_iff in Hfinal. destruct Hfinal as [Hclass Hretry].
    apply negb_true_iff in Hretry.
    split; [discriminate|]. split; [lia|]. split; [lia|]. split; [reflexivity|].
    intros e He. injection He as <-. now split. }
  destruct (attempt =? maxRetries)%Z eqn:Hlast.
  { cbn. split; [discriminate|]. split; [lia|]. split; [lia|]. split; [reflexivity|].
    intros e He. injection He as <-. split; reflexivity. }
  apply Z.eqb_neq in Hlast.
  match goal with
  | |- context [loop fuel ?a ?d ?l ?x] =>
      destruct (IH a d l x) as (Hend & Hcount & Hone & Hpauses & Hthrown);
        [lia | lia |]
  end.
  rewrite retry_completion_after, retry_trace_after, attempts_app, pauses_app, Hpauses.
  change (attempts [Attempted (@Throw T error); Paused delay]) with 1%nat.
  change (pauses [Attempted (@Throw T error); Paused delay]) with [delay].
  specialize (Hone ltac:(lia)).
  split; [assumption|]. split; [lia|]. split; [lia|]. split; [|assumption].
  match goal with
  | |- context [(1 + ?n - 1)%nat] =>
      replace (1 + n - 1)%nat with (S (n - 1)) by lia
  end.
  cbn [seq map app]. f_equal.
  - change (delay = delay * 1). unfold number in *. ring.
  - apply backoff_shift.
Qed.
End RetryFacts.

(** X20.  [withRetry] ends once the fuel covers [maxRetries + 1] turns: it
    returns or throws, having called the operation at most [maxRetries + 1]
    times (never, for a negative [maxRetries]), and whatever it throws is a
    [TestError] that is not retryable: the operation's own, or the one with
    code MAX_RETRIES_EXCEEDED. *)
Theorem withRetry_ends (World T : Type) (pause : number -> World -> World)
    (operation : ErrorHandler.Operation World T)
    (maxRetries : option Z) (initialDelay backoffFactor : option number)
    (fuel : nat) (w : World) :
  (Z.to_nat (or_default maxRetries 3%Z) < fuel)%nat ->
  let o :=
    ErrorHandler.withRetry World T pause operation maxRetries initialDelay
      backoffFactor fuel w in
  ErrorHandler.completion o <> ErrorHandler.StillRunning /\
  (ErrorHandler.attempts (ErrorHandler.trace o) <=
   Z.to_nat (or_default maxRetries 3%Z + 1))%nat /\
  (forall e, ErrorHandler.completion o = ErrorHandler.Threw e ->
             Errors.instanceof_TestError e = true /\
             ErrorHandler.isRetryable e = false).
Proof.
  intros Hfuel. cbv zeta. unfold ErrorHandler.withRetry.
  match goal with
  | |- context [ErrorHandler.retry_loop _ _ _ _ ?m ?b ?f ?a ?d ?l ?x] =>
      destruct (retry_loop_spec World T pause operation m b f a d l x)
        as (Hend & Hcount & _ & _ & Hthrown); [lia | lia |]
  end.
  rewrite Z.sub_0_r in Hcount. split; [|split]; assumption.
Qed.

Lemma withRetry_ends_witness :
  let o :=
    ErrorHandler.withRetry (ScriptedOperation.World nat) nat
      (ScriptedOperation.pause nat) (ScriptedOperation.operation nat 0%nat)
      None None None 4%nat
      (ScriptedOperation.mkWorld nat
         [Throw (VError [VText "busy"]); Return 7%nat] []) in
  ErrorHandler.completion o <> ErrorHandler.StillRunning /\
  (ErrorHandler.attempts (ErrorHandler.trace o) <= 4)%nat /\
  (forall e, ErrorHandler.completion o = ErrorHandler.Threw e ->
             Errors.instanceof_TestError e = true /\
             ErrorHandler.isRetryable e = false).
Proof.
  apply (withRetry_ends (ScriptedOperation.World nat) nat
           (ScriptedOperation.pause nat) (ScriptedOperation.operation nat 0%nat)
           None None None 4%nat).
  simpl. lia.
Defined.

(** X21.  Exponential backoff: between two attempts [withRetry] pauses, the
    [k]-th time for [initialDelay * backoffFactor ^ k] milliseconds, and it
    pauses exactly once less than it calls the operation. *)
Theorem withRetry_backoff (World T : Type) (pause : number -> World -> World)
    (operation : ErrorHandler.Operation World T)
    (maxRetries : option Z) (initialDelay backoffFactor : option number)
    (fuel : nat) (w : World) :
  (Z.to_nat (or_default maxRetries 3%Z) < fuel)%nat ->
  let o :=
    ErrorHandler.withRetry World T pause operation maxRetries initialDelay
      backoffFactor fuel w in
  ErrorHandler.pauses (ErrorHandler.trace o) =
  map (fun k => or_default initialDelay 1000 * or_default backoffFactor 2 ^ k)
      (seq 0 (ErrorHandler.attempts (ErrorHandler.trace o) - 1)).
Proof.
  intros Hfuel. cbv zeta. unfold ErrorHandler.withRetry.
  match goal with
  | |- context [ErrorHandler.retry_loop _ _ _ _ ?m ?b ?f ?a ?d ?l ?x] =>
      destruct (retry_loop_spec World T pause operation m b f a d l x)
        as (_ & _ & _ & Hpauses & _); [lia | lia |]
  end.
  exact Hpauses.
Qed.

Lemma withRetry_backoff_witness :
  let busy : Attempt nat := Throw (VError [VText "busy"]) in
  let o :=
    ErrorHandler.withRetry (ScriptedOperation.World nat) nat
      (ScriptedOperation.pause nat) (ScriptedOperation.operation nat 0%nat)
      None None None 4%nat
      (ScriptedOperation.mkWorld nat [busy; busy; Return 7%nat] []) in
  ErrorHandler.pauses (ErrorHandler.trace o) = [1000 * 2 ^ 0; 1000 * 2 ^ 1].
Proof.
  apply (withRetry_backoff (ScriptedOperation.World nat) nat
           (ScriptedOperation.pause nat) (ScriptedOperation.operation nat 0%nat)
           None None None 4%nat).
  simpl. lia.
Defined.

Section ScriptedRetryFacts.
Import ErrorHandler.

Variable T : Type.
Variable fallback : T.
Variable maxRetries : Z.
Variable backoffFactor : number.

Local Abbreviation play :=
  (retry_loop (ScriptedOperation.World T) T (ScriptedOperation.pause T)
     (ScriptedOperation.operation T fallback) maxRetries backoffFactor).

Lemma operation_next (outcome : Attempt T) rest slept :
  ScriptedOperation.operation T fallback
    (ScriptedOperation.mkWorld T (outcome :: rest) slept) =
  (outcome, ScriptedOperation.mkWorld T rest slept).
Proof. reflexivity. Qed.

Lemma pause_slept (delay : number) (script : list (Attempt T)) slept :
  ScriptedOperation.pause T delay (ScriptedOperation.mkWorld T script slept) =
  ScriptedOperation.mkWorld T script (slept ++ [delay]).
Proof. reflexivity. Qed.

Lemma backoff_first (delay : R) (factor : R) n :
  delay :: map (fun k => delay * factor * factor ^ k) (seq 0 n) =
  map (fun k => delay * factor ^ k) (seq 0 (S n)).
Proof.
  rewrite backoff_shift. cbn [seq map]. f_equal. simpl. ring.
Qed.

Lemma play_decisive failures :
  forall last rest attempt delay lastError slept fuel,
    Forall goes_on failures -> decisive last ->
    (attempt + Z.of_nat (length failures) <= maxRetries)%Z ->
    (length failures < fuel)%nat ->
    let o :=
      play fuel attempt delay lastError
        (ScriptedOperation.mkWorld T (map Throw failures ++ last :: rest) slept) in
    completion o = ending last /\
    final_world o =
      ScriptedOperation.mkWorld T rest
        (slept ++ map (fun k => delay * backoffFactor ^ k)
                      (seq 0 (length failures))) /\
    attempts (trace o) = S (length failures).
Proof.
  induction failures as [|e failures IH];
    intros last rest attempt delay lastError slept fuel Hgo Hlast Hroom Hfuel;
    (destruct fuel as [|fuel]; [simpl in Hfuel; lia|]).
  - cbv zeta. cbn [retry_loop map app length seq].
    simpl in Hroom.
    replace (attempt <=? maxRetries)%Z with true by (symmetry; apply Z.leb_le; lia).
    rewrite !operation_next.
    rewrite app_nil_r.
    destruct last as [value|error]; [now repeat split|].
    simpl in Hlast. rewrite Hlast. now repeat split.
  - cbv zeta. cbn [retry_loop map app length].
    cbn [length] in Hroom, Hfuel. inversion Hgo as [|? ? He Hrest]; subst.
    replace (attempt <=? maxRetries)%Z with true by (symmetry; apply Z.leb_le; lia).
    rewrite !operation_next.
    unfold goes_on in He. rewrite He.
    replace (attempt =? maxRetries)%Z with false by (symmetry; apply Z.eqb_neq; lia).
    rewrite retry_completion_after, retry_final_world_after, retry_trace_after,
      attempts_app.
    rewrite !pause_slept.
    match goal with
    | |- context [retry_loop _ _ _ _ _ _ fuel ?a ?d ?l
                    (ScriptedOperation.mkWorld T _ ?s)] =>
        destruct (IH last rest a d l s fuel Hrest Hlast) as (Hc & Hw & Ha);
          [lia | lia |]
    end.
    rewrite Hc, Hw, Ha. split; [reflexivity|]. split; [|reflexivity].
    f_equal. rewrite <- app_assoc. f_equal. apply backoff_first.
Qed.

Lemma play_exhausted failures :
  forall e rest attempt delay lastError slept fuel,
    Forall goes_on (failures ++ [e]) ->
    (attempt + Z.of_nat (length failures) = maxRetries)%Z ->
    (length failures < fuel)%nat ->
    let o :=
      play fuel attempt delay lastError
        (ScriptedOperation.mkWorld T (map Throw (failures ++ [e]) ++ rest) slept) in
    completion o =
      Threw (exhausted maxRetries
               (Some (if Errors.instanceof_Error e then e else VError [e]))) /\
    final_world o =
      ScriptedOperation.mkWorld T rest
        (slept ++ map (fun k => delay * backoffFactor ^ k)
                      (seq 0 (length failures))) /\
    attempts (trace o) = S (length failures).
Proof.
  induction failures as [|e' failures IH];
    intros e rest attempt delay lastError slept fuel Hgo Hroom Hfuel;
    (destruct fuel as [|fuel]; [simpl in Hfuel; lia|]).
  - cbv zeta. cbn [retry_loop map app length seq].
    simpl in Hroom.
    replace (attempt <=? maxRetries)%Z with true by (symmetry; apply Z.leb_le; lia).
    rewrite !operation_next.
    rewrite app_nil_r.
    inversion Hgo as [|? ? He _]; subst. unfold goes_on in He. rewrite He.
    replace (attempt + 0 =? attempt + 0)%Z with true by (symmetry; apply Z.eqb_refl).
    replace (attempt =? attempt + 0)%Z with true by (symmetry; apply Z.eqb_eq; lia).
    now repeat split.
  - cbv zeta. cbn [retry_loop map app length].
    cbn [length] in Hroom, Hfuel. cbn [app] in Hgo.
    inversion Hgo as [|? ? He Hrest]; subst.
    replace (attempt <=? _)%Z with true by (symmetry; apply Z.leb_le; lia).
    rewrite !operation_next.
    unfold goes_on in He. rewrite He.
    replace (attempt =? _)%Z with false by (symmetry; apply Z.eqb_neq; lia).
    rewrite retry_completion_after, retry_final_world_after, retry_trace_after,
      attempts_app.
    rewrite !pause_slept.
    match goal with
    | |- context [retry_loop _ _ _ _ _ _ fuel ?a ?d ?l
                    (ScriptedOperation.mkWorld T _ ?s)] =>
        destruct (IH e rest a d l s fuel Hrest) as (Hc & Hw & Ha); [lia | lia |]
    end.
    rewrite Hc, Hw, Ha. split; [reflexivity|]. split; [|reflexivity].
    f_equal. rewrite <- app_assoc. f_equal. apply backoff_first.
Qed.
End ScriptedRetryFacts.

(** X22.  [withRetry] stops at the first outcome that decides: when the
    operation fails [k <= maxRetries] times with errors that may be retried
    (anything but a [TestError] whose [isRetryable] is false) and then
    returns, [withRetry] returns that value; when it then throws a
    [TestError] that is not retryable, [withRetry] throws that very error.
    Either way the operation was called [k + 1] times, what was left of the
    script is untouched, and the pauses were
    [initialDelay * backoffFactor ^ i] for [i < k]. *)
Theorem withRetry_stops_at_first_decisive (T : Type) (fallback : T)
    (failures : list Value) (last : Attempt T) (rest : list (Attempt T))
    (maxRetries : option Z) (initialDelay backoffFactor : option number)
    (fuel : nat) :
  Forall ErrorHandler.goes_on failures ->
  ErrorHandler.decisive last ->
  (Z.of_nat (length failures) <= or_default maxRetries 3)%Z ->
  (length failures < fuel)%nat ->
  let o :=
    ErrorHandler.withRetry (ScriptedOperation.World T) T
      (ScriptedOperation.pause T) (ScriptedOperation.operation T fallback)
      maxRetries initialDelay backoffFactor fuel
      (ScriptedOperation.mkWorld T (map Throw failures ++ last :: rest) []) in
  ErrorHandler.completion o = ErrorHandler.ending last /\
  ErrorHandler.final_world o =
    ScriptedOperation.mkWorld T rest
      (map (fun i => or_default initialDelay 1000 * or_default backoffFactor 2 ^ i)
           (seq 0 (length failures))) /\
  ErrorHandler.attempts (ErrorHandler.trace o) = S (length failures).
Proof.
  intros Hgo Hlast Hroom Hfuel. cbv zeta. unfold ErrorHandler.withRetry.
  apply (play_decisive T fallback (or_default maxRetries 3%Z)
           (or_default backoffFactor 2) failures last rest 0%Z
           (or_default initialDelay 1000) None [] fuel Hgo Hlast);
    [lia | exact Hfuel].
Qed.

Lemma withRetry_stops_at_first_decisive_witness :
  let timedOut := Errors.TimeoutError "map load" 5000 None in
  let o :=
    ErrorHandler.withRetry (ScriptedOperation.World nat) nat
      (ScriptedOperation.pause nat) (ScriptedOperation.operation nat 0%nat)
      None None None 3%nat
      (ScriptedOperation.mkWorld nat
         (map Throw [VError [VText "busy"]; timedOut] ++ Return 7%nat :: []) []) in
  ErrorHandler.completion o = ErrorHandler.Returned 7%nat /\
  ErrorHandler.final_world o =
    ScriptedOperation.mkWorld nat [] [1000 * 2 ^ 0; 1000 * 2 ^ 1] /\
  ErrorHandler.attempts (ErrorHandler.trace o) = 3%nat.
Proof.
  apply (withRetry_stops_at_first_decisive nat 0%nat
           [VError [VText "busy"]; Errors.TimeoutError "map load" 5000 None]
           (Return 7%nat) [] None None None 3%nat).
  - repeat constructor.
  - exact I.
  - simpl. lia.
  - simpl. lia.
Defined.

(** X23.  [withRetry] gives up after [maxRetries + 1] failures that may be
    retried: it throws the [TestError] with code MAX_RETRIES_EXCEEDED, which
    is not retryable and carries the last failure as [lastError] (wrapped
    in an [Error] when it was not one); it has paused [maxRetries] times and
    does not pause after the last failure. *)
Theorem withRetry_gives_up (T : Type) (fallback : T)
    (failures : list Value) (e : Value) (rest : list (Attempt T))
    (maxRetries : option Z) (initialDelay backoffFactor : option number)
    (fuel : nat) :
  Forall ErrorHandler.goes_on (failures ++ [e]) ->
  Z.of_nat (length failures) = or_default maxRetries 3%Z ->
  (length failures < fuel)%nat ->
  let o :=
    ErrorHandler.withRetry (ScriptedOperation.World T) T
      (ScriptedOperation.pause T) (ScriptedOperation.operation T fallback)
      maxRetries initialDelay backoffFactor fuel
      (ScriptedOperation.mkWorld T (map Throw (failures ++ [e]) ++ rest) []) in
  ErrorHandler.completion o =
    ErrorHandler.Threw
      (VTestError "TestError"
         [VText "Operation failed after ";
          VNumber (IZR (or_default maxRetries 3%Z + 1)); VText " attempts"]
         [("lastError"%string,
           if Errors.instanceof_Error e then e else VError [e]);
          ("maxRetries"%string, VNumber (IZR (or_default maxRetries 3%Z)))]
         (Some "MAX_RETRIES_EXCEEDED"%string) false) /\
  ErrorHandler.final_world o =
    ScriptedOperation.mkWorld T rest
      (map (fun i => or_default initialDelay 1000 * or_default backoffFactor 2 ^ i)
           (seq 0 (length failures))) /\
  ErrorHandler.attempts (ErrorHandler.trace o) = S (length failures).
Proof.
  intros Hgo Hroom Hfuel. cbv zeta. unfold ErrorHandler.withRetry.
  apply (play_exhausted T fallback (or_default maxRetries 3%Z)
           (or_default backoffFactor 2) failures e rest 0%Z
           (or_default initialDelay 1000) None [] fuel Hgo);
    [lia | exact Hfuel].
Qed.

Lemma withRetry_gives_up_witness :
  let timedOut := Errors.TimeoutError "map load" 5000 None in
  let o :=
    ErrorHandler.withRetry (ScriptedOperation.World nat) nat
      (ScriptedOperation.pause nat) (ScriptedOperation.operation nat 0%nat)
      (Some 1%Z) (Some 100) None 2%nat
      (ScriptedOperation.mkWorld nat
         (map Throw ([timedOut] ++ [VText "busy"]) ++ [Return 7%nat]) []) in
  ErrorHandler.completion o =
    ErrorHandler.Threw
      (VTestError "TestError"
         [VText "Operation failed after "; VNumber (IZR (1 + 1));
          VText " attempts"]
         [("lastError"%string, VError [VText "busy"]);
          ("maxRetries"%string, VNumber (IZR 1))]
         (Some "MAX_RETRIES_EXCEEDED"%string) false) /\
  ErrorHandler.final_world o =
    ScriptedOperation.mkWorld nat [Return 7%nat] [100 * 2 ^ 0] /\
  ErrorHandler.attempts (ErrorHandler.trace o) = 2%nat.
Proof.
  apply (withRetry_gives_up nat 0%nat
           [Errors.TimeoutError "map load" 5000 None] (VText "busy")
           [Return 7%nat] (Some 1%Z) (Some 100) None 2%nat).
  - repeat constructor.
  - reflexivity.
  - simpl. lia.
Defined.

Section WrappingFacts.
Import ErrorHandler.

Variable World : Type.
Variable T : Type.
Variable pause : number -> World -> World.
Variable operation : Operation World T.
Variable errorContext : string.
Variable context : option (list (string * Value)).

(** Whatever [withErrorHandling] throws is a [TestError]; it returns what
    the operation returns and leaves the world as the operation left it. *)
Lemma withErrorHandling_spec w :
  let wrapped := withErrorHandling World T operation errorContext context in
  snd (wrapped w) = snd (operation w) /\
  (forall value, fst (wrapped w) = Return value <->
                 fst (operation w) = Return value) /\
  (forall e, fst (wrapped w) = Throw e -> Errors.instanceof_TestError e = true) /\
  (forall e, fst (operation w) = Throw e ->
             Errors.instanceof_TestError e = true ->
             fst (wrapped w) = Throw e).
Proof.
  cbv zeta. unfold withErrorHandling.
  destruct (operation w) as [[value|error] w']; cbn [fst snd].
  - split; [reflexivity|]. split; [tauto|]. split; discriminate.
  - destruct (Errors.instanceof_TestError error) eqn:Hclass; cbn [fst snd].
    + split; [reflexivity|]. split; [tauto|]. split.
      * intros e He. injection He as <-. exact Hclass.
      * intros e He _. exact He.
    + split; [reflexivity|]. split; [split; discriminate|]. split.
      * intros e He. injection He as <-. reflexivity.
      * intros e He Hc. injection He as <-. congruence.
Qed.

Lemma retry_loop_attempts_once maxRetries backoffFactor fuel attempt delay
      lastError w :
  (attempt <= maxRetries)%Z ->
  (1 <= attempts (trace (retry_loop World T pause operation maxRetries
                           backoffFactor (S fuel) attempt delay lastError w)))%nat.
Proof.
  intros Hturn. cbn [retry_loop].
  apply Z.leb_le in Hturn. rewrite Hturn.
  destruct (operation w) as [[value|error] w']; [cbn; lia|].
  destruct (_ && _); [cbn; lia|].
  destruct (_ =? _)%Z; [cbn; lia|].
  rewrite retry_trace_after, attempts_app. cbn. lia.
Qed.
End WrappingFacts.

(** X24.  Wrapping an operation in [withErrorHandling] switches the retries
    of [withRetry] off for every error that is not a [TestError]: the
    wrapped operation is called once, nothing is paused, and the error with
    code WRAPPED_ERROR comes out; on the operation itself [withRetry] would
    have paused and called it again. *)
Theorem withErrorHandling_stops_retries (World T : Type)
    (pause : number -> World -> World)
    (operation : ErrorHandler.Operation World T)
    (errorContext : string) (context : option (list (string * Value)))
    (maxRetries : option Z) (initialDelay backoffFactor : option number)
    (fuel : nat) (w : World) (error : Value) :
  fst (operation w) = Throw error ->
  Errors.instanceof_TestError error = false ->
  (1 <= or_default maxRetries 3)%Z ->
  let wrapped :=
    ErrorHandler.withRetry World T pause
      (ErrorHandler.withErrorHandling World T operation errorContext context)
      maxRetries initialDelay backoffFactor (S (S fuel)) w in
  let bare :=
    ErrorHandler.withRetry World T pause operation
      maxRetries initialDelay backoffFactor (S (S fuel)) w in
  ErrorHandler.completion wrapped =
    ErrorHandler.Threw
      (VTestError "TestError"
         ([VText errorContext; VText ": "] ++
          (if Errors.instanceof_Error error
           then Errors.message_of error else [error]))
         (Errors.spread context [("originalError"%string, error)])
         (Some "WRAPPED_ERROR"%string) false) /\
  ErrorHandler.final_world wrapped = snd (operation w) /\
  ErrorHandler.attempts (ErrorHandler.trace wrapped) = 1%nat /\
  ErrorHandler.pauses (ErrorHandler.trace wrapped) = [] /\
  (2 <= ErrorHandler.attempts (ErrorHandler.trace bare))%nat /\
  ErrorHandler.pauses (ErrorHandler.trace bare) <> [].
Proof.
  intros Hthrows Hclass Hroom. cbv zeta.
  unfold ErrorHandler.withRetry.
  set (m := or_default maxRetries 3%Z) in *.
  remember (S fuel) as fuel' eqn:Hfuel.
  cbn [ErrorHandler.retry_loop].
  replace (0 <=? m)%Z with true by (symmetry; apply Z.leb_le; lia).
  replace (0 =? m)%Z with false by (symmetry; apply Z.eqb_neq; lia).
  destruct (operation w) as [outcome w'] eqn:Hop. cbn [fst snd] in *. subst outcome.
  assert (Hwrapped :
            ErrorHandler.withErrorHandling World T operation errorContext context w =
            (Throw
               (VTestError "TestError"
                  ([VText errorContext; VText ": "] ++
                   (if Errors.instanceof_Error error
                    then Errors.message_of error else [error]))
                  (Errors.spread context [("originalError"%string, error)])
                  (Some "WRAPPED_ERROR"%string) false), w')).
  { unfold ErrorHandler.withErrorHandling. now rewrite Hop, Hclass. }
  rewrite !Hwrapped, Hclass.
  cbn [andb negb ErrorHandler.isRetryable Errors.instanceof_TestError].
  split; [reflexivity|]. split; [reflexivity|]. split; [reflexivity|].
  split; [reflexivity|].
  rewrite retry_trace_after, attempts_app, pauses_app. subst fuel'.
  split.
  - match goal with
    | |- context [ErrorHandler.retry_loop _ _ _ _ ?m ?b (S ?f) ?a ?d ?l ?x] =>
        pose proof (retry_loop_attempts_once World T pause operation m b f a d l x
                      ltac:(lia)) as Hone
    end.
    cbn [ErrorHandler.attempts filter ErrorHandler.is_attempt length] in *. lia.
  - discriminate.
Qed.

Lemma withErrorHandling_stops_retries_witness :
  let busy : Value := VError [VText "busy"] in
  let operation := ScriptedOperation.operation nat 0%nat in
  let w := ScriptedOperation.mkWorld nat [Throw busy; Return 7%nat] [] in
  let wrapped :=
    ErrorHandler.withRetry (ScriptedOperation.World nat) nat
      (ScriptedOperation.pause nat)
      (ErrorHandler.withErrorHandling (ScriptedOperation.World nat) nat operation
         "load map" None)
      None None None 2%nat w in
  let bare :=
    ErrorHandler.withRetry (ScriptedOperation.World nat) nat
      (ScriptedOperation.pause nat) operation None None None 2%nat w in
  ErrorHandler.completion wrapped =
    ErrorHandler.Threw
      (VTestError "TestError"
         [VText "load map"; VText ": "; VText "busy"]
         [("originalError"%string, busy)]
         (Some "WRAPPED_ERROR"%string) false) /\
  ErrorHandler.final_world wrapped = ScriptedOperation.mkWorld nat [Return 7%nat] [] /\
  ErrorHandler.attempts (ErrorHandler.trace wrapped) = 1%nat /\
  ErrorHandler.pauses (ErrorHandler.trace wrapped) = [] /\
  (2 <= ErrorHandler.attempts (ErrorHandler.trace bare))%nat /\
  ErrorHandler.pauses (ErrorHandler.trace bare) <> [].
Proof.
  apply (withErrorHandling_stops_retries (ScriptedOperation.World nat) nat
           (ScriptedOperation.pause nat) (ScriptedOperation.operation nat 0%nat)
           "load map" None None None None 0%nat
           (ScriptedOperation.mkWorld nat
              [Throw (VError [VText "busy"]); Return 7%nat] [])
           (VError [VText "busy"])).
  - reflexivity.
  - reflexivity.
  - simpl. lia.
Defined.

(** X25.  Test data: whatever [Math.random] gives (two numbers in [0, 1)),
    [generateRandomCoordinate] makes a coordinate that passes
    [validateCoordinates] without a warning; the latitude is in [-90, 90)
    and the longitude in [-180, 180). *)
Theorem generateRandomCoordinate_is_valid (random1 random2 : number) :
  0 <= random1 < 1 -> 0 <= random2 < 1 ->
  let c := GISTestData.generateRandomCoordinate random1 random2 in
  GISValidations.validateCoordinates (lat c) (lng c) = (true, []) /\
  -90 <= lat c < 90 /\ -180 <= lng c < 180.
Proof.
  intros H1 H2. cbv zeta. unfold GISTestData.generateRandomCoordinate. cbn [lat lng].
  assert (Hlat : -90 <= (random1 - 1 / 2) * 180 < 90) by lra.
  assert (Hlng : -180 <= (random2 - 1 / 2) * 360 < 180) by lra.
  split; [|split; assumption].
  assert (Hvalid : result (GISValidations.validateCoordinates
                             ((random1 - 1 / 2) * 180) ((random2 - 1 / 2) * 360)) = true)
    by (apply validateCoordinates_iff; lra).
  pose proof (validateCoordinates_valid_log _ _ Hvalid) as Hlog.
  destruct (GISValidations.validateCoordinates _ _) as [answer lines].
  cbn [result fst snd] in *. now subst.
Qed.

Lemma generateRandomCoordinate_is_valid_witness :
  let c := GISTestData.generateRandomCoordinate 0 (3 / 4) in
  GISValidations.validateCoordinates (lat c) (lng c) = (true, []) /\
  -90 <= lat c < 90 /\ -180 <= lng c < 180.
Proof.
  apply (generateRandomCoordinate_is_valid 0 (3 / 4)); lra.
Defined.

Section ServiceFacts.
Import GISTestService.

Lemma lookup_assign key k v times :
  lookup key (assign k v times) =
  if (k =? key)%string then Some v else lookup key times.
Proof.
  unfold assign. induction times as [|[k' v'] times IH]; cbn [app lookup].
  - reflexivity.
  - rewrite IH. destruct (k =? key)%string; reflexivity.
Qed.

Lemma exceeds_false time limit :
  (0 <= limit)%Z ->
  exceeds time limit = false <-> (forall t, time = Some t -> (t <= limit)%Z).
Proof.
  intros Hlimit. unfold exceeds. destruct time as [t|].
  - rewrite andb_false_iff, negb_false_iff, Z.eqb_eq, Z.ltb_ge. split.
    + intros H t' Ht. injection Ht as <-. lia.
    + intros H. right. now apply H.
  - split; [discriminate | reflexivity].
Qed.

Lemma checkPerformanceThresholds_true times :
  checkPerformanceThresholds times = true <->
  exceeds (lookup "mapLoad" times) 15000 = false /\
  exceeds (lookup "zoomOperations" times) 30000 = false /\
  exceeds (lookup "layerSwitching" times) 25000 = false.
Proof.
  unfold checkPerformanceThresholds.
  change GIS_CONFIG.PERFORMANCE_THRESHOLDS.MAP_LOAD_MAX_MS with 15000%Z.
  change GIS_CONFIG.PERFORMANCE_THRESHOLDS.ZOOM_OPERATIONS_MAX_MS with 30000%Z.
  change GIS_CONFIG.PERFORMANCE_THRESHOLDS.LAYER_SWITCH_MAX_MS with 25000%Z.
  destruct (exceeds (lookup "mapLoad" times) 15000);
    destruct (exceeds (lookup "zoomOperations" times) 30000);
    destruct (exceeds (lookup "layerSwitching" times) 25000);
    split; intros H; try discriminate; try tauto;
    destruct H as (H1 & H2 & H3); discriminate.
Qed.
End ServiceFacts.

(** X26.  [checkPerformanceThresholds] passes exactly when none of the three
    times it knows (map load, zoom operations, layer switching), as last
    assigned, is above its limit of 15, 30 and 25 seconds; a time that was
    never taken passes.  No other entry of [operationTimes] is looked at:
    the time of the pan operations, which [performPerformanceTest] also
    measures, has no influence on the verdict. *)
Theorem checkPerformanceThresholds_spec :
  (forall times : GISTestService.Times,
      GISTestService.checkPerformanceThresholds times = true <->
      (forall t, GISTestService.lookup "mapLoad" times = Some t -> (t <= 15000)%Z) /\
      (forall t, GISTestService.lookup "zoomOperations" times = Some t ->
                 (t <= 30000)%Z) /\
      (forall t, GISTestService.lookup "layerSwitching" times = Some t ->
                 (t <= 25000)%Z)) /\
  (forall (times : GISTestService.Times) (key : string) (value : Z),
      key <> "mapLoad"%string -> key <> "zoomOperations"%string ->
      key <> "layerSwitching"%string ->
      GISTestService.checkPerformanceThresholds
        (GISTestService.assign key value times) =
      GISTestService.checkPerformanceThresholds times).
Proof.
  split.
  - intros times. rewrite checkPerformanceThresholds_true.
    rewrite !exceeds_false by lia. reflexivity.
  - intros times key value H1 H2 H3.
    unfold GISTestService.checkPerformanceThresholds.
    rewrite !lookup_assign.
    apply String.eqb_neq in H1, H2, H3. now rewrite H1, H2, H3.
Qed.

Lemma checkPerformanceThresholds_spec_witness :
  GISTestService.checkPerformanceThresholds
    (GISTestService.assign "panOperations" 999999 [("mapLoad"%string, 1200%Z)]) =
  GISTestService.checkPerformanceThresholds [("mapLoad"%string, 1200%Z)].
Proof.
  apply (proj2 checkPerformanceThresholds_spec [("mapLoad"%string, 1200%Z)]
           "panOperations"%string 999999%Z); discriminate.
Defined.

Section MapStateFacts.
Import GISTestService.

Lemma added_is_not_empty {A} (l : list A) (x : A) : l ++ [x] <> [].
Proof. destruct l; discriminate. Qed.

Lemma validateZoomLevel_default zoom :
  GISValidations.validateZoomLevel zoom None None = true <-> 0 <= zoom <= 20.
Proof.
  unfold GISValidations.validateZoomLevel, or_default.
  rewrite andb_true_iff, num_ge_true, num_le_true. lra.
Qed.
End MapStateFacts.

(** X27.  [validateMapState] reports a valid map exactly when it reports no
    error, and that is exactly when all six reads of the page went through,
    the map exists, the zoom is between 0 and 20, the centre is a valid
    coordinate and the bounds are a valid box.  The tile count and the
    animation flag only add warnings: their values never change the
    verdict (an exception while reading them does). *)
Theorem validateMapState_spec (page : GISTestService.PageReads) :
  let r := result (GISTestService.validateMapState page) in
  (GISTestService.isValid r = true <-> GISTestService.errors r = []) /\
  (GISTestService.isValid r = true <->
   exists zoom center bounds tiles animating,
     page = GISTestService.mkReads (Return true) (Return zoom) (Return center)
              (Return bounds) (Return tiles) (Return animating) /\
     0 <= zoom <= 20 /\
     (-90 <= lat center <= 90 /\ -180 <= lng center <= 180) /\
     (-90 <= south bounds /\ south bounds < north bounds /\ north bounds <= 90 /\
      -180 <= west bounds /\ west bounds < east bounds /\ east bounds <= 180)).
Proof.
  cbv zeta.
  assert (Hdead : forall (found : list (list Value)) (x : list Value) warnings,
             (GISTestService.isValid
                (GISTestService.mkResult false (found ++ [x]) warnings) = true <->
              GISTestService.errors
                (GISTestService.mkResult false (found ++ [x]) warnings) = []) /\
             (GISTestService.isValid
                (GISTestService.mkResult false (found ++ [x]) warnings) = true <->
              False)).
  { intros found x warnings. cbn [GISTestService.isValid GISTestService.errors].
    split; (split; [discriminate|]); [|tauto].
    intros H. now apply added_is_not_empty in H. }
  assert (Hno : forall P Q R : Prop, (P <-> Q) /\ (P <-> False) -> (R -> False) ->
                                     (P <-> Q) /\ (P <-> R)) by tauto.
  destruct page as [mapExists currentZoom currentCenter currentBounds tileCount
                      isAnimating].
  unfold GISTestService.validateMapState, GISTestService.caught.
  cbn [GISTestService.mapExists GISTestService.currentZoom
       GISTestService.currentCenter GISTestService.currentBounds
       GISTestService.tileCount GISTestService.isAnimating].
  destruct mapExists as [[|]|e1];
    [| apply Hno; [apply Hdead | intros (? & ? & ? & ? & ? & Hp & _); discriminate Hp]..].
  destruct currentZoom as [zoom|e2];
    [| apply Hno; [apply Hdead | intros (? & ? & ? & ? & ? & Hp & _); discriminate Hp]].
  destruct currentCenter as [center|e3];
    [| apply Hno; [apply Hdead | intros (? & ? & ? & ? & ? & Hp & _); discriminate Hp]].
  rewrite result_bind.
  destruct currentBounds as [bounds|e4];
    [| apply Hno; [apply Hdead | intros (? & ? & ? & ? & ? & Hp & _); discriminate Hp]].
  rewrite result_bind.
  destruct tileCount as [tiles|e5];
    [| apply Hno; [apply Hdead | intros (? & ? & ? & ? & ? & Hp & _); discriminate Hp]].
  destruct isAnimating as [animating|e6];
    [| apply Hno; [apply Hdead | intros (? & ? & ? & ? & ? & Hp & _); discriminate Hp]].
  cbn [result ret fst GISTestService.isValid GISTestService.errors].
  pose proof (validateZoomLevel_default zoom) as Hzoom.
  pose proof (validateCoordinates_iff (lat center) (lng center)) as Hcenter.
  pose proof (validateBounds_iff bounds) as Hbounds.
  destruct (GISValidations.validateZoomLevel zoom None None);
    destruct (result (GISValidations.validateCoordinates (lat center) (lng center)));
    destruct (result (GISValidations.validateBounds bounds));
    cbn [negb app length Nat.eqb];
    (split; [split; [first [discriminate | reflexivity]
                    | first [reflexivity | discriminate]]|]);
    (split;
     [ first
         [ discriminate
         | intros _; exists zoom, center, bounds, tiles, animating;
           split; [reflexivity|]; split; [now apply Hzoom|];
           split; [now apply Hcenter | now apply Hbounds] ]
     | intros (z & c & b & t & a & Hp & Hz & Hc & Hb);
       injection Hp as <- <- <- _ _;
       first
         [ reflexivity
         | apply Hzoom in Hz; discriminate Hz
         | apply Hcenter in Hc; discriminate Hc
         | apply Hbounds in Hb; discriminate Hb ] ]).
Qed.

Section PolygonSymmetry.
Import GISCalculations PolygonSpec PolygonPath.










Lemma area_of_closed_sum coordinates :
  calculatePolygonArea coordinates =
  if (length coordinates <? 3)%nat then 0
  else Rabs (closed_sum coordinates) * 6371 * 6371 / 2.
Proof.
  unfold calculatePolygonArea. now rewrite loop_is_closed_sum.
Qed.
End PolygonSymmetry.


(** X29.  For the box between two parallels and two meridians, listed
    corner by corner, [calculatePolygonArea] is the exact area of that part
    of the sphere: [R * R * (east - west) * (sin north - sin south)], the
    angles in radians. *)
Theorem calculatePolygonArea_of_box (south north west east : number) :
  -90 <= south -> south <= north -> north <= 90 -> west <= east ->
  GISCalculations.calculatePolygonArea
    [mkCoord south west; mkCoord south east; mkCoord north east;
     mkCoord north west] =
  6371 * 6371 *
  (GISCalculations.degreesToRadians east - GISCalculations.degreesToRadians west) *
  (sin (GISCalculations.degreesToRadians north) -
   sin (GISCalculations.degreesToRadians south)).
Proof.
  intros Hs Hsn Hn Hwe.
  rewrite area_of_closed_sum. cbn [length Nat.ltb Nat.leb].
  unfold PolygonSpec.closed_sum, PolygonSpec.closed_pairs.
  cbn [app combine map PolygonSpec.total].
  unfold PolygonSpec.term. cbn [fst snd lat lng].
  set (s := GISCalculations.degreesToRadians south).
  set (n := GISCalculations.degreesToRadians north).
  set (w := GISCalculations.degreesToRadians west).
  set (e := GISCalculations.degreesToRadians east).
  assert (Hpi : 0 < PI) by apply PI_RGT_0.
  assert (Hlng : w <= e).
  { unfold w, e, GISCalculations.degreesToRadians.
    apply Rmult_le_compat_r; [|exact Hwe].
    apply Rlt_le, Rdiv_lt_0_compat; lra. }
  assert (Hsin : sin s <= sin n).
  { assert (Hk : 0 < PI / 180) by (apply Rdiv_lt_0_compat; lra).
    assert (Hs' : - (PI / 2) <= s)
      by (unfold s, GISCalculations.degreesToRadians; nra).
    assert (Hn' : n <= PI / 2)
      by (unfold n, GISCalculations.degreesToRadians; nra).
    assert (Hsn' : s <= n)
      by (unfold s, n, GISCalculations.degreesToRadians; nra).
    apply sin_incr_1; lra. }
  replace ((e - w) * (2 + sin s + sin s) +
           ((e - e) * (2 + sin s + sin n) +
            ((w - e) * (2 + sin n + sin n) +
             ((w - w) * (2 + sin n + sin s) + 0))))
    with (- (2 * ((e - w) * (sin n - sin s)))) by ring.
  rewrite Rabs_Ropp, Rabs_right by nra.
  match goal with |- @eq _ ?a ?b => change (@eq R a b) end. field.
Qed.

Lemma calculatePolygonArea_of_box_witness :
  GISCalculations.calculatePolygonArea
    [mkCoord (-90) (-180); mkCoord (-90) 180; mkCoord 90 180; mkCoord 90 (-180)] =
  6371 * 6371 *
  (GISCalculations.degreesToRadians 180 - GISCalculations.degreesToRadians (-180)) *
  (sin (GISCalculations.degreesToRadians 90) -
   sin (GISCalculations.degreesToRadians (-90))).
Proof.
  apply (calculatePolygonArea_of_box (-90) 90 (-180) 180); lra.
Defined.
